(** * LIS Coffee Slack bot: ledger, counters and control-message logic

    A shallow embedding of [src/app.js].  The bot keeps three in-memory maps
    ([userChoices], [userMessageRefs], [monthlySettled]) and talks to two
    external services: a spreadsheet that serves as the ledger of choices and
    the chat platform.  Asynchronous functions become computations over one
    explicit [State]; a rejected promise becomes a [Thrown] outcome, and the
    state reached at the throw is kept, as in JavaScript.

    Conventions of the embedding

    - The ledger is the list of rows of range [A:E], a row is the list of
      its cells, a cell is a string or a number; the cell a short row lacks
      reads [undefined].  A request to a service either is rejected and
      changes nothing, or goes through with its whole effect.
    - Every external request takes one tick.  Which requests are rejected
      and what the clock reads at a tick are fixed by the environment of a
      run ([Env]), so that every pattern of failures and every passing of
      time between requests is a run.
    - A JavaScript object used as a dictionary is a [gmap] keyed by the
      property name: the properties of its own.  The identifiers the chat
      platform hands over and month keys are assumed not to be names of
      [Object.prototype] members ([constructor], [toString], ...):
      chat-platform identifiers are upper-case alphanumerics, month keys
      are of the form [2024-05].  The user cells of the sheet are whatever
      the sheet holds; where [/monthly_tally] uses them as keys, the lookup
      through [Object.prototype] is part of the embedding ([inherited]).
    - Strings are sequences of 8-bit code units.
    - Prices and amounts are IEEE-754 doubles (primitive floats).  Counters
      only ever hold small non-negative integers or [NaN]; they are integers
      of [Z] with a separate [NaN], exact below [2^53].
    - The builtins of the JavaScript host (number and date parsing and
      printing, the local time zone) are the fields of the class [JsHost].
    - A handler is embedded past its [ack]; [respond] is an argument of the
      handler of [/coffee_tea].  The posting loop of [/monthly_tally] and
      the command [/coffee_clear_dm] write nothing the other functions
      read; they are embedded in the module [Commands], over a log of their
      own.  The timer that schedules the broadcast is not part of the
      embedding. *)

From Stdlib Require Import ZArith Floats Ascii String.
From stdpp Require Import base option list strings gmap pretty sorting.

Local Open Scope string_scope.
Local Open Scope Z_scope.

(** ** JavaScript values found in the cells of the ledger *)

Inductive jsval : Type :=
  | JUndef
  | JStr (s : string)
  | JNum (x : float).

(** Counters of [userChoices]: an integer, or [NaN] once arithmetic was done
    on a missing property. *)
Inductive counter : Type :=
  | Count (n : Z)
  | NaN.

Global Instance counter_eq_dec : EqDecision counter.
Proof. solve_decision. Defined.

(** The builtins of the host the program calls. *)
Class JsHost : Type := {
  (** [parseFloat(s)] on a string *)
  parseFloat : string → float;
  (** [String(x)] of a number: template literals, property keys, and the
      string [parseFloat] sees when it is handed a number *)
  Number_toString : float → string;
  (** [new Date(v).getTime()], [None] when it is [NaN] (Invalid Date) *)
  Date_new : jsval → option Z;
  (** [getFullYear()] and [getMonth()] (0-based) of a valid time value, in
      the local time zone *)
  getFullYear : Z → Z;
  getMonth : Z → Z;
  toISOString : Z → string;
  (** [toLocaleString('default', { month: 'long', year: 'numeric' })] *)
  toLocaleMonthYear : Z → string;
}.

(** ** Truthiness, string conversion, strict equality *)

(** A number is falsy when it is [0], [-0] or [NaN]. *)
Definition falsy_num (x : float) : bool :=
  PrimFloat.is_nan x || PrimFloat.eqb x 0%float.

Definition truthy (v : jsval) : bool :=
  match v with
  | JUndef => false
  | JStr s => negb (String.eqb s "")
  | JNum x => negb (falsy_num x)
  end.

(** [v === s] for a string [s]. *)
Definition strict_eq_str (v : jsval) (s : string) : bool :=
  match v with
  | JStr s' => String.eqb s' s
  | _ => false
  end.

(** [row[k]]: [undefined] beyond the end of the row. *)
Definition cell (row : list jsval) (k : nat) : jsval :=
  default JUndef (row !! k).

Section Host.
Context `{JsHost}.

(** [String(v)], also the property key [v] stands for in [obj[v]]. *)
Definition to_string (v : jsval) : string :=
  match v with
  | JUndef => "undefined"
  | JStr s => s
  | JNum x => Number_toString x
  end.

(** [parseFloat(v)] on any value: the argument is converted to a string. *)
Definition parseFloat_val (v : jsval) : float := parseFloat (to_string v).

(** [parseFloat(c || '0') || 0] *)
Definition parse_price (c : jsval) : float :=
  let p := parseFloat_val (if truthy c then c else JStr "0") in
  if falsy_num p then 0%float else p.

End Host.

(** Code units that [String.prototype.trim] strips (those below 256). *)
Definition is_white (a : ascii) : bool :=
  let n := Ascii.nat_of_ascii a in
  ((9 <=? n) && (n <=? 13) || (n =? 32) || (n =? 160))%nat.

Fixpoint trim_start (s : string) : string :=
  match s with
  | String a s' => if is_white a then trim_start s' else s
  | EmptyString => EmptyString
  end.

Definition trim (s : string) : string :=
  String.rev (trim_start (String.rev (trim_start s))).

(** [s.padStart(n, c)] for a one-character filler. *)
Fixpoint fill (n : nat) (c : ascii) : string :=
  match n with
  | O => EmptyString
  | S n' => String c (fill n' c)
  end.

Definition padStart (n : nat) (c : ascii) (s : string) : string :=
  fill (n - String.length s) c +:+ s.

(** ** Month keys *)

Section MonthKey.
Context `{JsHost}.

(** [getCurrentMonthKey(date)] *)
Definition getCurrentMonthKey (date : Z) : string :=
  let y := getFullYear date in
  let m := padStart 2 "0" (pretty (getMonth date + 1)) in
  pretty y +:+ "-" +:+ m.

(** [getCurrentMonthLabel(date)] *)
Definition getCurrentMonthLabel (date : Z) : string := toLocaleMonthYear date.

End MonthKey.

(** ** The monthly summary of one user *)

Record Summary : Type := mkSummary {
  coffee : Z;
  tea : Z;
  amount : float;
}.

Section SummaryLoop.
Context `{JsHost}.

(** One iteration of the loop of [getUserMonthlySummary] on [rows[i]]. *)
Definition summary_step (userId : string) (targetYear targetMonth : Z)
    (row : list jsval) (acc : Summary) : Summary :=
  if negb (strict_eq_str (cell row 0) userId) then acc
  else
    let dateStr := cell row 2 in
    let choice := cell row 3 in
    let price := parse_price (cell row 4) in
    match Date_new dateStr with
    | None => acc
    | Some d =>
        if (getFullYear d =? targetYear)%Z && (getMonth d =? targetMonth)%Z then
          let c := if strict_eq_str choice "coffee" then coffee acc + 1 else coffee acc in
          let t := if strict_eq_str choice "tea" then tea acc + 1 else tea acc in
          mkSummary c t (amount acc + price)%float
        else acc
    end.

(** [for (let i = ...; i < rows.length; i++)]: [n] iterations are left and
    the index stands at [i].  An index without a row ([!row]) is skipped. *)
Fixpoint summary_loop (userId : string) (targetYear targetMonth : Z)
    (rows : list (list jsval)) (n i : nat) (acc : Summary) : Summary :=
  match n with
  | O => acc
  | S n' =>
      let acc' :=
        match rows !! i with
        | None => acc
        | Some row => summary_step userId targetYear targetMonth row acc
        end in
      summary_loop userId targetYear targetMonth rows n' (S i) acc'
  end.

(** The scan of [getUserMonthlySummary] over the rows it read: the loop
    starts at index 1 and runs while [i < rows.length]. *)
Definition monthly_summary_of (rows : list (list jsval)) (userId : string)
    (date : Z) : Summary :=
  summary_loop userId (getFullYear date) (getMonth date) rows
    (length rows - 1) 1 (mkSummary 0 0 0%float).

End SummaryLoop.

(** ** The aggregation of the [/monthly_tally] command *)

(** [summary] is a plain object: a key it has no property of its own
    under is looked up in [Object.prototype].  These are the names under
    which that object has properties (ECMAScript 20.1.3 and B.2.2).  What
    is found under them is truthy: a built-in function, and under
    [__proto__] the object [Object.prototype] itself. *)
Definition Object_prototype_names : list string :=
  ["constructor"; "hasOwnProperty"; "isPrototypeOf"; "propertyIsEnumerable";
   "toLocaleString"; "toString"; "valueOf"; "__proto__";
   "__defineGetter__"; "__defineSetter__"; "__lookupGetter__"; "__lookupSetter__"].

Definition inherited (key : string) : bool :=
  existsb (String.eqb key) Object_prototype_names.

Section Tally.
Context `{JsHost}.

(** [summary[userId][choice]++] on an entry [{ coffee, tea, amount }].
    Under any other key the increment yields [NaN], kept in a property of
    the entry that is never read (dropped for [__proto__]). *)
Definition tally_bump (key : string) (e : Summary) : Summary :=
  if String.eqb key "coffee" then mkSummary (coffee e + 1) (tea e) (amount e)
  else if String.eqb key "tea" then mkSummary (coffee e) (tea e + 1) (amount e)
  else if String.eqb key "amount" then mkSummary (coffee e) (tea e) (amount e + 1)%float
  else e.

(** The callback of [rows.forEach((row, idx) => ...)] on the properties
    [summary] has of its own.  When [summary[userId]] is found in
    [Object.prototype], no entry is created and the two assignments that
    follow write to the built-in found there ([Object] for [constructor],
    [Object.prototype] itself for [__proto__]).  What they do there
    depends on the built-in, and it stays changed for all that runs later
    in the process, the clients of the chat platform and of the
    spreadsheet included: the embedding does not follow the run from
    there and yields [None]. *)
Definition tally_step (idx : nat) (row : list jsval)
    (summary : gmap string Summary) : option (gmap string Summary) :=
  if (idx =? 0)%nat then Some summary
  else
    let userId := to_string (cell row 0) in
    let choice := cell row 3 in
    let price := parse_price (cell row 4) in
    summary ←
      match summary !! userId with
      | Some _ => Some summary
      | None =>
          if inherited userId then None
          else Some (<[userId := mkSummary 0 0 0%float]> summary)
      end;
    Some (alter (λ e, let e := tally_bump (to_string choice) e in
                      mkSummary (coffee e) (tea e) (amount e + price)%float)
                userId summary).

Fixpoint tally_forEach (idx : nat) (rows : list (list jsval))
    (summary : gmap string Summary) : option (gmap string Summary) :=
  match rows with
  | [] => Some summary
  | row :: rows' =>
      summary ← tally_step idx row summary;
      tally_forEach (S idx) rows' summary
  end.

(** The [summary] object the command builds from the rows it read: the
    properties of its own, [None] when the callback reached a built-in. *)
Definition monthly_tally_summary (rows : list (list jsval))
    : option (gmap string Summary) :=
  tally_forEach 0 rows ∅.

End Tally.

(** ** The process, the services and the asynchronous functions *)

(** A member of the chat platform's directory.  An absent or empty string
    field is the empty string (both are falsy). *)
Record SlackUser : Type := mkUser {
  u_id : string;
  u_is_bot : bool;
  u_deleted : bool;
  u_name : string;
  u_display_name : string;
  u_real_name : string;
}.

(** An entry of [userMessageRefs].  An absent [ts] is the empty string. *)
Record MessageRef : Type := mkRef {
  ref_channelId : string;
  ref_ts : string;
  ref_monthKey : string;
}.

(** What [buildControlBlocks] renders; the fixed layout is left out. *)
Record Blocks : Type := mkBlocks {
  blk_month : string;
  blk_coffee : Z;
  blk_tea : Z;
  blk_amount : float;
  blk_settled : bool;
  blk_pay_url : string;
}.

Inductive Api : Type :=
  | sheets_get
  | values_get
  | values_update
  | values_append
  | batchUpdate
  | conversations_open
  | users_info
  | users_list
  | chat_postMessage
  | chat_update.

Inductive exn : Type :=
  | ApiError (api : Api)
  | TypeError
  | SheetNotFound (title : string).

(** What leaves the process: chat calls that went through, and lines of
    [console.error]. *)
Inductive Event : Type :=
  | Posted (channel text : string) (blocks : Blocks) (new_ts : string)
  | Updated (channel msg_ts text : string) (blocks : Blocks)
  | ConsoleError (msg : string) (e : exn).

(** Configuration and the behaviour of the world around one run: the
    external request issued at tick [n] is rejected when [faults n], and the
    clock reads [clock n] while the process stands at tick [n]. *)
Record Env : Type := mkEnv {
  coffeePrice : float;
  teaPrice : float;
  payUrl : string;
  sheetTitle : string;
  clock : nat → Z;
  faults : nat → bool;
  (** the directory of the workspace *)
  members : list SlackUser;
  (** title and [sheetId] of the sheets of the spreadsheet *)
  sheets : list (string * Z);
  (** the direct channel [conversations.open] yields for a user *)
  dm_channel : string → string;
  (** the [ts] the platform gives to a message posted at a tick *)
  fresh_ts : nat → string;
}.

Record State : Type := mkState {
  userChoices : gmap string (gmap string counter);
  userMessageRefs : gmap string MessageRef;
  monthlySettled : gmap string (gmap string bool);
  sheetIdCache : option Z;
  (** the rows of range [A:E] of the sheet, the header at position 0 *)
  ledger : list (list jsval);
  journal : list Event;
  tick : nat;
}.

Definition init_state : State := mkState ∅ ∅ ∅ None [] [] 0.

Definition set_userChoices (f : gmap string (gmap string counter) → gmap string (gmap string counter))
    (s : State) : State :=
  mkState (f (userChoices s)) (userMessageRefs s) (monthlySettled s)
    (sheetIdCache s) (ledger s) (journal s) (tick s).

Definition set_userMessageRefs (f : gmap string MessageRef → gmap string MessageRef)
    (s : State) : State :=
  mkState (userChoices s) (f (userMessageRefs s)) (monthlySettled s)
    (sheetIdCache s) (ledger s) (journal s) (tick s).

Definition set_monthlySettled (f : gmap string (gmap string bool) → gmap string (gmap string bool))
    (s : State) : State :=
  mkState (userChoices s) (userMessageRefs s) (f (monthlySettled s))
    (sheetIdCache s) (ledger s) (journal s) (tick s).

Definition set_sheetIdCache (c : option Z) (s : State) : State :=
  mkState (userChoices s) (userMessageRefs s) (monthlySettled s)
    c (ledger s) (journal s) (tick s).

Definition set_ledger (f : list (list jsval) → list (list jsval)) (s : State) : State :=
  mkState (userChoices s) (userMessageRefs s) (monthlySettled s)
    (sheetIdCache s) (f (ledger s)) (journal s) (tick s).

Definition emit (e : Event) (s : State) : State :=
  mkState (userChoices s) (userMessageRefs s) (monthlySettled s)
    (sheetIdCache s) (ledger s) (journal s ++ [e])%list (tick s).

Definition next_tick (s : State) : State :=
  mkState (userChoices s) (userMessageRefs s) (monthlySettled s)
    (sheetIdCache s) (ledger s) (journal s) (S (tick s)).

(** *** Asynchronous computations *)

Inductive outcome (A : Type) : Type :=
  | Returned (a : A)
  | Thrown (e : exn).
Arguments Returned {A} a.
Arguments Thrown {A} e.

Definition Async (A : Type) : Type := State → outcome A * State.

Definition ret {A} (a : A) : Async A := λ s, (Returned a, s).

Definition throw {A} (e : exn) : Async A := λ s, (Thrown e, s).

Definition bind {A B} (m : Async A) (k : A → Async B) : Async B :=
  λ s, match m s with
       | (Returned a, s') => k a s'
       | (Thrown e, s') => (Thrown e, s')
       end.

(** [try { m } catch (e) { h e }] *)
Definition try_catch {A} (m : Async A) (h : exn → Async A) : Async A :=
  λ s, match m s with
       | (Returned a, s') => (Returned a, s')
       | (Thrown e, s') => h e s'
       end.

Definition gets {A} (f : State → A) : Async A := λ s, (Returned (f s), s).

Definition modify (f : State → State) : Async unit := λ s, (Returned tt, f s).

Global Instance Async_ret : MRet Async := @ret.
Global Instance Async_bind : MBind Async := λ A B k m, bind m k.

Definition console_error (msg : string) (e : exn) : Async unit :=
  modify (emit (ConsoleError msg e)).

Section Program.
Context `{JsHost} (env : Env).

(** *** External requests *)

(** An external request takes a tick; it is rejected when the environment
    says so, with nothing done on the other side. *)
Definition request (api : Api) : Async unit :=
  λ s, if faults env (tick s)
       then (Thrown (ApiError api), next_tick s)
       else (Returned tt, next_tick s).

(** [new Date()] *)
Definition Date_now : Async Z := gets (λ s, clock env (tick s)).

(** [sheets.spreadsheets.values.get] on range [A:E], then [res.data.values || []] *)
Definition sheets_values_get : Async (list (list jsval)) :=
  request values_get;; gets ledger.

(** the same on range [A1:E1] *)
Definition sheets_values_get_first : Async (list (list jsval)) :=
  request values_get;; gets (λ s, take 1 (ledger s)).

(** [sheets.spreadsheets.values.update] of range [A1:E1] with one row *)
Definition sheets_values_update_first (row : list jsval) : Async unit :=
  request values_update;;
  modify (set_ledger (λ l, match l with [] => [row] | _ :: l' => row :: l' end)).

(** [sheets.spreadsheets.values.append]: the row goes after the last one *)
Definition sheets_values_append (row : list jsval) : Async unit :=
  request values_append;; modify (set_ledger (λ l, (l ++ [row])%list)).

(** [batchUpdate] with one [deleteDimension] of rows [startIndex, endIndex) *)
Definition sheets_deleteRows (sheetId startIndex endIndex : Z) : Async unit :=
  request batchUpdate;;
  modify (set_ledger (λ l, (take (Z.to_nat startIndex) l ++ drop (Z.to_nat endIndex) l)%list)).

(** [sheets.spreadsheets.get]: the sheets of the spreadsheet *)
Definition sheets_spreadsheets_get : Async (list (string * Z)) :=
  request sheets_get;; ret (sheets env).

(** [app.client.users.info]: rejected for an unknown user *)
Definition client_users_info (userId : string) : Async SlackUser :=
  request users_info;;
  match List.find (λ u, String.eqb (u_id u) userId) (members env) with
  | Some u => ret u
  | None => throw (ApiError users_info)
  end.

Definition client_users_list : Async (list SlackUser) :=
  request users_list;; ret (members env).

Definition client_conversations_open (userId : string) : Async string :=
  request conversations_open;; ret (dm_channel env userId).

(** [chat.postMessage]; the response carries the [ts] of the new message *)
Definition client_chat_postMessage (channel text : string) (blocks : Blocks) : Async string :=
  t ← gets tick;
  request chat_postMessage;;
  modify (emit (Posted channel text blocks (fresh_ts env t)));;
  ret (fresh_ts env t).

Definition client_chat_update (channel msg_ts text : string) (blocks : Blocks) : Async unit :=
  request chat_update;;
  modify (emit (Updated channel msg_ts text blocks)).

(** *** The functions of [app.js] *)

(** [getSheetId] past the test of the cache *)
Definition resolveSheetId : Async Z :=
  meta ← sheets_spreadsheets_get;
  match List.find (λ p, String.eqb (fst p) (sheetTitle env)) meta with
  | None => throw (SheetNotFound (sheetTitle env))
  | Some sheet => modify (set_sheetIdCache (Some (snd sheet)));; ret (snd sheet)
  end.

(** [if (sheetIdCache)] fails on [null] and on a cached [0]. *)
Definition getSheetId : Async Z :=
  cache ← gets sheetIdCache;
  match cache with
  | Some sid => if negb (sid =? 0)%Z then ret sid else resolveSheetId
  | None => resolveSheetId
  end.

Definition openDmChannel (userId : string) : Async string :=
  client_conversations_open userId.

(** [a || b] on strings *)
Definition or_else (a b : string) : string :=
  if String.eqb a "" then b else a.

Definition getUserDisplayName (userId : string) : Async string :=
  try_catch
    (info ← client_users_info userId;
     ret (or_else (u_display_name info)
            (or_else (u_real_name info) (or_else (u_name info) userId))))
    (λ _, ret userId).

Definition getUserMonthlySummary (userId : string) (date : Z) : Async Summary :=
  rows ← sheets_values_get;
  ret (monthly_summary_of rows userId date).

(** [!!(monthlySettled[monthKey] && monthlySettled[monthKey][userId])] *)
Definition isSettled (settled : gmap string (gmap string bool))
    (monthKey userId : string) : bool :=
  match settled !! monthKey with
  | Some flags => default false (flags !! userId)
  | None => false
  end.

Definition buildControlBlocks (userId : string) : Async Blocks :=
  label_date ← Date_now;
  let monthLabel := getCurrentMonthLabel label_date in
  date ← Date_now;
  summary ← getUserMonthlySummary userId date;
  key_date ← Date_now;
  let monthKey := getCurrentMonthKey key_date in
  settled ← gets monthlySettled;
  ret (mkBlocks monthLabel (coffee summary) (tea summary) (amount summary)
         (isSettled settled monthKey userId) (payUrl env)).

(** [record && record.ts && record.monthKey === monthKey]: the record to
    update, if the test passes *)
Definition reusable (record : option MessageRef) (monthKey : string) : option MessageRef :=
  match record with
  | Some r =>
      if negb (String.eqb (ref_ts r) "") && String.eqb (ref_monthKey r) monthKey
      then Some r else None
  | None => None
  end.

Definition sendOrUpdateControlMessage (userId : string) : Async unit :=
  label_date ← Date_now;
  let monthLabel := getCurrentMonthLabel label_date in
  key_date ← Date_now;
  let monthKey := getCurrentMonthKey key_date in
  blocks ← buildControlBlocks userId;
  refs ← gets userMessageRefs;
  channelId ←
    match refs !! userId with
    | Some r => if negb (String.eqb (ref_channelId r) "") then ret (ref_channelId r)
                else openDmChannel userId
    | None => openDmChannel userId
    end;
  record ← gets (λ s, userMessageRefs s !! userId);
  let text := "Your tally in " +:+ monthLabel in
  match reusable record monthKey with
  | Some r => client_chat_update channelId (ref_ts r) text blocks
  | None =>
      resp_ts ← client_chat_postMessage channelId text blocks;
      modify (set_userMessageRefs <[userId := mkRef channelId resp_ts monthKey]>)
  end.

Definition header : list jsval :=
  [JStr "UserID"; JStr "UserName"; JStr "Date"; JStr "Choice"; JStr "Price"].

(** [!c || `${c}`.trim() === ''] *)
Definition blank_cell (c : jsval) : bool :=
  negb (truthy c) || String.eqb (trim (to_string c)) "".

Definition ensureHeaderRow : Async unit :=
  rows ← sheets_values_get_first;
  let firstRow := default [] (rows !! 0%nat) in
  let isEmpty := (length firstRow =? 0)%nat || forallb blank_cell firstRow in
  if isEmpty then sheets_values_update_first header else ret tt.

(** *** Choices *)

Definition postincr (c : option counter) : counter :=
  match c with
  | Some (Count n) => Count (n + 1)
  | _ => NaN
  end.

(** [Math.max(0, c - 1)] *)
Definition decr_floor (c : option counter) : counter :=
  match c with
  | Some (Count n) => Count (Z.max 0 (n - 1))
  | _ => NaN
  end.

(** [obj[key] = v] on a plain object: the assignment of a number to
    [__proto__] is ignored. *)
Definition obj_set (key : string) (v : counter) (obj : gmap string counter)
    : gmap string counter :=
  if String.eqb key "__proto__" then obj else <[key := v]> obj.

(** [userChoices[userId][key] = f(userChoices[userId][key])]; reading a
    property of [undefined] throws. *)
Definition update_choice (userId key : string) (f : option counter → counter) : Async unit :=
  choices ← gets userChoices;
  match choices !! userId with
  | None => throw TypeError
  | Some obj =>
      modify (set_userChoices <[userId := obj_set key (f (obj !! key)) obj]>)
  end.

Definition fresh_counters : gmap string counter :=
  <["coffee" := Count 0]> (<["tea" := Count 0]> ∅).

Definition logChoice (userId choice : string) : Async unit :=
  choices ← gets userChoices;
  match choices !! userId with
  | None => modify (set_userChoices <[userId := fresh_counters]>)
  | Some _ => ret tt
  end;;
  update_choice userId choice postincr;;
  let price := if String.eqb choice "coffee" then coffeePrice env else teaPrice env in
  userName ← getUserDisplayName userId;
  ensureHeaderRow;;
  date ← Date_now;
  sheets_values_append
    [JStr userId; JStr userName; JStr (toISOString date); JStr choice; JNum price].

(** [for (let i = rows.length - 1; i >= 1; i--)] standing at index [i]:
    the index found, or [-1]. *)
Fixpoint find_last_from (rows : list (list jsval)) (userId : string) (i : nat) : Z :=
  match i with
  | O => -1
  | S j =>
      if strict_eq_str (cell (rows !!! i) 0) userId then Z.of_nat i
      else find_last_from rows userId j
  end.

Definition revokeLastChoice (userId : string) : Async unit :=
  rows ← sheets_values_get;
  let lastIndex := find_last_from rows userId (length rows - 1) in
  if (0 <? lastIndex)%Z then
    let lastChoice := cell (rows !!! Z.to_nat lastIndex) 3 in
    update_choice userId (to_string lastChoice) decr_floor;;
    sheetId ← getSheetId;
    sheets_deleteRows sheetId lastIndex (lastIndex + 1)
  else ret tt.

(** *** Handlers of the interactive components *)

(** [value] is [action.value] *)
Definition coffee_choice (userId value : string) : Async unit :=
  logChoice userId value;;
  sendOrUpdateControlMessage userId.

Definition tea_choice (userId value : string) : Async unit :=
  logChoice userId value;;
  sendOrUpdateControlMessage userId.

Definition revoke_choice (userId : string) : Async unit :=
  revokeLastChoice userId;;
  sendOrUpdateControlMessage userId.

(** [settled_toggle]; [selected_options] are the values of
    [action.selected_options], [None] when the field is absent *)
Definition settled_toggle (userId : string) (selected_options : option (list string))
    : Async unit :=
  date ← Date_now;
  let monthKey := getCurrentMonthKey date in
  modify (set_monthlySettled (λ m,
    match m !! monthKey with Some _ => m | None => <[monthKey := ∅]> m end));;
  let selected :=
    match selected_options with
    | Some opts => existsb (λ v, String.eqb v "settled") opts
    | None => false
    end in
  modify (set_monthlySettled (alter <[userId := selected]> monthKey));;
  sendOrUpdateControlMessage userId.

(** *** The monthly broadcast *)

(** [!u.is_bot && !u.deleted && u.id && u.id.startsWith('U')] *)
Definition eligible (u : SlackUser) : bool :=
  negb (u_is_bot u) && negb (u_deleted u) && negb (String.eqb (u_id u) "")
  && String.prefix "U" (u_id u).

Fixpoint broadcast_each (us : list SlackUser) : Async unit :=
  match us with
  | [] => ret tt
  | u :: us' =>
      try_catch (sendOrUpdateControlMessage (u_id u))
        (λ e, console_error ("Failed to DM " +:+ u_id u +:+ ":") e);;
      broadcast_each us'
  end.

Definition broadcastForCurrentMonth : Async unit :=
  try_catch
    (usersResp ← client_users_list;
     broadcast_each (List.filter eligible usersResp))
    (λ e, console_error "Monthly broadcast failed:" e).

End Program.

(** *** The slash command [/coffee_tea] *)

Section SlashCommand.
Context `{JsHost} (env : Env).

(** The handler past its [ack].  [respond] is the utility Bolt hands to the
    handler, applied to the text and the blocks of the fallback. *)
Definition coffee_tea_command (respond : string → Blocks → Async unit)
    (userId : string) : Async unit :=
  choices ← gets userChoices;
  match choices !! userId with
  | None => modify (set_userChoices <[userId := fresh_counters]>)
  | Some _ => ret tt
  end;;
  try_catch (sendOrUpdateControlMessage env userId)
    (λ error,
       console_error "Failed to send or update DM control message:" error;;
       try_catch
         (blocks ← buildControlBlocks env userId;
          respond "Could not DM you, showing controls here instead." blocks)
         (λ e2, console_error "Also failed to send ephemeral fallback:" e2)).

End SlashCommand.

(** ** A host for the examples

    Time zone UTC; dates in the ISO-8601 form that [toISOString] prints (or
    the date alone); numbers with a short decimal expansion.  The examples
    and the concrete runs below use no other input. *)

Module UTC.

Definition ms_per_day : Z := 86400000.

(** Day number (days since 1970-01-01) of a civil date, and back. *)
Definition days_from_civil (y m d : Z) : Z :=
  let y := if m <=? 2 then y - 1 else y in
  let era := y / 400 in
  let yoe := y - era * 400 in
  let doy := (153 * (if 2 <? m then m - 3 else m + 9) + 2) / 5 + d - 1 in
  let doe := yoe * 365 + yoe / 4 - yoe / 100 + doy in
  era * 146097 + doe - 719468.

Definition civil_from_days (z : Z) : Z * Z * Z :=
  let z := z + 719468 in
  let era := z / 146097 in
  let doe := z - era * 146097 in
  let yoe := (doe - doe / 1460 + doe / 36524 - doe / 146096) / 365 in
  let doy := doe - (365 * yoe + yoe / 4 - yoe / 100) in
  let mp := (5 * doy + 2) / 153 in
  let d := doy - (153 * mp + 2) / 5 + 1 in
  let m := if mp <? 10 then mp + 3 else mp - 9 in
  (if m <=? 2 then yoe + era * 400 + 1 else yoe + era * 400, m, d).

Definition year_of (t : Z) : Z := fst (fst (civil_from_days (t / ms_per_day))).
Definition month_of (t : Z) : Z := snd (fst (civil_from_days (t / ms_per_day))) - 1.
Definition day_of (t : Z) : Z := snd (civil_from_days (t / ms_per_day)).

Definition pad (n : nat) (z : Z) : string := padStart n "0" (pretty z).

Definition iso_string (t : Z) : string :=
  let r := t mod ms_per_day in
  pad 4 (year_of t) +:+ "-" +:+ pad 2 (month_of t + 1) +:+ "-" +:+ pad 2 (day_of t)
  +:+ "T" +:+ pad 2 (r / 3600000) +:+ ":" +:+ pad 2 (r / 60000 mod 60)
  +:+ ":" +:+ pad 2 (r / 1000 mod 60) +:+ "." +:+ pad 3 (r mod 1000) +:+ "Z".

Definition digit_of (a : ascii) : option Z :=
  let n := Z.of_nat (Ascii.nat_of_ascii a) in
  if (48 <=? n) && (n <=? 57) then Some (n - 48) else None.

(** The number a non-empty string of decimal digits denotes. *)
Fixpoint digits_from (acc : Z) (s : string) : option Z :=
  match s with
  | EmptyString => Some acc
  | String a s' =>
      match digit_of a with
      | Some d => digits_from (10 * acc + d) s'
      | None => None
      end
  end.

Definition digits (s : string) : option Z :=
  if String.eqb s "" then None else digits_from 0 s.

Definition days_in_month (y m : Z) : Z :=
  days_from_civil (if m =? 12 then y + 1 else y) (if m =? 12 then 1 else m + 1) 1
  - days_from_civil y m 1.

Definition parse_date (s : string) : option Z :=
  y ← digits (String.substring 0 4 s);
  m ← digits (String.substring 5 2 s);
  d ← digits (String.substring 8 2 s);
  if negb (String.eqb (String.substring 4 1 s) "-" && String.eqb (String.substring 7 1 s) "-"
           && (1 <=? m) && (m <=? 12) && (1 <=? d) && (d <=? days_in_month y m))
  then None
  else if (String.length s =? 10)%nat then Some (days_from_civil y m d * ms_per_day)
  else
    hh ← digits (String.substring 11 2 s);
    mm ← digits (String.substring 14 2 s);
    ss ← digits (String.substring 17 2 s);
    ms ← digits (String.substring 20 3 s);
    if (String.length s =? 24)%nat
       && String.eqb (String.substring 10 1 s) "T" && String.eqb (String.substring 13 1 s) ":"
       && String.eqb (String.substring 16 1 s) ":" && String.eqb (String.substring 19 1 s) "."
       && String.eqb (String.substring 23 1 s) "Z"
       && (hh <? 24) && (mm <? 60) && (ss <? 60)
    then Some (days_from_civil y m d * ms_per_day + hh * 3600000 + mm * 60000 + ss * 1000 + ms)
    else None.

Definition float_of_Z (z : Z) : float :=
  match z with
  | Z0 => 0%float
  | Zpos _ => PrimFloat.of_uint63 (Uint63.of_Z z)
  | Zneg p => (- PrimFloat.of_uint63 (Uint63.of_Z (Zpos p)))%float
  end.

(** The integer part of a finite number. *)
Definition trunc (x : float) : option Z :=
  match Prim2SF x with
  | S754_zero _ => Some 0
  | S754_finite sign m e =>
      let a := if 0 <=? e then Zpos m * 2 ^ e else Zpos m / 2 ^ (- e) in
      Some (if sign then - a else a)
  | _ => None
  end.

Definition date_new (v : jsval) : option Z :=
  match v with
  | JUndef => None
  | JStr s => parse_date s
  | JNum x =>
      t ← trunc x;
      if (Z.abs t <=? 8640000000000000) then Some t else None
  end.

(** The longest prefix of decimal digits, and the rest. *)
Fixpoint span_digits (s : string) : string * string :=
  match s with
  | String a s' =>
      match digit_of a with
      | Some _ => let '(l, r) := span_digits s' in (String a l, r)
      | None => (EmptyString, s)
      end
  | EmptyString => (EmptyString, EmptyString)
  end.

(** Decimal literals [digits] and [digits.digits] with an optional sign,
    after leading blanks; what follows the literal is ignored. *)
Definition parse_float (s : string) : float :=
  let s := trim_start s in
  let '(neg, s) :=
    match s with
    | String "-" s' => (true, s')
    | String "+" s' => (false, s')
    | _ => (false, s)
    end in
  let '(ip, rest) := span_digits s in
  let fp := match rest with String "." r => fst (span_digits r) | _ => EmptyString end in
  if String.eqb (ip +:+ fp) "" then PrimFloat.nan
  else
    let mant := default 0 (digits_from 0 (ip +:+ fp)) in
    let x := (float_of_Z mant / float_of_Z (10 ^ Z.of_nat (String.length fp)))%float in
    if neg then (- x)%float else x.

(** Scale by powers of ten until the number is an integer (six places at
    most). *)
Fixpoint decimal_places (fuel : nat) (x : float) (k : Z) : option (Z * Z) :=
  match trunc (x * float_of_Z (10 ^ k))%float with
  | None => None
  | Some n =>
      if PrimFloat.eqb (float_of_Z n) (x * float_of_Z (10 ^ k))%float then Some (n, k)
      else match fuel with
           | O => None
           | S fuel' => decimal_places fuel' x (k + 1)
           end
  end.

Definition number_to_string (x : float) : string :=
  if PrimFloat.is_nan x then "NaN"
  else match decimal_places 6 x 0 with
       | Some (n, k) =>
           let a := Z.abs n in
           (if n <? 0 then "-" else "") +:+ pretty (a / 10 ^ k)
           +:+ (if k =? 0 then "" else "." +:+ pad (Z.to_nat k) (a mod 10 ^ k))
       | None => if PrimFloat.ltb x 0%float then "-Infinity" else "Infinity"
       end.

Definition month_names : list string :=
  ["January"; "February"; "March"; "April"; "May"; "June"; "July";
   "August"; "September"; "October"; "November"; "December"].

Definition month_year (t : Z) : string :=
  month_names !!! Z.to_nat (month_of t) +:+ " " +:+ pretty (year_of t).

Definition host : JsHost := {|
  parseFloat := parse_float;
  Number_toString := number_to_string;
  Date_new := date_new;
  getFullYear := year_of;
  getMonth := month_of;
  toISOString := iso_string;
  toLocaleMonthYear := month_year;
|}.

End UTC.

(** ** The monthly summary as the specification words it

    The rows counted for a user and a reference date are the rows past the
    header whose user identifier is the user's and whose date parses and
    falls in the year and month of the reference date. *)

Section SummarySpec.
Context `{JsHost}.

Definition in_month (date : Z) (row : list jsval) : bool :=
  match Date_new (cell row 2) with
  | Some d => (getFullYear d =? getFullYear date) && (getMonth d =? getMonth date)
  | None => false
  end.

Definition counted (userId : string) (date : Z) (row : list jsval) : bool :=
  strict_eq_str (cell row 0) userId && in_month date row.

Definition counted_rows (rows : list (list jsval)) (userId : string) (date : Z)
    : list (list jsval) :=
  List.filter (counted userId date) (drop 1 rows).

Definition of_kind (kind : string) (row : list jsval) : bool :=
  strict_eq_str (cell row 3) kind.

Definition count_kind (kind : string) (rows : list (list jsval)) : Z :=
  Z.of_nat (length (List.filter (of_kind kind) rows)).

(** Prices are added in the order of the rows, from [0]. *)
Definition sum_prices (start : float) (rows : list (list jsval)) : float :=
  foldl (λ a row, (a + parse_price (cell row 4))%float) start rows.

Definition monthly_summary_spec (rows : list (list jsval)) (userId : string)
    (date : Z) : Summary :=
  let cs := counted_rows rows userId date in
  mkSummary (count_kind "coffee" cs) (count_kind "tea" cs) (sum_prices 0%float cs).

End SummarySpec.

(** ** Vocabulary of the properties *)

(** No external request is rejected. *)
Definition no_faults (env : Env) : Prop := ∀ n, faults env n = false.

(** The spreadsheet has a sheet with the configured title. *)
Definition sheet_exists (env : Env) : Prop :=
  is_Some (List.find (λ p, String.eqb (fst p) (sheetTitle env)) (sheets env)).

(** The row carries the user identifier. *)
Definition row_of (userId : string) (row : list jsval) : bool :=
  strict_eq_str (cell row 0) userId.

(** Position [j] holds the most recent row of the user: a data row of the
    user with no row of the user after it. *)
Definition last_row_of (userId : string) (l : list (list jsval)) (j : nat)
    (row : list jsval) : Prop :=
  (1 ≤ j)%nat ∧ l !! j = Some row ∧ row_of userId row = true
  ∧ ∀ j' row', (j < j')%nat → l !! j' = Some row' → row_of userId row' = false.

(** The user has no data row. *)
Definition no_rows_of (userId : string) (l : list (list jsval)) : Prop :=
  ∀ j row, (1 ≤ j)%nat → l !! j = Some row → row_of userId row = false.

(** The ledger without the row at position [j]. *)
Definition without_row (j : nat) (l : list (list jsval)) : list (list jsval) :=
  (take j l ++ drop (S j) l)%list.

(** The first row is missing or blank, and what [ensureHeaderRow] makes of
    the ledger then. *)
Definition header_missing `{JsHost} (l : list (list jsval)) : bool :=
  let firstRow := default [] (take 1 l !! 0%nat) in
  (length firstRow =? 0)%nat || forallb blank_cell firstRow.

Definition put_header (l : list (list jsval)) : list (list jsval) :=
  match l with [] => [header] | _ :: l' => header :: l' end.

(** Number of rows of the ledger with the user's identifier and the kind. *)
Definition rows_of_kind (userId kind : string) (l : list (list jsval)) : Z :=
  Z.of_nat (length (List.filter (λ row, row_of userId row && of_kind kind row) l)).

(** The counter of a kind of a user, if any. *)
Definition counter_of (s : State) (userId kind : string) : option counter :=
  userChoices s !! userId ≫= λ obj, obj !! kind.

(** The in-memory counter of the kind agrees with the ledger.  Counters are
    created on the first choice; before that the user has no row. *)
Definition counter_agrees (userId kind : string) (s : State) : Prop :=
  match userChoices s !! userId with
  | Some obj => obj !! kind = Some (Count (rows_of_kind userId kind (ledger s)))
  | None => rows_of_kind userId kind (ledger s) = 0
  end.

(** The price [logChoice] writes. *)
Definition price_of (env : Env) (choice : string) : float :=
  if String.eqb choice "coffee" then coffeePrice env else teaPrice env.

(** A row as [logChoice] appends it for the user. *)
Definition user_row (userId : string) (row : list jsval) : Prop :=
  ∃ name iso kind price, row = [JStr userId; JStr name; JStr iso; JStr kind; JNum price].

(** Either nothing happened yet, or the ledger is the header followed by
    rows of the user and the counters count them. *)
Definition tally_inv (userId : string) (s : State) : Prop :=
  (ledger s = [] ∧ userChoices s !! userId = None)
  ∨ ∃ data obj, ledger s = header :: data ∧ Forall (user_row userId) data
      ∧ userChoices s !! userId = Some obj
      ∧ ∀ kind, kind = "coffee" ∨ kind = "tea" →
          obj !! kind = Some (Count (rows_of_kind userId kind data)).

(** Calls of one user, one after the other; a call that throws leaves the
    state it reached. *)
Inductive call : Type :=
  | recordChoice (kind : string)
  | undoLastChoice.

Definition is_message_on (channel : string) (ev : Event) : Prop :=
  match ev with
  | Posted c _ _ _ => c = channel
  | Updated c _ _ _ => c = channel
  | ConsoleError _ _ => False
  end.

Section Calls.
Context `{JsHost} (env : Env).

Definition call_outcome (userId : string) (s : State) (c : call) : outcome unit * State :=
  match c with
  | recordChoice kind => logChoice env userId kind s
  | undoLastChoice => revokeLastChoice env userId s
  end.

Definition run_call (userId : string) (s : State) (c : call) : State :=
  snd (call_outcome userId s c).

(** Every call of the sequence returns (none throws). *)
Fixpoint all_return (userId : string) (calls : list call) (s : State) : Prop :=
  match calls with
  | [] => True
  | c :: calls' =>
      ∃ s', call_outcome userId s c = (Returned tt, s') ∧ all_return userId calls' s'
  end.

Definition run_calls (userId : string) (calls : list call) (s : State) : State :=
  foldl (run_call userId) s calls.

(** The channel a control message of the user goes to. *)
Definition channel_of (s : State) (userId : string) : string :=
  match userMessageRefs s !! userId with
  | Some r => or_else (ref_channelId r) (dm_channel env userId)
  | None => dm_channel env userId
  end.

(** What one invocation of the reconciler leaves behind: on return, one
    update of the recorded message if the test of the record passed, else
    one new message and its reference; on a throw, nothing. *)
Definition reconciled (userId : string) (s : State) (r : outcome unit * State) : Prop :=
  let monthKey := getCurrentMonthKey (clock env (tick s)) in
  let channel := channel_of s userId in
  match fst r with
  | Returned _ =>
      match reusable (userMessageRefs s !! userId) monthKey with
      | Some rec =>
          (∃ text blocks,
             journal (snd r) = (journal s ++ [Updated channel (ref_ts rec) text blocks])%list)
          ∧ userMessageRefs (snd r) = userMessageRefs s
      | None =>
          ∃ text blocks new_ts,
            journal (snd r) = (journal s ++ [Posted channel text blocks new_ts])%list
            ∧ userMessageRefs (snd r)
              = <[userId := mkRef channel new_ts monthKey]> (userMessageRefs s)
      end
  | Thrown _ => journal (snd r) = journal s ∧ userMessageRefs (snd r) = userMessageRefs s
  end.

(** The broadcast got a message through to the member, or logged that it
    could not. *)
Definition delivered_or_logged (s : State) (u : SlackUser) (ev : Event) : Prop :=
  is_message_on (channel_of s (u_id u)) ev
  ∨ ∃ e, ev = ConsoleError ("Failed to DM " +:+ u_id u +:+ ":") e.

End Calls.

Definition is_message (ev : Event) : bool :=
  match ev with
  | Posted _ _ _ _ | Updated _ _ _ _ => true
  | ConsoleError _ _ => false
  end.

Definition is_failure (ev : Event) : bool :=
  match ev with
  | ConsoleError _ _ => true
  | _ => false
  end.

(** [steps R m]: from any state, [m] ends (returning or throwing) in a
    state related by [R] to the one it started from. *)
Definition steps {A} (R : relation State) (m : Async A) : Prop :=
  ∀ s, R s (snd (m s)).

(** A state component [f] is kept when it reads the same before and after. *)
Definition kept {A} (f : State → A) : relation State := λ s s', f s' = f s.

(** Every recorded reference carries a message timestamp; and a step
    that leaves it so. *)
Definition refs_timed (refs : gmap string MessageRef) : Prop :=
  ∀ userId rec, refs !! userId = Some rec → ref_ts rec ≠ "".

Definition keeps_timed : relation State :=
  λ s s', refs_timed (userMessageRefs s) → refs_timed (userMessageRefs s').

(** The flag stored for a month key and a user, if any. *)
Definition flag_of (settled : gmap string (gmap string bool))
    (monthKey userId : string) : option bool :=
  settled !! monthKey ≫= λ flags, flags !! userId.

(** ** Vocabulary of the properties of several users, of the messages and
    of the tally *)

(** A row as [logChoice] writes it, for some user. *)
Definition written (row : list jsval) : Prop := ∃ u, user_row u row.

(** Nothing happened yet, or the header is in place, every data row was
    written by [logChoice], and the counters of every user count the rows of
    that user; a user without counters has no row. *)
Definition ledger_inv (s : State) : Prop :=
  (ledger s = [] ∧ userChoices s = ∅)
  ∨ ∃ data, ledger s = header :: data ∧ Forall written data
      ∧ ∀ u, match userChoices s !! u with
             | Some obj => ∀ kind, kind = "coffee" ∨ kind = "tea" →
                             obj !! kind = Some (Count (rows_of_kind u kind data))
             | None => Forall (λ row, row_of u row = false) data
             end.

Section UserCalls.
Context `{JsHost} (env : Env).

(** Calls of several users, one after the other: every call returns. *)
Fixpoint all_users_return (calls : list (string * call)) (s : State) : Prop :=
  match calls with
  | [] => True
  | (u, c) :: calls' =>
      ∃ s', call_outcome env u s c = (Returned tt, s') ∧ all_users_return calls' s'
  end.

Definition run_user_calls (calls : list (string * call)) (s : State) : State :=
  foldl (λ s uc, run_call env (fst uc) s (snd uc)) s calls.

End UserCalls.

(** The blocks and the text of a message. *)
Definition blocks_of (ev : Event) : option Blocks :=
  match ev with
  | Posted _ _ blocks _ => Some blocks
  | Updated _ _ _ blocks => Some blocks
  | ConsoleError _ _ => None
  end.

Definition text_of (ev : Event) : option string :=
  match ev with
  | Posted _ text _ _ => Some text
  | Updated _ _ text _ => Some text
  | ConsoleError _ _ => None
  end.

(** The event is the message with timestamp [ts] on [channel], new or
    updated. *)
Definition addresses (channel ts : string) (ev : Event) : Prop :=
  match ev with
  | Posted c _ _ t => c = channel ∧ t = ts
  | Updated c t _ _ => c = channel ∧ t = ts
  | ConsoleError _ _ => False
  end.

(** The event is the update of a message. *)
Definition is_update (ev : Event) : bool :=
  match ev with
  | Updated _ _ _ _ => true
  | _ => false
  end.

(** The user has a reference with a timestamp and the month key. *)
Definition has_live_message (monthKey : string) (refs : gmap string MessageRef)
    (userId : string) : Prop :=
  ∃ rec, refs !! userId = Some rec ∧ ref_ts rec ≠ "" ∧ ref_monthKey rec = monthKey.

Section Rendering.
Context `{JsHost} (env : Env).

(** What a control message built from state [s] shows: the month of the
    clock, the monthly summary of the ledger for the user at that date, the
    settlement flag under the month key read one request later, and the
    payment link. *)
Definition rendering (userId : string) (s : State) : Blocks :=
  let now := clock env (tick s) in
  let summary := monthly_summary_spec (ledger s) userId now in
  mkBlocks (getCurrentMonthLabel now) (coffee summary) (tea summary) (amount summary)
    (isSettled (monthlySettled s) (getCurrentMonthKey (clock env (S (tick s)))) userId)
    (payUrl env).

(** What a returning invocation of the reconciler has sent and recorded. *)
Definition sent (userId : string) (s s' : State) : Prop :=
  let now := clock env (tick s) in
  let monthKey := getCurrentMonthKey now in
  let text := "Your tally in " +:+ getCurrentMonthLabel now in
  let channel := channel_of env s userId in
  match reusable (userMessageRefs s !! userId) monthKey with
  | Some rec =>
      journal s'
      = (journal s ++ [Updated channel (ref_ts rec) text (rendering userId s)])%list
      ∧ userMessageRefs s' = userMessageRefs s
  | None =>
      ∃ t, journal s'
           = (journal s ++ [Posted channel text (rendering userId s) (fresh_ts env t)])%list
           ∧ userMessageRefs s'
             = <[userId := mkRef channel (fresh_ts env t) monthKey]> (userMessageRefs s)
  end.

End Rendering.

(** The state in which [/coffee_tea] has made sure the user has counters. *)
Definition with_counters_of (userId : string) (s : State) : State :=
  match userChoices s !! userId with
  | None => set_userChoices <[userId := fresh_counters]> s
  | Some _ => s
  end.

Section TallySpec.
Context `{JsHost}.

(** The property keys a row stands for in the tally: its user and its
    kind. *)
Definition tally_key (row : list jsval) : string := to_string (cell row 0).

Definition tally_kind (row : list jsval) : string := to_string (cell row 3).

(** The data rows filed under a key, and how many of some rows have a
    kind. *)
Definition tally_rows (key : string) (rows : list (list jsval)) : list (list jsval) :=
  List.filter (λ row, String.eqb (tally_key row) key) (drop 1 rows).

Definition rows_with_kind (kind : string) (rows : list (list jsval)) : Z :=
  Z.of_nat (length (List.filter (λ row, String.eqb (tally_kind row) kind) rows)).

(** What one row adds to the entry of its user. *)
Definition tally_add (e : Summary) (row : list jsval) : Summary :=
  let e := tally_bump (tally_kind row) e in
  mkSummary (coffee e) (tea e) (amount e + parse_price (cell row 4))%float.

(** No row past the first has a user cell whose key is found in
    [Object.prototype]. *)
Definition plain_keys (rows : list (list jsval)) : bool :=
  forallb (λ row, negb (inherited (tally_key row))) (drop 1 rows).

End TallySpec.

(** ** The commands [/monthly_tally] and [/coffee_clear_dm]

    Both only read: the first the ledger, the second the history of a
    conversation.  What they do to the chat platform is kept in a log of
    its own.  As before every request takes a tick and the world decides
    which requests are rejected; it also decides which page of a history
    it answers a request with. *)

Module Commands.

(** A message of a history; an absent [user] is the empty string. *)
Record Message : Type := mkMessage {
  msg_user : string;
  msg_ts : string;
}.

(** A page of [conversations.history]; [page_cursor] is
    [response_metadata.next_cursor], empty when absent. *)
Record Page : Type := mkPage {
  page_messages : list Message;
  page_cursor : string;
}.

(** What a rejected request throws: [e.data.error] and [e.message], each
    the empty string when absent. *)
Record Failure : Type := mkFailure {
  data_error : string;
  message : string;
}.

Record World : Type := mkWorld {
  (** the rows of range [A:E] *)
  sheet_rows : list (list jsval);
  pay_link : string;
  (** the direct channel [conversations.open] yields for a user *)
  dm_of : string → string;
  (** the page a request for history made at a tick is answered with *)
  history_at : nat → Page;
  (** the request made at a tick is rejected with this *)
  failure_at : nat → option Failure;
}.

(** What reaches the platform: the bill posted to a user, with its two
    counts and its total (the layout is left out), the deletion of a
    message, and the text handed to [respond]. *)
Inductive Effect : Type :=
  | Billed (channel : string) (coffees teas : Z) (total : float) (pay : string)
  | Deleted (channel ts : string)
  | Responded (text : string).

Record Run : Type := mkRun {
  now : nat;
  effects : list Effect;
}.

Inductive result (A : Type) : Type :=
  | Done (a : A)
  | Failed (e : Failure).
Arguments Done {A} a.
Arguments Failed {A} e.

Definition Io (A : Type) : Type := Run → result A * Run.

Definition io_ret {A} (a : A) : Io A := λ r, (Done a, r).

Definition io_bind {A B} (m : Io A) (k : A → Io B) : Io B :=
  λ r, match m r with
       | (Done a, r') => k a r'
       | (Failed e, r') => (Failed e, r')
       end.

(** [try { m } catch (e) { h e }] *)
Definition attempt {A} (m : Io A) (h : Failure → Io A) : Io A :=
  λ r, match m r with
       | (Done a, r') => (Done a, r')
       | (Failed e, r') => h e r'
       end.

Global Instance Io_ret : MRet Io := @io_ret.
Global Instance Io_bind : MBind Io := λ A B k m, io_bind m k.

Section Handlers.
Context `{JsHost} (w : World).

(** A request to the platform or to the spreadsheet: it takes a tick; when
    it goes through it has its effect and is answered. *)
Definition call {A} (answer : nat → A) (effect : list Effect) : Io A :=
  λ r, match failure_at w (now r) with
       | Some e => (Failed e, mkRun (S (now r)) (effects r))
       | None => (Done (answer (now r)), mkRun (S (now r)) (effects r ++ effect)%list)
       end.

Definition values_get : Io (list (list jsval)) := call (λ _, sheet_rows w) [].

Definition chat_postMessage (channel : string) (e : Summary) : Io unit :=
  call (λ _, tt) [Billed channel (coffee e) (tea e) (amount e) (pay_link w)].

Definition conversations_open (userId : string) : Io string :=
  call (λ _, dm_of w userId) [].

Definition conversations_history (channel : string) (cursor : option string) : Io Page :=
  call (history_at w) [].

Definition chat_delete (channel ts : string) : Io unit :=
  call (λ _, tt) [Deleted channel ts].

(** Bolt's [respond] with an ephemeral text *)
Definition respond (text : string) : Io unit := call (λ _, tt) [Responded text].

(** *** [/monthly_tally] *)

(** The array index a property key is, if it is one: a decimal numeral
    without leading zeros below [2^32 - 1]. *)
Definition array_index (key : string) : option Z :=
  n ← UTC.digits key;
  if String.eqb (pretty n) key && (n <? 2 ^ 32 - 1) then Some n else None.

Definition is_array_index (key : string) : bool :=
  match array_index key with
  | Some _ => true
  | None => false
  end.

(** The keys of an object in the order of [for ... in], from the keys in
    the order the properties were created: array indices first, in
    ascending order, then the other keys as created. *)
Definition for_in_order (created : list string) : list string :=
  let keys := reverse (remove_dups (reverse created)) in
  (pretty <$> merge_sort Z.le (omap array_index keys))
  ++ List.filter (λ key, negb (is_array_index key)) keys.

(** [for (const userId in summary) { ... postMessage ... }] *)
Fixpoint bill_each (summary : gmap string Summary) (keys : list string) : Io unit :=
  match keys with
  | [] => mret tt
  | userId :: keys' =>
      match summary !! userId with
      | Some e => chat_postMessage userId e
      | None => mret tt
      end;;
      bill_each summary keys'
  end.

(** The handler past its [ack].  The keys of [for ... in] are those of the
    properties [summary] has of its own: [Object.prototype] has no
    enumerable property unless the callback put one there.  [None] when
    the callback reached a built-in; the posting loop is not followed
    then. *)
Definition monthly_tally_command : Io (option unit) :=
  rows ← values_get;
  match monthly_tally_summary rows with
  | Some summary =>
      bill_each summary (for_in_order (tally_key <$> drop 1 rows));;
      mret (Some tt)
  | None => mret None
  end.

(** *** [/coffee_clear_dm] *)

(** [!!(msg.user && botUserId && msg.user === botUserId)]; [botUserId] is
    [None] when it is [null]. *)
Definition is_own (botUserId : option string) (msg : Message) : bool :=
  match botUserId with
  | Some bot =>
      negb (String.eqb (msg_user msg) "") && negb (String.eqb bot "")
      && String.eqb (msg_user msg) bot
  | None => false
  end.

(** [for (const msg of history.messages || []) { ... }] *)
Fixpoint delete_own (botUserId : option string) (channelId : string)
    (msgs : list Message) (totalDeleted : nat) : Io nat :=
  match msgs with
  | [] => mret totalDeleted
  | msg :: msgs' =>
      if negb (is_own botUserId msg) then delete_own botUserId channelId msgs' totalDeleted
      else
        totalDeleted ←
          attempt (chat_delete channelId (msg_ts msg);; mret (S totalDeleted))
            (λ _, mret totalDeleted);
        delete_own botUserId channelId msgs' totalDeleted
  end.

(** [do { ... } while (cursor)] with at most [fuel] iterations; [None] when
    they do not suffice. *)
Fixpoint clear_pages (fuel : nat) (botUserId : option string) (channelId : string)
    (cursor : option string) (totalDeleted : nat) : Io (option nat) :=
  match fuel with
  | O => mret None
  | S fuel' =>
      history ← conversations_history channelId cursor;
      totalDeleted ← delete_own botUserId channelId (page_messages history) totalDeleted;
      if String.eqb (page_cursor history) "" then mret (Some totalDeleted)
      else clear_pages fuel' botUserId channelId (Some (page_cursor history)) totalDeleted
  end.

Definition deleted_text (totalDeleted : nat) : string :=
  "Deleted " +:+ pretty totalDeleted +:+ " prior bot message(s) in our DM.".

(** [(e && e.data && e.data.error) ? e.data.error
     : (e && e.message ? e.message : 'unknown_error')] *)
Definition detail_of (e : Failure) : string :=
  if negb (String.eqb (data_error e) "") then data_error e
  else if negb (String.eqb (message e) "") then message e
  else "unknown_error".

Definition failed_text (e : Failure) : string :=
  "Could not clear DM messages. Ensure scopes: im:history, im:write, chat:write "
  +:+ "and the app is reinstalled. Error: " +:+ detail_of e.

(** The handler past its [ack]; [None] when the loop ran out of
    iterations. *)
Definition coffee_clear_dm_command (fuel : nat) (botUserId : option string)
    (userId : string) : Io (option unit) :=
  attempt
    (channelId ← conversations_open userId;
     totalDeleted ← clear_pages fuel botUserId channelId None 0;
     match totalDeleted with
     | Some n => respond (deleted_text n);; mret (Some tt)
     | None => mret None
     end)
    (λ e, respond (failed_text e);; mret (Some tt)).

End Handlers.

End Commands.

(** The bill of a key of the tally. *)
Definition bill_of (w : Commands.World) (summary : gmap string Summary)
    (key : string) : option Commands.Effect :=
  e ← summary !! key;
  Some (Commands.Billed key (coffee e) (tea e) (amount e) (Commands.pay_link w)).

(** No request is rejected. *)
Definition all_accepted (w : Commands.World) : Prop :=
  ∀ n, Commands.failure_at w n = None.

(** The deletion of a message of the bot that some page of the history
    showed. *)
Definition own_deletion (w : Commands.World) (botUserId : option string)
    (channel : string) (d : Commands.Effect) : Prop :=
  ∃ t msg, msg ∈ Commands.page_messages (Commands.history_at w t)
           ∧ Commands.is_own botUserId msg = true
           ∧ d = Commands.Deleted channel (Commands.msg_ts msg).

(** The deletions of the messages of the bot among some messages. *)
Definition deletions_of (botUserId : option string) (channel : string)
    (msgs : list Commands.Message) : list Commands.Effect :=
  (λ msg, Commands.Deleted channel (Commands.msg_ts msg))
    <$> List.filter (Commands.is_own botUserId) msgs.


(** ** Environments of the examples: May 2024, one second per tick *)

Definition noon_10_may_2024 : Z := 1715342400000.

Definition directory : list SlackUser :=
  [ mkUser "U1" false false "alice" "Alice" "Alice A";
    mkUser "B1" true false "coffeebot" "" "Coffee Bot";
    mkUser "U2" false false "bob" "" "Bob B";
    mkUser "U3" false true "carol" "Carol" "";
    mkUser "U4" false false "dan" "" "" ].

Definition example_with (clock : nat → Z) (rejected : nat → bool)
    (sheets : list (string * Z)) : Env :=
  mkEnv 2 1.5 "https://paypal.me/youraccount" "Sheet1" clock rejected
    directory sheets (λ u, "D" +:+ u) (λ n, "17153424." +:+ pretty n).

Definition example_env (rejected : nat → bool) : Env :=
  example_with (λ n, noon_10_may_2024 + 1000 * Z.of_nat n) rejected [("Sheet1", 0)].

(** The same with a clock that stands still. *)
Definition frozen_env (rejected : nat → bool) : Env :=
  example_with (λ _, noon_10_may_2024) rejected [("Sheet1", 0)].

Definition never : nat → bool := λ _, false.

Definition only_at (k : nat) : nat → bool := λ n, (n =? k)%nat.

(** A fresh process in front of a ledger with the given rows, and one that
    has counters for a user. *)
Definition restarted (rows : list (list jsval)) : State :=
  mkState ∅ ∅ ∅ None rows [] 0.

Definition with_counters (userId : string) (rows : list (list jsval)) : State :=
  mkState {[ userId := fresh_counters ]} ∅ ∅ None rows [] 0.

Definition row_on (userId date kind : string) (price : float) : list jsval :=
  [JStr userId; JStr "Alice"; JStr date; JStr kind; JNum price].

(** A ledger whose only data row is a water of [U1]. *)
Definition water_ledger : list (list jsval) :=
  [header; row_on "U1" "2024-05-10T12:00:00.000Z" "water" 1.5].

(** The ledger of the example: a coffee in April, a tea in May. *)
Definition two_months : list (list jsval) :=
  [header; row_on "U1" "2024-04-30T10:00:00.000Z" "coffee" 2;
   row_on "U1" "2024-05-02T09:00:00.000Z" "tea" 1.5].


(** The directory of the examples has three eligible members, [U1], [U2]
    and [U4].  When the post to [U2] (the request at tick 6) is rejected,
    the broadcast returns, [U1] and [U4] get their message, and one
    failure is logged, that of [U2]. *)
Definition one_of_three_fails : Prop :=
  let r := @broadcastForCurrentMonth UTC.host (example_env (only_at 6)) init_state in
  List.map u_id (List.filter eligible directory) = ["U1"; "U2"; "U4"]
  ∧ fst r = Returned tt
  ∧ ∃ text1 blocks1 ts1 text4 blocks4 ts4,
      journal (snd r)
      = [Posted "DU1" text1 blocks1 ts1;
         ConsoleError "Failed to DM U2:" (ApiError chat_postMessage);
         Posted "DU4" text4 blocks4 ts4].

(** A spreadsheet in which the sheet of the configured title is the second
    one and has identifier 7. *)
Definition second_sheet_env : Env :=
  example_with (λ _, noon_10_may_2024) never [("Notes", 3); ("Sheet1", 7)].

(** A ledger with a coffee of [U1] and a tea of [U2], both of May 2024. *)
Definition shared_ledger : list (list jsval) :=
  [header;
   row_on "U1" "2024-05-02T09:00:00.000Z" "coffee" 2;
   [JStr "U2"; JStr "Bob B"; JStr "2024-05-03T09:00:00.000Z"; JStr "tea"; JNum 1.5]].

(** A [respond] that is always rejected. *)
Definition respond_rejected : string → Blocks → Async unit :=
  λ _ _, throw (ApiError chat_postMessage).

(** A world for the commands of [Commands]: the shared ledger, and a
    history of one page on which two messages of the bot [B1] surround one
    of [U1]. *)
Definition example_world (rejected : nat → bool) : Commands.World :=
  Commands.mkWorld shared_ledger "https://paypal.me/youraccount" (λ u, "D" +:+ u)
    (λ _, Commands.mkPage
            [Commands.mkMessage "B1" "1.1"; Commands.mkMessage "U1" "1.2";
             Commands.mkMessage "B1" "1.3"] "")
    (λ n, if rejected n
          then Some (Commands.mkFailure "ratelimited" "An API error occurred")
          else None).

Definition fresh_run : Commands.Run := Commands.mkRun 0 [].

(** * Properties *)

Example utc_iso_string : UTC.iso_string 1715342400123 = "2024-05-10T12:00:00.123Z".
Proof. vm_compute. reflexivity. Qed.

Example utc_parse_date :
  UTC.date_new (JStr "2024-05-10T12:00:00.123Z") = Some 1715342400123
  ∧ UTC.date_new (JStr "not a date") = None
  ∧ UTC.date_new JUndef = None.
Proof. vm_compute. auto. Qed.

Example utc_month_key :
  @getCurrentMonthKey UTC.host 1715342400123 = "2024-05"
  ∧ @getCurrentMonthLabel UTC.host 1715342400123 = "May 2024".
Proof. vm_compute. auto. Qed.

Example utc_numbers :
  UTC.number_to_string 2 = "2" ∧ UTC.number_to_string 1.5 = "1.5"
  ∧ UTC.parse_float "1.5" = 1.5%float ∧ UTC.parse_float " 2.00 EUR" = 2%float
  ∧ PrimFloat.is_nan (UTC.parse_float "free") = true.
Proof. vm_compute. auto. Qed.

(** ** Reasoning about asynchronous computations *)

Lemma bind_run {A B} (m : Async A) (k : A → Async B) (s : State) :
  (m ≫= k) s
  = match m s with
    | (Returned a, s') => k a s'
    | (Thrown e, s') => (Thrown e, s')
    end.
Proof. reflexivity. Qed.

Section SummaryFacts.
Context `{JsHost}.

Lemma summary_loop_drop userId ty tm rows n i acc :
  (n + i = length rows)%nat →
  summary_loop userId ty tm rows n i acc
  = foldl (λ a row, summary_step userId ty tm row a) acc (drop i rows).
Proof.
  revert i acc. induction n as [|n IH]; intros i acc Hn; simpl.
  - rewrite drop_ge by lia. reflexivity.
  - destruct (rows !! i) as [row|] eqn:Hrow.
    + rewrite (drop_S _ _ _ Hrow). simpl. apply IH. lia.
    + apply lookup_ge_None in Hrow. lia.
Qed.

Lemma summary_step_counted userId date row acc :
  summary_step userId (getFullYear date) (getMonth date) row acc
  = if counted userId date row
    then mkSummary
           (if of_kind "coffee" row then coffee acc + 1 else coffee acc)
           (if of_kind "tea" row then tea acc + 1 else tea acc)
           (amount acc + parse_price (cell row 4))%float
    else acc.
Proof.
  unfold summary_step, counted, in_month, of_kind.
  destruct (strict_eq_str (cell row 0) userId); simpl; [|reflexivity].
  destruct (Date_new (cell row 2)) as [d|]; [|reflexivity].
  destruct ((getFullYear d =? getFullYear date) && (getMonth d =? getMonth date));
    reflexivity.
Qed.

Lemma foldl_summary_step userId date rows acc :
  foldl (λ a row, summary_step userId (getFullYear date) (getMonth date) row a) acc rows
  = let cs := List.filter (counted userId date) rows in
    mkSummary (coffee acc + count_kind "coffee" cs) (tea acc + count_kind "tea" cs)
      (sum_prices (amount acc) cs).
Proof.
  revert acc. induction rows as [|row rows IH]; intros acc; simpl.
  - unfold count_kind. simpl. rewrite !Z.add_0_r. by destruct acc.
  - rewrite IH, summary_step_counted. clear IH.
    destruct (counted userId date row); simpl; [|reflexivity].
    unfold count_kind. simpl.
    destruct (of_kind "coffee" row), (of_kind "tea" row); simpl; f_equal; lia.
Qed.

Lemma monthly_summary_of_spec rows userId date :
  monthly_summary_of rows userId date = monthly_summary_spec rows userId date.
Proof.
  unfold monthly_summary_of, monthly_summary_spec, counted_rows.
  destruct rows as [|hd rows]; [reflexivity|].
  rewrite summary_loop_drop by (simpl; lia).
  rewrite foldl_summary_step. simpl. by rewrite drop_0.
Qed.


End SummaryFacts.

Section Steps.
Context (R : relation State) `{!PreOrder R}.

Lemma steps_ret {A} (a : A) : steps R (ret a).
Proof. intros s. simpl. reflexivity. Qed.

Lemma steps_mret {A} (a : A) : steps R (mret a : Async A).
Proof. intros s. simpl. reflexivity. Qed.

Lemma steps_throw {A} (e : exn) : steps R (throw e : Async A).
Proof. intros s. simpl. reflexivity. Qed.

Lemma steps_gets {A} (f : State → A) : steps R (gets f).
Proof. intros s. simpl. reflexivity. Qed.

Lemma steps_modify (f : State → State) : (∀ s, R s (f s)) → steps R (modify f).
Proof. intros Hf s. apply Hf. Qed.

Lemma steps_bind {A B} (m : Async A) (k : A → Async B) :
  steps R m → (∀ a, steps R (k a)) → steps R (m ≫= k).
Proof.
  intros Hm Hk s. rewrite bind_run. specialize (Hm s).
  destruct (m s) as [[a|e] s']; simpl in *; [|done].
  etrans; [exact Hm|apply Hk].
Qed.

Lemma steps_try_catch {A} (m : Async A) (h : exn → Async A) :
  steps R m → (∀ e, steps R (h e)) → steps R (try_catch m h).
Proof.
  intros Hm Hh s. unfold try_catch. specialize (Hm s).
  destruct (m s) as [[a|e] s']; simpl in *; [done|].
  etrans; [exact Hm|apply Hh].
Qed.

Lemma steps_request (api : Api) env :
  (∀ s, R s (next_tick s)) → steps R (request env api).
Proof. intros Ht s. unfold request. destruct (faults env (tick s)); apply Ht. Qed.

End Steps.

Global Instance kept_preorder {A} (f : State → A) : PreOrder (kept f).
Proof. split; unfold kept; [done|]. intros x y z Hxy Hyz. congruence. Qed.

Create HintDb steps discriminated.

(** Walks down a computation, one rule per construct; the leaves are the
    functions already dealt with (hint database [steps]). *)
Ltac steps_tac :=
  repeat lazymatch goal with
  | |- steps _ (ret _) => apply steps_ret; try apply _
  | |- steps _ (mret _) => apply steps_mret; try apply _
  | |- steps _ (throw _) => apply steps_throw; try apply _
  | |- steps _ (gets _) => apply steps_gets; try apply _
  | |- steps _ (_ ≫= _) => apply steps_bind; try apply _; [|intros ?]
  | |- steps _ (try_catch _ _) => apply steps_try_catch; try apply _; [|intros ?]
  | |- steps _ (request _ _) => apply steps_request; intros ?
  | |- steps _ (modify _) => apply steps_modify; intros ?
  | |- steps _ (match ?x with _ => _ end) => destruct x
  | |- kept _ _ _ => unfold kept; solve [reflexivity | auto]
  | |- steps _ _ => solve [auto with steps]
  end.

Section Frames.
Context `{JsHost} (env : Env).

Ltac frame :=
  unfold sheets_values_get, sheets_values_get_first, sheets_values_update_first,
    sheets_values_append, sheets_deleteRows, sheets_spreadsheets_get,
    client_users_info, client_users_list, client_conversations_open,
    client_chat_postMessage, client_chat_update, console_error, Date_now;
  steps_tac.

Section Keeps.
Context {A : Type} (f : State → A).
Hypothesis f_tick : ∀ s, f (next_tick s) = f s.

Lemma getUserDisplayName_keeps userId : steps (kept f) (getUserDisplayName env userId).
Proof. unfold getUserDisplayName. frame. Qed.

Lemma getUserMonthlySummary_keeps userId date :
  steps (kept f) (getUserMonthlySummary env userId date).
Proof. unfold getUserMonthlySummary. frame. Qed.

#[local] Hint Resolve getUserMonthlySummary_keeps : steps.

Lemma buildControlBlocks_keeps userId : steps (kept f) (buildControlBlocks env userId).
Proof. unfold buildControlBlocks. frame. Qed.

#[local] Hint Resolve buildControlBlocks_keeps : steps.

Lemma ensureHeaderRow_keeps :
  (∀ g s, f (set_ledger g s) = f s) → steps (kept f) (ensureHeaderRow env).
Proof. intros Hl. unfold ensureHeaderRow. frame. Qed.

Lemma getSheetId_keeps :
  (∀ c s, f (set_sheetIdCache c s) = f s) → steps (kept f) (getSheetId env).
Proof. intros Hc. unfold getSheetId, resolveSheetId. frame. Qed.

Lemma sendOrUpdateControlMessage_keeps userId :
  (∀ e s, f (emit e s) = f s) →
  (∀ g s, f (set_userMessageRefs g s) = f s) →
  steps (kept f) (sendOrUpdateControlMessage env userId).
Proof. intros He Hr. unfold sendOrUpdateControlMessage, openDmChannel. frame. Qed.

End Keeps.

End Frames.

(** ** The settlement flags *)

Section Settled.
Context `{JsHost} (env : Env).

Lemma settled_toggle_state userId opts s :
  monthlySettled (snd (settled_toggle env userId opts s))
  = let monthKey := getCurrentMonthKey (clock env (tick s)) in
    let selected := match opts with
                    | Some vs => existsb (λ v, String.eqb v "settled") vs
                    | None => false
                    end in
    <[monthKey := <[userId := selected]> (default ∅ (monthlySettled s !! monthKey))]>
      (monthlySettled s).
Proof.
  unfold settled_toggle. repeat (rewrite bind_run; simpl).
  match goal with |- context [sendOrUpdateControlMessage env userId ?s2] =>
    rewrite (sendOrUpdateControlMessage_keeps env monthlySettled (λ _, eq_refl) userId
               (λ _ _, eq_refl) (λ _ _, eq_refl) s2) end.
  simpl. set (k := getCurrentMonthKey _).
  destruct (monthlySettled s !! k) as [flags|] eqn:Hk; simpl.
  - apply map_eq. intros k'. rewrite lookup_alter, lookup_insert.
    case_decide; subst; by rewrite ?Hk.
  - by rewrite alter_insert_eq.
Qed.

(** C9. The handler of the settlement checkbox, run for a user while the
    clock stands in some month, changes at most the flag of that month and
    that user: for any other pair of a month key and a user identifier, the
    stored flag and the flag the control message shows are what they were,
    whatever becomes of the message update that follows. *)
Theorem settled_toggle_frame userId opts s monthKey' userId' :
  (monthKey', userId') ≠ (getCurrentMonthKey (clock env (tick s)), userId) →
  let s' := snd (settled_toggle env userId opts s) in
  flag_of (monthlySettled s') monthKey' userId' = flag_of (monthlySettled s) monthKey' userId'
  ∧ isSettled (monthlySettled s') monthKey' userId'
    = isSettled (monthlySettled s) monthKey' userId'.
Proof.
  intros Hne s'. subst s'. rewrite settled_toggle_state. simpl.
  set (k := getCurrentMonthKey _) in *.
  unfold isSettled, flag_of.
  destruct (decide (k = monthKey')) as [<-|Hk].
  - rewrite lookup_insert_eq. simpl.
    assert (userId ≠ userId') by congruence.
    rewrite lookup_insert_ne by done.
    destruct (monthlySettled s !! k); simpl; [done|]. by rewrite lookup_empty.
  - by rewrite lookup_insert_ne.
Qed.

End Settled.

(** In May 2024, ticking the box for [U1] leaves June for [U1] and May for
    [U2] alone. *)
Lemma settled_toggle_frame_witness :
  let s := init_state in
  let s' := snd (@settled_toggle UTC.host (example_env never) "U1" (Some ["settled"]) s) in
  @getCurrentMonthKey UTC.host (clock (example_env never) (tick s)) = "2024-05"
  ∧ (flag_of (monthlySettled s') "2024-06" "U1" = flag_of (monthlySettled s) "2024-06" "U1"
     ∧ isSettled (monthlySettled s') "2024-06" "U1" = isSettled (monthlySettled s) "2024-06" "U1")
  ∧ (flag_of (monthlySettled s') "2024-05" "U2" = flag_of (monthlySettled s) "2024-05" "U2"
     ∧ isSettled (monthlySettled s') "2024-05" "U2" = isSettled (monthlySettled s) "2024-05" "U2").
Proof.
  assert (Hk : @getCurrentMonthKey UTC.host (clock (example_env never) (tick init_state))
               = "2024-05") by (vm_compute; reflexivity).
  split; [exact Hk|]. split.
  - apply (@settled_toggle_frame UTC.host (example_env never) "U1" (Some ["settled"])
             init_state "2024-06" "U1").
    rewrite Hk. discriminate.
  - apply (@settled_toggle_frame UTC.host (example_env never) "U1" (Some ["settled"])
             init_state "2024-05" "U2").
    rewrite Hk. discriminate.
Defined.

(** ** Undoing the last choice *)

Section Undo.
Context `{JsHost} (env : Env).

Lemma find_last_from_spec rows userId i :
  (find_last_from rows userId i = -1
   ∧ ∀ j, (1 ≤ j ≤ i)%nat → row_of userId (rows !!! j) = false)
  ∨ (∃ j, find_last_from rows userId i = Z.of_nat j ∧ (1 ≤ j ≤ i)%nat
          ∧ row_of userId (rows !!! j) = true
          ∧ ∀ j', (j < j' ≤ i)%nat → row_of userId (rows !!! j') = false).
Proof.
  induction i as [|i IH]; simpl.
  - left. split; [done|]. intros j Hj. lia.
  - fold (row_of userId (rows !!! S i)).
    destruct (row_of userId (rows !!! S i)) eqn:Hrow.
    + right. exists (S i). repeat split; try done; try lia.
    + destruct IH as [[Hr Hall]|(j & Hr & Hj & Hrowj & Hlater)].
      * left. split; [done|]. intros j Hj.
        destruct (decide (j = S i)) as [->|]; [done|]. apply Hall. lia.
      * right. exists j. repeat split; try done; try lia. intros j' Hj'.
        destruct (decide (j' = S i)) as [->|]; [done|]. apply Hlater. lia.
Qed.

(** The scan finds nothing when the user has no data row. *)
Lemma find_last_none userId l :
  no_rows_of userId l → find_last_from l userId (length l - 1) = -1.
Proof.
  intros Hno.
  destruct (find_last_from_spec l userId (length l - 1))
    as [[Hr _]|(j & _ & Hj & Hrow & _)]; [done|].
  destruct (lookup_lt_is_Some_2 l j) as [row Hl]; [lia|].
  rewrite (list_lookup_total_correct _ _ _ Hl) in Hrow.
  rewrite (Hno j row) in Hrow; [done|lia|done].
Qed.

(** The scan finds the most recent row of the user. *)
Lemma find_last_some userId l j row :
  last_row_of userId l j row → find_last_from l userId (length l - 1) = Z.of_nat j.
Proof.
  intros (Hj & Hl & Hrow & Hlater).
  pose proof (lookup_lt_Some _ _ _ Hl) as Hlen.
  destruct (find_last_from_spec l userId (length l - 1))
    as [[_ Hall]|(j' & Hr & Hj' & Hrow' & Hlater')].
  - rewrite <- (list_lookup_total_correct _ _ _ Hl), Hall in Hrow; [done|lia].
  - rewrite Hr. f_equal.
    destruct (lookup_lt_is_Some_2 l j') as [row' Hl']; [lia|].
    rewrite (list_lookup_total_correct _ _ _ Hl') in Hrow'.
    destruct (Nat.lt_trichotomy j j') as [Hlt|[->|Hgt]]; [|done|].
    + rewrite (Hlater j' row' Hlt Hl') in Hrow'. done.
    + rewrite <- (list_lookup_total_correct _ _ _ Hl), Hlater' in Hrow; [done|lia].
Qed.

Lemma update_choice_keeps {A} (f : State → A) userId key g :
  (∀ h s, f (set_userChoices h s) = f s) → steps (kept f) (update_choice userId key g).
Proof. intros Hf. unfold update_choice. steps_tac. Qed.

(** What an undo can do to the ledger. *)
Lemma revokeLastChoice_ledger userId s :
  let l := ledger s in
  let i := find_last_from l userId (length l - 1) in
  let s' := snd (revokeLastChoice env userId s) in
  ledger s' = l ∨ (0 < i ∧ ledger s' = without_row (Z.to_nat i) l).
Proof.
  intros l i s'. subst s'. unfold revokeLastChoice, sheets_values_get.
  repeat (rewrite bind_run; simpl). unfold request.
  destruct (faults env (tick s)); simpl; [by left|].
  fold l. fold i. destruct (0 <? i) eqn:Hi; simpl; [|by left].
  rewrite bind_run.
  pose proof (update_choice_keeps ledger userId (to_string (cell (l !!! Z.to_nat i) 3))
                decr_floor (λ _ _, eq_refl) (next_tick s)) as Hu.
  destruct (update_choice _ _ _ _) as [[[]|e] s1]; simpl in Hu; [|by left].
  rewrite bind_run.
  pose proof (getSheetId_keeps env ledger (λ _, eq_refl) (λ _ _, eq_refl) s1) as Hg.
  destruct (getSheetId env s1) as [[sid|e] s2]; unfold kept in *; simpl in *.
  2: { left. unfold l. congruence. }
  unfold sheets_deleteRows, request. rewrite bind_run.
  destruct (faults env (tick s2)); simpl; [left; unfold l; congruence|].
  right. split; [lia|]. rewrite Hg, Hu. unfold without_row.
  replace (Z.to_nat (i + 1)) with (S (Z.to_nat i)) by lia. reflexivity.
Qed.

(** C10. Whatever the ledger holds and whoever the user is, an undo leaves
    the row at position 0 in place: the scan ends with [-1] or with a
    position from 1 on, and the ledger after the call is the ledger before
    it, or the ledger before it without the row at such a position, even
    when the row at position 0 carries the user's identifier. *)
Theorem revokeLastChoice_keeps_header userId s :
  let l := ledger s in
  let i := find_last_from l userId (length l - 1) in
  let s' := snd (revokeLastChoice env userId s) in
  (i = -1 ∨ 1 ≤ i < Z.of_nat (length l))
  ∧ (ledger s' = l ∨ (1 ≤ i ∧ ledger s' = without_row (Z.to_nat i) l))
  ∧ ledger s' !! 0%nat = l !! 0%nat.
Proof.
  intros l i s'.
  assert (Hi : i = -1 ∨ 1 ≤ i < Z.of_nat (length l)).
  { unfold i. destruct (find_last_from_spec l userId (length l - 1))
      as [[Hr _]|(j & Hr & Hj & _)]; [by left|right; lia]. }
  pose proof (revokeLastChoice_ledger userId s) as Hcases.
  cbv zeta in Hcases. fold l in Hcases. fold i in Hcases. fold s' in Hcases.
  destruct Hcases as [Hsame|[Hpos Hdel]].
  - repeat split; [done|by left|by rewrite Hsame].
  - repeat split; [done|right; split; [lia|done]|].
    rewrite Hdel. unfold without_row.
    rewrite lookup_app_l by (rewrite length_take; lia).
    apply lookup_take_lt. lia.
Qed.

(** Without a data row of the user the call reads the ledger and stops. *)
Lemma revokeLastChoice_noop userId s :
  no_rows_of userId (ledger s) → snd (revokeLastChoice env userId s) = next_tick s.
Proof.
  intros Hno. unfold revokeLastChoice, sheets_values_get.
  repeat (rewrite bind_run; simpl). unfold request.
  destruct (faults env (tick s)); simpl; [done|].
  by rewrite (find_last_none userId (ledger s) Hno).
Qed.

(** C6. For a user without a data row in the ledger an undo does nothing:
    the ledger, its number of rows and all in-memory counters are what they
    were (the call has only spent the one request that read the ledger),
    whether that request went through or was rejected. *)
Theorem revokeLastChoice_no_rows userId s :
  no_rows_of userId (ledger s) →
  let s' := snd (revokeLastChoice env userId s) in
  ledger s' = ledger s ∧ length (ledger s') = length (ledger s)
  ∧ userChoices s' = userChoices s ∧ s' = next_tick s.
Proof.
  intros Hno s'. assert (Hs : s' = next_tick s); [|by rewrite Hs].
  by apply revokeLastChoice_noop.
Qed.

End Undo.

(** ** The display name *)

Section DisplayName.
Context `{JsHost} (env : Env).

(** The lookup of the display name never throws: a failure is caught. *)
Lemma getUserDisplayName_returns userId s :
  ∃ userName, getUserDisplayName env userId s = (Returned userName, next_tick s).
Proof.
  unfold getUserDisplayName, try_catch, client_users_info, request.
  repeat (rewrite bind_run; simpl).
  destruct (faults env (tick s)); simpl; [eauto|].
  destruct (find _ _); simpl; eauto.
Qed.

End DisplayName.

(** ** Runs in which the services answer every request *)

Section Reliable.
Context `{JsHost} (env : Env).
Hypothesis Hrel : no_faults env.

Lemma request_reliable api s : request env api s = (Returned tt, next_tick s).
Proof. unfold request. by rewrite Hrel. Qed.

Lemma ensureHeaderRow_reliable s :
  ensureHeaderRow env s
  = (Returned tt,
     if header_missing (ledger s) then set_ledger put_header (next_tick (next_tick s))
     else next_tick s).
Proof.
  unfold ensureHeaderRow, sheets_values_get_first, sheets_values_update_first.
  repeat (rewrite bind_run; simpl). rewrite request_reliable. simpl.
  unfold header_missing. simpl.
  destruct (_ || _); simpl; [|done].
  repeat (rewrite bind_run; simpl). rewrite request_reliable. simpl. done.
Qed.

Lemma logChoice_reliable userId choice s :
  let obj := default fresh_counters (userChoices s !! userId) in
  let l := if header_missing (ledger s) then put_header (ledger s) else ledger s in
  ∃ userName t s',
    logChoice env userId choice s = (Returned tt, s')
    ∧ ledger s' = (l ++ [[JStr userId; JStr userName; JStr (toISOString (clock env t));
                          JStr choice; JNum (price_of env choice)]])%list
    ∧ userChoices s' = <[userId := obj_set choice (postincr (obj !! choice)) obj]> (userChoices s)
    ∧ userMessageRefs s' = userMessageRefs s
    ∧ monthlySettled s' = monthlySettled s
    ∧ sheetIdCache s' = sheetIdCache s
    ∧ journal s' = journal s.
Proof.
  intros obj l. unfold logChoice.
  rewrite bind_run. simpl. rewrite bind_run.
  set (s1 := (match userChoices s !! userId with
              | None => modify (set_userChoices <[userId := fresh_counters]>)
              | Some _ => ret tt end s).2).
  assert (Hs1 : ∃ s1, match userChoices s !! userId with
              | None => modify (set_userChoices <[userId := fresh_counters]>)
              | Some _ => ret tt end s = (Returned tt, s1)
              ∧ userChoices s1 !! userId = Some obj
              ∧ <[userId := obj]> (userChoices s) = userChoices s1
              ∧ ledger s1 = ledger s ∧ tick s1 = tick s
              ∧ userMessageRefs s1 = userMessageRefs s ∧ monthlySettled s1 = monthlySettled s
              ∧ sheetIdCache s1 = sheetIdCache s ∧ journal s1 = journal s).
  { unfold obj. destruct (userChoices s !! userId) as [o|] eqn:Ho; simpl.
    - exists s. rewrite Ho, insert_id by done. done.
    - eexists. split; [done|]. simpl. rewrite lookup_insert_eq. done. }
  clear s1. destruct Hs1 as (s1 & -> & Hobj & Hins & Hl1 & Ht1 & Hr1 & Hm1 & Hc1 & Hj1).
  unfold update_choice. repeat (rewrite bind_run; simpl). rewrite Hobj. simpl.
  rewrite bind_run.
  match goal with |- context [getUserDisplayName env userId ?s2] =>
    destruct (getUserDisplayName_returns env userId s2) as [userName ->] end.
  rewrite bind_run, ensureHeaderRow_reliable. simpl.
  unfold sheets_values_append. 
  exists userName. subst l. rewrite Hl1.
  destruct (header_missing (ledger s));
    repeat (rewrite bind_run; simpl); rewrite request_reliable; simpl;
    (eexists _, _; split; [reflexivity|]); simpl;
    rewrite <- Hins, insert_insert_eq, Hl1; done.
Qed.

Lemma getSheetId_reliable s :
  sheet_exists env →
  ∃ sid s', getSheetId env s = (Returned sid, s')
    ∧ ledger s' = ledger s ∧ userChoices s' = userChoices s
    ∧ userMessageRefs s' = userMessageRefs s ∧ monthlySettled s' = monthlySettled s
    ∧ journal s' = journal s.
Proof.
  intros [sheet Hsheet].
  assert (Hres : ∀ s0, ∃ sid s', resolveSheetId env s0 = (Returned sid, s')
    ∧ ledger s' = ledger s0 ∧ userChoices s' = userChoices s0
    ∧ userMessageRefs s' = userMessageRefs s0 ∧ monthlySettled s' = monthlySettled s0
    ∧ journal s' = journal s0).
  { intros s0. unfold resolveSheetId, sheets_spreadsheets_get.
    repeat (rewrite bind_run; simpl). rewrite request_reliable. simpl.
    rewrite Hsheet. repeat (rewrite bind_run; simpl). eexists _, _. done. }
  unfold getSheetId. rewrite bind_run. simpl.
  destruct (sheetIdCache s) as [sid|]; [|apply Hres].
  destruct (negb (sid =? 0)); [|apply Hres]. eexists _, _. done.
Qed.

Lemma revokeLastChoice_reliable userId s obj j row :
  sheet_exists env →
  last_row_of userId (ledger s) j row →
  userChoices s !! userId = Some obj →
  let key := to_string (cell row 3) in
  ∃ s', revokeLastChoice env userId s = (Returned tt, s')
    ∧ ledger s' = without_row j (ledger s)
    ∧ userChoices s' = <[userId := obj_set key (decr_floor (obj !! key)) obj]> (userChoices s)
    ∧ userMessageRefs s' = userMessageRefs s ∧ monthlySettled s' = monthlySettled s
    ∧ journal s' = journal s.
Proof.
  intros Hsheet Hlast Hobj key.
  pose proof (find_last_some userId _ _ _ Hlast) as Hfind.
  destruct Hlast as (Hj & Hl & _).
  unfold revokeLastChoice, sheets_values_get.
  repeat (rewrite bind_run; simpl). rewrite request_reliable. simpl.
  rewrite Hfind. replace (0 <? Z.of_nat j) with true by lia.
  rewrite Nat2Z.id, (list_lookup_total_correct _ _ _ Hl). fold key.
  unfold update_choice. repeat (rewrite bind_run; simpl). rewrite Hobj. simpl.
  rewrite bind_run.
  match goal with |- context [getSheetId env ?s2] =>
    destruct (getSheetId_reliable s2 Hsheet)
      as (sid & s3 & -> & Hl3 & Hu3 & Hr3 & Hm3 & Hj3) end.
  unfold sheets_deleteRows. repeat (rewrite bind_run; simpl).
  rewrite request_reliable. simpl. eexists. split; [reflexivity|]. simpl.
  rewrite Hl3, Hu3, Hr3, Hm3, Hj3. simpl.
  replace (Z.to_nat (Z.of_nat j + 1)) with (S j) by lia. rewrite Nat2Z.id. done.
Qed.

End Reliable.

(** ** Calls that return *)

Section Returning.
Context `{JsHost} (env : Env).

Lemma rows_of_kind_snoc userId kind data row :
  rows_of_kind userId kind (data ++ [row])
  = rows_of_kind userId kind data + (if row_of userId row && of_kind kind row then 1 else 0).
Proof.
  unfold rows_of_kind. rewrite List.filter_app, length_app. simpl.
  destruct (row_of userId row && of_kind kind row); simpl; lia.
Qed.

Lemma rows_of_kind_nonneg userId kind data : 0 ≤ rows_of_kind userId kind data.
Proof. unfold rows_of_kind. lia. Qed.

Lemma user_row_kind userId kind name iso k price :
  row_of userId [JStr userId; JStr name; JStr iso; JStr k; JNum price]
  && of_kind kind [JStr userId; JStr name; JStr iso; JStr k; JNum price]
  = String.eqb k kind.
Proof. unfold row_of, of_kind. simpl. by rewrite String.eqb_refl. Qed.

Lemma obj_set_lookup_kind key v obj kind :
  kind = "coffee" ∨ kind = "tea" →
  obj_set key v obj !! kind = if String.eqb key kind then Some v else obj !! kind.
Proof.
  intros Hkind. unfold obj_set.
  destruct (String.eqb key kind) eqn:Hk.
  - apply String.eqb_eq in Hk as ->.
    destruct Hkind as [->| ->]; simpl; by rewrite lookup_insert_eq.
  - apply String.eqb_neq in Hk.
    destruct (String.eqb key "__proto__"); [done|]. by rewrite lookup_insert_ne.
Qed.

Lemma header_present data : header_missing (header :: data) = false.
Proof. reflexivity. Qed.

Lemma header_not_counted userId kind data :
  kind = "coffee" ∨ kind = "tea" →
  rows_of_kind userId kind (header :: data) = rows_of_kind userId kind data.
Proof.
  intros [->| ->]; unfold rows_of_kind; simpl;
    by rewrite andb_false_r.
Qed.

Lemma tally_inv_agrees userId kind s :
  kind = "coffee" ∨ kind = "tea" → tally_inv userId s → counter_agrees userId kind s.
Proof.
  intros Hkind [[Hempty Hnone]|(data & obj & Hdata & _ & Hobj & Hcount)];
    unfold counter_agrees.
  - by rewrite Hnone, Hempty.
  - rewrite Hobj, Hdata, header_not_counted by done. by apply Hcount.
Qed.

Lemma ensureHeaderRow_returned s s' :
  ensureHeaderRow env s = (Returned tt, s') →
  s' = if header_missing (ledger s) then set_ledger put_header (next_tick (next_tick s))
       else next_tick s.
Proof.
  unfold ensureHeaderRow, sheets_values_get_first, sheets_values_update_first, request.
  repeat (rewrite bind_run; simpl).
  destruct (faults env (tick s)); simpl; [done|].
  unfold header_missing. simpl.
  destruct (_ || _); simpl; [|by intros [= <-]].
  repeat (rewrite bind_run; simpl).
  destruct (faults env (S (tick s))); simpl; [done|]. by intros [= <-].
Qed.

Lemma logChoice_returned userId choice s s' :
  logChoice env userId choice s = (Returned tt, s') →
  let obj := default fresh_counters (userChoices s !! userId) in
  let l := if header_missing (ledger s) then put_header (ledger s) else ledger s in
  ∃ userName t,
    ledger s' = (l ++ [[JStr userId; JStr userName; JStr (toISOString (clock env t));
                        JStr choice; JNum (price_of env choice)]])%list
    ∧ userChoices s' = <[userId := obj_set choice (postincr (obj !! choice)) obj]> (userChoices s).
Proof.
  intros Hrun obj l. revert Hrun. unfold logChoice.
  rewrite bind_run. simpl. rewrite bind_run.
  assert (Hs1 : ∃ s1, match userChoices s !! userId with
              | None => modify (set_userChoices <[userId := fresh_counters]>)
              | Some _ => ret tt end s = (Returned tt, s1)
              ∧ userChoices s1 !! userId = Some obj
              ∧ <[userId := obj]> (userChoices s) = userChoices s1
              ∧ ledger s1 = ledger s).
  { unfold obj. destruct (userChoices s !! userId) as [o|] eqn:Ho; simpl.
    - exists s. rewrite Ho, insert_id by done. done.
    - eexists. split; [done|]. simpl. rewrite lookup_insert_eq. done. }
  destruct Hs1 as (s1 & -> & Hobj & Hins & Hl1).
  unfold update_choice. repeat (rewrite bind_run; simpl). rewrite Hobj. simpl.
  rewrite bind_run.
  match goal with |- context [getUserDisplayName env userId ?s2] =>
    destruct (getUserDisplayName_returns env userId s2) as [userName ->] end.
  rewrite bind_run.
  match goal with |- context [ensureHeaderRow env ?s2] =>
    pose proof (ensureHeaderRow_returned s2) as Hens;
    destruct (ensureHeaderRow env s2) as [[[]|e] s3] end; [|done].
  specialize (Hens s3 eq_refl). simpl in Hens. rewrite Hl1 in Hens.
  unfold sheets_values_append, request. repeat (rewrite bind_run; simpl).
  destruct (faults env (tick s3)); simpl; [done|].
  intros [= <-]. simpl. exists userName, (tick s3). subst l.
  rewrite Hens. destruct (header_missing (ledger s)); simpl;
    rewrite <- Hins, insert_insert_eq, Hl1; done.
Qed.

Lemma revokeLastChoice_returned userId s s' :
  revokeLastChoice env userId s = (Returned tt, s') →
  let i := find_last_from (ledger s) userId (length (ledger s) - 1) in
  let key := to_string (cell (ledger s !!! Z.to_nat i) 3) in
  (i ≤ 0 ∧ s' = next_tick s)
  ∨ (0 < i ∧ ∃ obj, userChoices s !! userId = Some obj
       ∧ ledger s' = without_row (Z.to_nat i) (ledger s)
       ∧ userChoices s' = <[userId := obj_set key (decr_floor (obj !! key)) obj]> (userChoices s)).
Proof.
  intros Hrun i key. revert Hrun. unfold revokeLastChoice, sheets_values_get, request.
  repeat (rewrite bind_run; simpl).
  destruct (faults env (tick s)); simpl; [done|].
  fold i. destruct (0 <? i) eqn:Hi; simpl.
  2: { intros [= <-]. left. split; [lia|done]. }
  fold key. unfold update_choice. repeat (rewrite bind_run; simpl).
  destruct (userChoices s !! userId) as [obj|] eqn:Hobj; simpl; [|done].
  rewrite bind_run.
  match goal with |- context [getSheetId env ?s2] =>
    pose proof (getSheetId_keeps env ledger (λ _, eq_refl) (λ _ _, eq_refl) s2) as Hgl;
    pose proof (getSheetId_keeps env userChoices (λ _, eq_refl) (λ _ _, eq_refl) s2) as Hgu;
    destruct (getSheetId env s2) as [[sid|e] s3] end; unfold kept in *; simpl in *; [|done].
  unfold sheets_deleteRows, request. repeat (rewrite bind_run; simpl).
  destruct (faults env (tick s3)); simpl; [done|].
  intros [= <-]. right. split; [lia|]. exists obj. split; [done|]. simpl.
  rewrite Hgl, Hgu. unfold without_row.
  replace (Z.to_nat (i + 1)) with (S (Z.to_nat i)) by lia. done.
Qed.

Lemma last_user_row userId data last l :
  l = header :: (data ++ [last])%list → user_row userId last →
  last_row_of userId l (S (length data)) last.
Proof.
  intros -> (name & iso & k & price & ->). split; [lia|]. split; [|split].
  - simpl. by rewrite lookup_app_r, Nat.sub_diag by lia.
  - unfold row_of. simpl. by rewrite String.eqb_refl.
  - intros j' row' Hj' Hrow'. apply lookup_lt_Some in Hrow'.
    simpl in Hrow'. rewrite length_app in Hrow'. simpl in Hrow'. lia.
Qed.

Lemma without_last_row data (last : list jsval) :
  without_row (S (length data)) (header :: (data ++ [last])%list) = header :: data.
Proof.
  unfold without_row. simpl.
  rewrite take_app_length, drop_ge by (rewrite length_app; simpl; lia).
  by rewrite app_nil_r.
Qed.

Lemma tally_inv_returned userId s c s' :
  tally_inv userId s → call_outcome env userId s c = (Returned tt, s') → tally_inv userId s'.
Proof.
  intros Hinv Hrun. destruct c as [choice|]; simpl in Hrun.
  - destruct (logChoice_returned userId choice s s' Hrun) as (userName & t & Hl & Hu).
    set (row := [JStr userId; JStr userName; JStr (toISOString (clock env t));
                 JStr choice; JNum (price_of env choice)]) in *.
    assert (Hrow : user_row userId row) by (unfold user_row; eauto).
    right. destruct Hinv as [[Hempty Hnone]|(data & obj & Hdata & Hrows & Hobj & Hcount)].
    + rewrite Hempty in Hl. simpl in Hl. rewrite Hnone in Hu. simpl in Hu.
      exists [row], (obj_set choice (postincr (fresh_counters !! choice)) fresh_counters).
      split; [done|]. split; [by constructor|]. rewrite Hu, lookup_insert_eq.
      split; [done|]. intros kind Hkind.
      rewrite obj_set_lookup_kind by done.
      change [row] with ([] ++ [row])%list. rewrite rows_of_kind_snoc.
      unfold row. rewrite user_row_kind.
      destruct (String.eqb choice kind) eqn:Hk.
      * apply String.eqb_eq in Hk as ->. by destruct Hkind as [->| ->].
      * by destruct Hkind as [->| ->].
    + rewrite Hdata, header_present in Hl. rewrite Hobj in Hu. simpl in Hu.
      exists (data ++ [row])%list, (obj_set choice (postincr (obj !! choice)) obj).
      split; [done|]. split; [apply Forall_app; split; [done|by constructor]|].
      rewrite Hu, lookup_insert_eq. split; [done|]. intros kind Hkind.
      rewrite obj_set_lookup_kind, rows_of_kind_snoc by done.
      unfold row. rewrite user_row_kind.
      destruct (String.eqb choice kind) eqn:Hk.
      * apply String.eqb_eq in Hk as ->. by rewrite (Hcount kind Hkind).
      * rewrite (Hcount kind Hkind). do 2 f_equal. lia.
  - destruct (revokeLastChoice_returned userId s s' Hrun)
      as [[_ ->]|(Hpos & obj' & Hobj' & Hl & Hu)]; [done|].
    destruct Hinv as [[Hempty Hnone]|(data & obj & Hdata & Hrows & Hobj & Hcount)].
    { by rewrite Hnone in Hobj'. }
    rewrite Hobj in Hobj'. injection Hobj' as <-.
    destruct data as [|last data' _] using rev_ind.
    { rewrite Hdata in Hpos. simpl in Hpos. lia. }
    apply Forall_app in Hrows as [Hrows Hlast].
    rewrite Forall_singleton in Hlast.
    pose proof (last_user_row userId data' last _ Hdata Hlast) as Hlastrow.
    rewrite (find_last_some userId _ _ _ Hlastrow), Nat2Z.id in Hl, Hu.
    destruct Hlastrow as (_ & Hlook & _).
    rewrite (list_lookup_total_correct _ _ _ Hlook) in Hu.
    destruct Hlast as (name & iso & k & price & ->). simpl in Hu.
    right. exists data', (obj_set k (decr_floor (obj !! k)) obj).
    split; [by rewrite Hl, Hdata, without_last_row|].
    split; [done|]. rewrite Hu, lookup_insert_eq.
    split; [done|]. intros kind Hkind.
    rewrite obj_set_lookup_kind by done.
    specialize (Hcount kind Hkind). rewrite rows_of_kind_snoc, user_row_kind in Hcount.
    pose proof (rows_of_kind_nonneg userId kind data').
    destruct (String.eqb k kind) eqn:Hk.
    + apply String.eqb_eq in Hk as ->. rewrite Hcount. simpl. do 2 f_equal. lia.
    + rewrite Hcount. do 2 f_equal. lia.
Qed.

Lemma all_return_run_calls userId calls s :
  all_return env userId calls s → tally_inv userId s →
  ∀ k, tally_inv userId (run_calls env userId (take k calls) s).
Proof.
  revert s. induction calls as [|c calls IH]; intros s Hall Hinv k.
  - by rewrite take_nil.
  - destruct k as [|k]; [done|]. simpl.
    destruct Hall as (s' & Hrun & Hall).
    replace (run_call env userId s c) with s'.
    + apply IH; [done|]. by apply (tally_inv_returned userId s c).
    + unfold run_call. by rewrite Hrun.
Qed.

Lemma reliable_call_returns userId s c :
  no_faults env → sheet_exists env → tally_inv userId s →
  ∃ s', call_outcome env userId s c = (Returned tt, s').
Proof.
  intros Hrel Hsheet Hinv. destruct c as [choice|]; simpl.
  - destruct (logChoice_reliable env Hrel userId choice s) as (? & ? & s' & -> & _). eauto.
  - assert (Hnoop : no_rows_of userId (ledger s) →
              ∃ s', revokeLastChoice env userId s = (Returned tt, s')).
    { intros Hno. unfold revokeLastChoice, sheets_values_get.
      repeat (rewrite bind_run; simpl). rewrite (request_reliable env Hrel). simpl.
      rewrite (find_last_none userId (ledger s) Hno). simpl. eauto. }
    destruct Hinv as [[Hempty Hnone]|(data & obj & Hdata & Hrows & Hobj & Hcount)].
    { apply Hnoop. rewrite Hempty. intros j row _ Hj. done. }
    destruct data as [|last data' _] using rev_ind.
    { apply Hnoop. rewrite Hdata. intros [|j] row Hj Hrow; [lia|done]. }
    apply Forall_app in Hrows as [_ Hlast]. rewrite Forall_singleton in Hlast.
    destruct (revokeLastChoice_reliable env Hrel userId s obj _ last Hsheet
                (last_user_row userId data' last _ Hdata Hlast) Hobj) as (s' & -> & _).
    eauto.
Qed.

Lemma reliable_all_return userId calls s :
  no_faults env → sheet_exists env → tally_inv userId s → all_return env userId calls s.
Proof.
  intros Hrel Hsheet. revert s. induction calls as [|c calls IH]; intros s Hinv; [done|].
  simpl. destruct (reliable_call_returns userId s c Hrel Hsheet Hinv) as [s' Hrun].
  exists s'. split; [done|]. apply IH. by apply (tally_inv_returned userId s c).
Qed.

(** C1 (as amended). Start from an empty ledger and no counters and let one
    user make a sequence of [recordChoice] and [undoLastChoice] calls, one
    after the other.  If every call returns (none throws), then after every
    call (after every prefix of the sequence) the in-memory counter of
    coffee, and that of tea, is the number of rows of that kind the ledger
    holds for the user.  And every call does return when no external
    request is rejected and the configured sheet exists. *)
Theorem counters_agree_when_calls_return userId calls s0 :
  ledger s0 = [] → userChoices s0 = ∅ →
  (all_return env userId calls s0 →
   ∀ k kind, kind = "coffee" ∨ kind = "tea" →
     counter_agrees userId kind (run_calls env userId (take k calls) s0))
  ∧ (no_faults env → sheet_exists env → all_return env userId calls s0).
Proof.
  intros Hledger Hchoices.
  assert (Hinv : tally_inv userId s0) by (left; by rewrite Hledger, Hchoices).
  split.
  - intros Hall k kind Hkind. apply tally_inv_agrees; [done|].
    by apply all_return_run_calls.
  - intros Hrel Hsheet. by apply reliable_all_return.
Qed.
(** Where the undo of a row of an unrecognized kind goes through.  Let
    the most recent row of a user carry a choice kind whose property key is
    neither [coffee] nor [tea].  An undo of that user that returns has
    removed exactly that row from the ledger and has left the user's coffee
    and tea counters as they were: the key of the kind now holds the
    floored decrement ([NaN] for a key the counters did not hold), and the
    counters of every other user are untouched.  The undo returns when the
    process holds counters of the user, no request is rejected and the
    sheet exists. *)
Lemma undo_unrecognized_kind userId s j row :
  last_row_of userId (ledger s) j row →
  let key := to_string (cell row 3) in
  key ≠ "coffee" → key ≠ "tea" →
  (∀ s', revokeLastChoice env userId s = (Returned tt, s') →
     ledger s' = without_row j (ledger s)
     ∧ counter_of s' userId "coffee" = counter_of s userId "coffee"
     ∧ counter_of s' userId "tea" = counter_of s userId "tea"
     ∧ (∃ obj, userChoices s !! userId = Some obj
               ∧ userChoices s' !! userId
                 = Some (obj_set key (decr_floor (obj !! key)) obj))
     ∧ ∀ u, u ≠ userId → userChoices s' !! u = userChoices s !! u)
  ∧ (no_faults env → sheet_exists env → is_Some (userChoices s !! userId) →
     ∃ s', revokeLastChoice env userId s = (Returned tt, s')).
Proof.
  intros Hlast key Hcoffee Htea. split.
  - intros s' Hrun.
    pose proof (find_last_some userId _ _ _ Hlast) as Hfind.
    destruct (revokeLastChoice_returned userId s s' Hrun)
      as [[Hle _]|(_ & obj & Hobj & Hl & Hu)]; [destruct Hlast; lia|].
    rewrite Hfind, Nat2Z.id in Hl, Hu.
    destruct Hlast as (_ & Hlook & _).
    rewrite (list_lookup_total_correct _ _ _ Hlook) in Hu. fold key in Hu.
    split; [done|]. unfold counter_of. rewrite Hu, Hobj, lookup_insert_eq. simpl.
    rewrite !obj_set_lookup_kind by auto.
    apply String.eqb_neq in Hcoffee, Htea. rewrite Hcoffee, Htea.
    repeat split; [by exists obj|].
    intros u Hne. by rewrite lookup_insert_ne.
  - intros Hrel Hsheet [obj Hobj].
    destruct (revokeLastChoice_reliable env Hrel userId s obj j row Hsheet Hlast Hobj)
      as (s' & Hrun & _). eauto.
Qed.

(** C5. The undo fails where it should delete.  Let the ledger hold a most
    recent row of a user, of whatever kind, and let the process hold no
    counters of that user: the counters live in memory, the ledger does
    not, so this is the state of every user after a restart.  Then an undo
    whose read of the ledger goes through throws a [TypeError] where it
    reads the counter of the row's kind, before it asks for the deletion:
    the row is still in the ledger, and nothing but the count of requests
    has changed.  ([logChoice] and the slash command create the counters
    of a user they do not find; [revokeLastChoice] does not.) *)
Theorem undo_without_counters_throws userId s j row :
  last_row_of userId (ledger s) j row →
  userChoices s !! userId = None →
  faults env (tick s) = false →
  revokeLastChoice env userId s = (Thrown TypeError, next_tick s)
  ∧ ledger (next_tick s) = ledger s
  ∧ ledger (next_tick s) ≠ without_row j (ledger s).
Proof.
  intros Hlast Hnone Hread.
  pose proof (find_last_some userId _ _ _ Hlast) as Hfind.
  destruct Hlast as (Hj & Hlook & _).
  split; [|split; [done|]].
  - unfold revokeLastChoice, sheets_values_get, request.
    repeat (rewrite bind_run; simpl). rewrite Hread. simpl.
    rewrite Hfind. replace (0 <? Z.of_nat j) with true by lia.
    unfold update_choice. repeat (rewrite bind_run; simpl). by rewrite Hnone.
  - simpl. intros Heq. apply (f_equal length) in Heq.
    apply lookup_lt_Some in Hlook. unfold without_row in Heq.
    rewrite length_app, length_take, length_drop in Heq. lia.
Qed.

End Returning.

(** ** Runs of calls on the example environment *)

Section Examples.
Existing Instance UTC.host.

(** Coffee, tea, undo, water, undo without a rejected request: all five
    calls return, and after the third the coffee counter is 1 and so is the
    number of coffee rows. *)
Lemma counters_agree_witness :
  let calls := [recordChoice "coffee"; recordChoice "tea"; undoLastChoice;
                recordChoice "water"; undoLastChoice] in
  all_return (example_env never) "U1" calls init_state
  ∧ counter_agrees "U1" "coffee"
      (run_calls (example_env never) "U1" (take 3 calls) init_state).
Proof.
  intros calls.
  destruct (@counters_agree_when_calls_return UTC.host (example_env never) "U1" calls
              init_state eq_refl eq_refl) as [Hagree Hreturn].
  assert (Hall : all_return (example_env never) "U1" calls init_state).
  { apply Hreturn; [intros n; reflexivity|]. by exists ("Sheet1", 0). }
  split; [exact Hall|]. apply Hagree; [exact Hall|by left].
Defined.

(** C1 as stated fails when a call throws after it changed a counter.
    The requests of a first [logChoice] are, in order: [users.info]
    (tick 0), the read of the first row (1), the write of the header (2),
    the append (3).  In the first run the append is rejected, after the
    counter was incremented: the counter reads 1 and the ledger holds no
    coffee row.  In the second run the coffee is recorded (ticks 0 to 3)
    and the undo reads the ledger (4), resolves the sheet (5) and has its
    delete request (6) rejected, after the counter was decremented: the
    counter reads 0 and the coffee row is still there. *)
Lemma counter_diverges_on_rejected_request :
  (let s := run_calls (example_env (only_at 3)) "U1" [recordChoice "coffee"] init_state in
   ledger s = [header]
   ∧ counter_of s "U1" "coffee" = Some (Count 1)
   ∧ rows_of_kind "U1" "coffee" (ledger s) = 0
   ∧ ¬ counter_agrees "U1" "coffee" s)
  ∧ (let s := run_calls (example_env (only_at 6)) "U1"
                [recordChoice "coffee"; undoLastChoice] init_state in
     length (ledger s) = 2%nat
     ∧ counter_of s "U1" "coffee" = Some (Count 0)
     ∧ rows_of_kind "U1" "coffee" (ledger s) = 1
     ∧ ¬ counter_agrees "U1" "coffee" s).
Proof.
  split.
  - repeat split; try (vm_compute; reflexivity).
    intros Hagree. vm_compute in Hagree. discriminate.
  - repeat split; try (vm_compute; reflexivity).
    intros Hagree. vm_compute in Hagree. discriminate.
Qed.

Lemma water_is_last :
  last_row_of "U1" water_ledger 1 (row_on "U1" "2024-05-10T12:00:00.000Z" "water" 1.5).
Proof.
  split; [lia|]. split; [reflexivity|]. split; [reflexivity|].
  intros j' row' Hj' Hrow'. apply lookup_lt_Some in Hrow'. simpl in Hrow'. lia.
Qed.

(** After a restart the row of water of [U1] cannot be undone: the undo
    throws and the row stays.  With counters in memory the same undo
    returns and the row is gone. *)
Lemma undo_without_counters_throws_witness :
  let s := restarted water_ledger in
  (revokeLastChoice (example_env never) "U1" s = (Thrown TypeError, next_tick s)
   ∧ ledger (next_tick s) = water_ledger
   ∧ ledger (next_tick s) ≠ without_row 1 water_ledger)
  ∧ (let r := revokeLastChoice (example_env never) "U1" (with_counters "U1" water_ledger) in
     fst r = Returned tt ∧ ledger (snd r) = without_row 1 water_ledger).
Proof.
  intros s. split; [|split; vm_compute; reflexivity].
  apply (@undo_without_counters_throws UTC.host (example_env never) "U1" s 1%nat
           (row_on "U1" "2024-05-10T12:00:00.000Z" "water" 1.5) water_is_last);
    reflexivity.
Defined.

(** [U2] undoes in front of a ledger that only holds a row of [U1]. *)
Lemma revokeLastChoice_no_rows_witness :
  let s := with_counters "U2" water_ledger in
  no_rows_of "U2" (ledger s)
  ∧ (let s' := snd (revokeLastChoice (example_env never) "U2" s) in
     ledger s' = ledger s ∧ length (ledger s') = length (ledger s)
     ∧ userChoices s' = userChoices s ∧ s' = next_tick s).
Proof.
  assert (Hno : no_rows_of "U2" (ledger (with_counters "U2" water_ledger))).
  { intros [|[|j]] row Hj Hrow; simpl in Hrow; [lia| |done].
    injection Hrow as <-. reflexivity. }
  split; [exact Hno|].
  exact (@revokeLastChoice_no_rows UTC.host (example_env never) "U2"
           (with_counters "U2" water_ledger) Hno).
Defined.

End Examples.

(** ** The control message and the broadcast *)

Section Reconciler.
Context `{JsHost} (env : Env).

Lemma sendOrUpdateControlMessage_reconciled userId s :
  reconciled env userId s (sendOrUpdateControlMessage env userId s).
Proof.
  unfold reconciled, channel_of, sendOrUpdateControlMessage, buildControlBlocks,
    getUserMonthlySummary, sheets_values_get, openDmChannel, client_conversations_open,
    client_chat_update, client_chat_postMessage, Date_now, request.
  destruct (reusable (userMessageRefs s !! userId) (getCurrentMonthKey (clock env (tick s))))
    as [r|] eqn:Hreuse;
  destruct (userMessageRefs s !! userId) as [rec|] eqn:Hrec; simpl in Hreuse; try done;
  try (unfold or_else; destruct (String.eqb (ref_channelId rec) "") eqn:Hch);
  repeat first
    [ rewrite bind_run
    | rewrite Hrec
    | rewrite Hreuse
    | rewrite Hch
    | progress simpl
    | match goal with
      | |- context [faults env ?t] => destruct (faults env t)
      end ];
  eauto 10.
Qed.

Lemma sendOrUpdateControlMessage_returns userId s :
  no_faults env → fst (sendOrUpdateControlMessage env userId s) = Returned tt.
Proof.
  intros Hrel.
  unfold sendOrUpdateControlMessage, buildControlBlocks,
    getUserMonthlySummary, sheets_values_get, openDmChannel, client_conversations_open,
    client_chat_update, client_chat_postMessage, Date_now, request.
  destruct (reusable (userMessageRefs s !! userId) (getCurrentMonthKey (clock env (tick s))))
    as [r|] eqn:Hreuse;
  destruct (userMessageRefs s !! userId) as [rec|] eqn:Hrec; simpl in Hreuse; try done;
  try (destruct (String.eqb (ref_channelId rec) "") eqn:Hch);
  repeat first
    [ rewrite bind_run
    | rewrite Hrec
    | rewrite Hreuse
    | rewrite Hch
    | rewrite Hrel
    | progress simpl ];
  done.
Qed.

Lemma reusable_some rec monthKey :
  ref_ts rec ≠ "" → ref_monthKey rec = monthKey → reusable (Some rec) monthKey = Some rec.
Proof.
  intros Hts <-. unfold reusable.
  apply String.eqb_neq in Hts. by rewrite Hts, String.eqb_refl.
Qed.

Lemma reusable_none record monthKey :
  record = None
  ∨ (∃ rec, record = Some rec ∧ (ref_ts rec = "" ∨ ref_monthKey rec ≠ monthKey)) →
  reusable record monthKey = None.
Proof.
  intros [->|(rec & -> & [Hts|Hmk])]; [done| |]; unfold reusable.
  - by rewrite Hts.
  - apply String.eqb_neq in Hmk. rewrite Hmk. by rewrite andb_false_r.
Qed.

(** The references after an invocation: those before it, or those with
    the one of the user set to a message the platform has just posted. *)
Lemma sendOrUpdateControlMessage_refs userId s :
  let r := sendOrUpdateControlMessage env userId s in
  userMessageRefs (snd r) = userMessageRefs s
  ∨ ∃ channel t monthKey,
      userMessageRefs (snd r)
      = <[userId := mkRef channel (fresh_ts env t) monthKey]> (userMessageRefs s).
Proof.
  unfold sendOrUpdateControlMessage, buildControlBlocks,
    getUserMonthlySummary, sheets_values_get, openDmChannel, client_conversations_open,
    client_chat_update, client_chat_postMessage, Date_now, request.
  destruct (reusable (userMessageRefs s !! userId) (getCurrentMonthKey (clock env (tick s))))
    as [r|] eqn:Hreuse;
  destruct (userMessageRefs s !! userId) as [rec|] eqn:Hrec; simpl in Hreuse; try done;
  try (destruct (String.eqb (ref_channelId rec) "") eqn:Hch);
  repeat first
    [ rewrite bind_run
    | rewrite Hrec
    | rewrite Hreuse
    | rewrite Hch
    | progress simpl
    | match goal with
      | |- context [faults env ?t] => destruct (faults env t)
      end ];
  eauto 10.
Qed.

Global Instance keeps_timed_preorder : PreOrder keeps_timed.
Proof.
  split; unfold keeps_timed.
  - intros x Hx. exact Hx.
  - intros x y z Hxy Hyz Hx. apply Hyz, Hxy, Hx.
Qed.

Lemma refs_timed_insert refs userId channel ts monthKey :
  ts ≠ "" → refs_timed refs → refs_timed (<[userId := mkRef channel ts monthKey]> refs).
Proof.
  intros Hts Hrefs u rec. destruct (decide (userId = u)) as [->|Hne].
  - rewrite lookup_insert_eq. by intros [= <-].
  - rewrite lookup_insert_ne by done. apply Hrefs.
Qed.

Section Timed.
Hypothesis Hts : ∀ n, fresh_ts env n ≠ "".

Lemma sendOrUpdateControlMessage_timed userId :
  steps keeps_timed (sendOrUpdateControlMessage env userId).
Proof.
  intros s Htimed.
  destruct (sendOrUpdateControlMessage_refs userId s) as [->|(channel & t & k & ->)];
    [done|].
  by apply refs_timed_insert.
Qed.

Local Ltac timed_leaf :=
  lazymatch goal with
  | |- steps keeps_timed (sendOrUpdateControlMessage _ _) =>
      apply sendOrUpdateControlMessage_timed
  | |- keeps_timed _ _ => intros Hkept; exact Hkept
  | |- _ => idtac
  end.

Local Ltac timed :=
  unfold update_choice, getUserDisplayName, ensureHeaderRow, getSheetId, resolveSheetId,
    sheets_values_get, sheets_values_get_first, sheets_values_update_first,
    sheets_values_append, sheets_deleteRows, sheets_spreadsheets_get,
    client_users_info, client_users_list, console_error, Date_now;
  steps_tac; timed_leaf.

Lemma logChoice_timed userId choice : steps keeps_timed (logChoice env userId choice).
Proof. unfold logChoice. timed. Qed.

Lemma revokeLastChoice_timed userId : steps keeps_timed (revokeLastChoice env userId).
Proof. unfold revokeLastChoice. timed. Qed.

Lemma broadcast_each_timed us : steps keeps_timed (broadcast_each env us).
Proof.
  induction us as [|u us IH]; simpl; [apply steps_ret; apply _|].
  apply steps_bind; [apply _| |intros _; exact IH].
  apply steps_try_catch; [apply _|apply sendOrUpdateControlMessage_timed|].
  intros e. unfold console_error. apply steps_modify. intros s Hkept. exact Hkept.
Qed.

(** Every reference the program records carries a timestamp: none is
    recorded at the start, and every handler leaves it so, whatever is
    rejected. *)
Lemma handlers_keep_refs_timed :
  refs_timed (userMessageRefs init_state)
  ∧ (∀ userId value, steps keeps_timed (coffee_choice env userId value))
  ∧ (∀ userId value, steps keeps_timed (tea_choice env userId value))
  ∧ (∀ userId, steps keeps_timed (revoke_choice env userId))
  ∧ (∀ userId opts, steps keeps_timed (settled_toggle env userId opts))
  ∧ (∀ respond userId,
       (∀ text blocks, steps keeps_timed (respond text blocks)) →
       steps keeps_timed (coffee_tea_command env respond userId))
  ∧ steps keeps_timed (broadcastForCurrentMonth env).
Proof.
  split; [intros u rec Hrec; simpl in Hrec; by rewrite lookup_empty in Hrec|].
  split; [intros userId value; unfold coffee_choice;
          apply steps_bind; [apply _|apply logChoice_timed|intros _;
          apply sendOrUpdateControlMessage_timed]|].
  split; [intros userId value; unfold tea_choice;
          apply steps_bind; [apply _|apply logChoice_timed|intros _;
          apply sendOrUpdateControlMessage_timed]|].
  split; [intros userId; unfold revoke_choice;
          apply steps_bind; [apply _|apply revokeLastChoice_timed|intros _;
          apply sendOrUpdateControlMessage_timed]|].
  split; [intros userId opts; unfold settled_toggle; timed|].
  split.
  { intros respond userId Hrespond.
    unfold coffee_tea_command, buildControlBlocks, getUserMonthlySummary. timed. }
  unfold broadcastForCurrentMonth. apply steps_try_catch; [apply _| |].
  - apply steps_bind; [apply _| |intros us; apply broadcast_each_timed].
    unfold client_users_list. timed.
  - intros e. unfold console_error. apply steps_modify. intros s Hkept. exact Hkept.
Qed.

(** C4. Let the platform give every message it posts a timestamp, and let
    every recorded reference carry one, as is the case at the start and
    after every handler.  No invocation of the reconciler puts more than
    one chat call through, and it leaves every recorded reference with a
    timestamp.  An invocation that returns (does not throw) has done this:
    if no reference was recorded for the user, or the month key of the
    recorded one was not the current one, it has posted exactly one new
    message and set the reference to it with the current month key;
    otherwise it has updated exactly the recorded message and left the
    references as they were.  And the invocation returns when no request
    is rejected. *)
Theorem reconciler_posts_or_updates userId s :
  refs_timed (userMessageRefs s) →
  let monthKey := getCurrentMonthKey (clock env (tick s)) in
  let channel := channel_of env s userId in
  let r := sendOrUpdateControlMessage env userId s in
  refs_timed (userMessageRefs (snd r))
  ∧ (∃ evs, journal (snd r) = (journal s ++ evs)%list ∧ (length evs ≤ 1)%nat)
  ∧ (fst r = Returned tt →
     ((userMessageRefs s !! userId = None
       ∨ ∃ rec, userMessageRefs s !! userId = Some rec ∧ ref_monthKey rec ≠ monthKey) →
      ∃ text blocks new_ts,
        journal (snd r) = (journal s ++ [Posted channel text blocks new_ts])%list
        ∧ userMessageRefs (snd r)
          = <[userId := mkRef channel new_ts monthKey]> (userMessageRefs s))
     ∧ (∀ rec, userMessageRefs s !! userId = Some rec → ref_monthKey rec = monthKey →
          (∃ text blocks,
             journal (snd r)
             = (journal s ++ [Updated channel (ref_ts rec) text blocks])%list)
          ∧ userMessageRefs (snd r) = userMessageRefs s))
  ∧ (no_faults env → fst r = Returned tt).
Proof.
  intros Htimed monthKey channel r.
  pose proof (sendOrUpdateControlMessage_reconciled userId s) as Hrec.
  unfold reconciled in Hrec. fold monthKey channel r in Hrec.
  split; [by apply (sendOrUpdateControlMessage_timed userId s)|].
  split; [|split].
  - revert Hrec. destruct (fst r).
    + destruct (reusable _ _).
      * intros [(text & blocks & ->) _]. eexists [_]. split; [done|simpl; lia].
      * intros (text & blocks & new_ts & -> & _). eexists [_]. split; [done|simpl; lia].
    + intros [-> _]. exists []. rewrite app_nil_r. split; [done|simpl; lia].
  - intros Hret. rewrite Hret in Hrec. split.
    + intros Hnone.
      assert (Hno : userMessageRefs s !! userId = None
                    ∨ ∃ rec, userMessageRefs s !! userId = Some rec
                             ∧ (ref_ts rec = "" ∨ ref_monthKey rec ≠ monthKey)).
      { destruct Hnone as [Hnone|(rec & Hsome & Hmk)]; [by left|right; eauto]. }
      by rewrite (reusable_none _ monthKey Hno) in Hrec.
    + intros rec Hsome Hmk.
      by rewrite Hsome, (reusable_some rec monthKey (Htimed userId rec Hsome) Hmk) in Hrec.
  - intros Hrel. apply (sendOrUpdateControlMessage_returns userId s Hrel).
Qed.

End Timed.

(** *** The broadcast *)

Lemma or_else_idem a b : or_else (or_else a b) b = or_else a b.
Proof.
  unfold or_else. destruct (String.eqb a "") eqn:Ha; [|by rewrite Ha].
  by destruct (String.eqb b "").
Qed.

Lemma channel_of_reconciled userId s r v :
  reconciled env userId s r → channel_of env (snd r) v = channel_of env s v.
Proof.
  unfold reconciled. intros Hrec. unfold channel_of at 1.
  destruct (fst r).
  - destruct (reusable _ _).
    + destruct Hrec as [_ ->]. done.
    + destruct Hrec as (text & blocks & new_ts & _ & ->).
      destruct (decide (userId = v)) as [->|Hne].
      * rewrite lookup_insert_eq. simpl. unfold channel_of.
        destruct (userMessageRefs s !! v); [apply or_else_idem|].
        unfold or_else. by destruct (String.eqb _ _).
      * by rewrite lookup_insert_ne.
  - destruct Hrec as [_ ->]. done.
Qed.

Lemma broadcast_each_outcome us s :
  ∃ evs s', broadcast_each env us s = (Returned tt, s')
    ∧ journal s' = (journal s ++ evs)%list
    ∧ Forall2 (delivered_or_logged env s) us evs.
Proof.
  revert s. induction us as [|u us IH]; intros s; simpl.
  - exists [], s. rewrite app_nil_r. by repeat split.
  - rewrite bind_run. unfold try_catch.
    pose proof (sendOrUpdateControlMessage_reconciled (u_id u) s) as Hrec.
    pose proof (λ v, channel_of_reconciled (u_id u) s _ v Hrec) as Hch.
    unfold reconciled in Hrec.
    destruct (sendOrUpdateControlMessage env (u_id u) s) as [[[]|e] s1]; simpl in *.
    + destruct (IH s1) as (evs & s' & -> & Hj & Hall).
      assert (∃ ev, journal s1 = (journal s ++ [ev])%list
                    ∧ is_message_on (channel_of env s (u_id u)) ev) as (ev & Hj1 & Hev).
      { destruct (reusable _ _).
        - destruct Hrec as [(text & blocks & ->) _]. by eexists.
        - destruct Hrec as (text & blocks & new_ts & -> & _). by eexists. }
      exists (ev :: evs), s'. split; [done|]. split.
      * rewrite Hj, Hj1, <- app_assoc. done.
      * constructor; [by left|].
        eapply Forall2_impl; [exact Hall|]. intros v ev' [Hm|Hl]; [left|by right].
        by rewrite <- Hch.
    + destruct Hrec as [Hj1 Hr1].
      set (s2 := emit (ConsoleError ("Failed to DM " +:+ u_id u +:+ ":") e) s1).
      destruct (IH s2) as (evs & s' & -> & Hj & Hall).
      exists (ConsoleError ("Failed to DM " +:+ u_id u +:+ ":") e :: evs), s'.
      split; [done|]. split.
      * rewrite Hj. simpl. rewrite Hj1, <- app_assoc. done.
      * constructor; [right; by eexists|].
        eapply Forall2_impl; [exact Hall|]. intros v ev' [Hm|Hl]; [left|by right].
        unfold channel_of in *. simpl in Hm. by rewrite <- Hch.
Qed.

Lemma broadcast_outcome s :
  let r := broadcastForCurrentMonth env s in
  let targets := List.filter eligible (members env) in
  fst r = Returned tt
  ∧ Forall (λ u, u_is_bot u = false ∧ u_deleted u = false ∧ In u (members env)) targets
  ∧ if faults env (tick s)
    then journal (snd r)
         = (journal s ++ [ConsoleError "Monthly broadcast failed:" (ApiError users_list)])%list
    else ∃ evs, journal (snd r) = (journal s ++ evs)%list
                ∧ Forall2 (delivered_or_logged env s) targets evs
                ∧ (length (List.filter is_message evs) + length (List.filter is_failure evs)
                   = length targets)%nat.
Proof.
  intros r targets. subst r.
  unfold broadcastForCurrentMonth, try_catch, client_users_list, request.
  repeat (rewrite bind_run; simpl).
  assert (Htargets : Forall (λ u, u_is_bot u = false ∧ u_deleted u = false
                                  ∧ In u (members env)) targets).
  { apply List.Forall_forall. intros u Hu. apply List.filter_In in Hu as [Hin Hel].
    unfold eligible in Hel. apply andb_prop in Hel as [Hel _].
    apply andb_prop in Hel as [Hel _]. apply andb_prop in Hel as [Hb Hd].
    apply negb_true_iff in Hb, Hd. done. }
  destruct (faults env (tick s)); simpl; [done|].
  destruct (broadcast_each_outcome targets (next_tick s)) as (evs & s' & Hrun & Hj & Hall).
  fold targets. rewrite Hrun. simpl. split; [done|]. split; [done|].
  exists evs. split; [done|]. split; [done|].
  clear -Hall. induction Hall as [|u ev us evs Hev _ IH]; [done|]. simpl.
  destruct Hev as [Hm|[e ->]].
  - destruct ev; simpl in *; try done; lia.
  - simpl. lia.
Qed.

End Reconciler.

(** ** The scenario of a coffee, a tea and an undo *)

Section Scenario.
Context `{JsHost} (env : Env).
Hypothesis Hrel : no_faults env.
Hypothesis Hsheet : sheet_exists env.

Lemma getUserMonthlySummary_reliable userId date s :
  getUserMonthlySummary env userId date s
  = (Returned (monthly_summary_of (ledger s) userId date), next_tick s).
Proof.
  unfold getUserMonthlySummary, sheets_values_get.
  repeat (rewrite bind_run; simpl). by rewrite (request_reliable env Hrel).
Qed.

(** C7. Let the price of coffee be 2 and that of tea 1.5, let no request be
    rejected and the sheet exist, let the host print and parse these two
    prices and the dates of the clock back to themselves, and let the clock
    stay within one month.  From an empty ledger, a coffee and then a tea of
    a user leave the header, the coffee row and the tea row, and the
    monthly summary of the user at that moment is 1 coffee, 1 tea, 3.5; the
    undo that follows removes the tea row and the summary is 1 coffee,
    0 tea, 2. *)
Theorem coffee_then_tea_then_undo userId s0 :
  coffeePrice env = 2%float → teaPrice env = 1.5%float →
  parseFloat (Number_toString 2) = 2%float →
  parseFloat (Number_toString 1.5) = 1.5%float →
  (∀ n, Date_new (JStr (toISOString (clock env n))) = Some (clock env n)) →
  (∀ n m, getFullYear (clock env n) = getFullYear (clock env m)
          ∧ getMonth (clock env n) = getMonth (clock env m)) →
  ledger s0 = [] →
  ∃ s1 s2 s3 coffee_row tea_row,
    logChoice env userId "coffee" s0 = (Returned tt, s1)
    ∧ logChoice env userId "tea" s1 = (Returned tt, s2)
    ∧ ledger s2 = [header; coffee_row; tea_row]
    ∧ cell coffee_row 3 = JStr "coffee" ∧ cell tea_row 3 = JStr "tea"
    ∧ fst (getUserMonthlySummary env userId (clock env (tick s2)) s2)
      = Returned (mkSummary 1 1 3.5)
    ∧ revokeLastChoice env userId s2 = (Returned tt, s3)
    ∧ ledger s3 = [header; coffee_row]
    ∧ fst (getUserMonthlySummary env userId (clock env (tick s3)) s3)
      = Returned (mkSummary 1 0 2).
Proof.
  intros Hcoffee Htea Hp2 Hp15 Hdate Hmonth Hempty.
  destruct (logChoice_reliable env Hrel userId "coffee" s0)
    as (name1 & t1 & s1 & Hrun1 & Hl1 & Hu1 & _).
  destruct (logChoice_reliable env Hrel userId "tea" s1)
    as (name2 & t2 & s2 & Hrun2 & Hl2 & Hu2 & _).
  rewrite Hempty in Hl1. simpl in Hl1.
  rewrite Hl1 in Hl2. simpl in Hl2.
  unfold price_of in Hl1, Hl2. simpl in Hl1, Hl2. rewrite Hcoffee in Hl1, Hl2. rewrite Htea in Hl2.
  set (row1 := [JStr userId; JStr name1; JStr (toISOString (clock env t1)); JStr "coffee"; JNum 2]) in *.
  set (row2 := [JStr userId; JStr name2; JStr (toISOString (clock env t2)); JStr "tea"; JNum 1.5]) in *.
  assert (Hlast : last_row_of userId (ledger s2) 2 row2).
  { rewrite Hl2. split; [lia|]. split; [done|]. split.
    - unfold row_of, row2. simpl. apply String.eqb_refl.
    - intros j' row' Hj' Hrow'. apply lookup_lt_Some in Hrow'. simpl in Hrow'. lia. }
  destruct (revokeLastChoice_reliable env Hrel userId s2 _ 2%nat row2 Hsheet Hlast
              ltac:(rewrite Hu2; apply lookup_insert_eq))
    as (s3 & Hrun3 & Hl3 & _).
  rewrite Hl2 in Hl3. unfold without_row in Hl3. simpl in Hl3.
  assert (Hstep : ∀ row kind price date acc n,
    row = [JStr userId; JStr n; JStr (toISOString (clock env date)); JStr kind; JNum price] →
    parse_price (JNum price) = price →
    ∀ k, summary_step userId (getFullYear (clock env k)) (getMonth (clock env k)) row acc
    = mkSummary (if String.eqb kind "coffee" then coffee acc + 1 else coffee acc)
        (if String.eqb kind "tea" then tea acc + 1 else tea acc)
        (amount acc + price)%float).
  { intros row kind price date acc n -> Hprice k. unfold summary_step.
    cbn -[parse_price]. rewrite String.eqb_refl. cbn -[parse_price]. rewrite Hprice.
    rewrite Hdate.
    destruct (Hmonth date k) as [-> ->]. by rewrite !Z.eqb_refl. }
  assert (Hprice2 : parse_price (JNum 2) = 2%float).
  { unfold parse_price, parseFloat_val. simpl. by rewrite Hp2. }
  assert (Hprice15 : parse_price (JNum 1.5) = 1.5%float).
  { unfold parse_price, parseFloat_val. simpl. by rewrite Hp15. }
  exists s1, s2, s3, row1, row2.
  repeat split; try done.
  - rewrite getUserMonthlySummary_reliable. simpl. rewrite Hl2.
    unfold monthly_summary_of. simpl.
    rewrite (Hstep row1 "coffee" 2%float t1 _ name1 eq_refl Hprice2).
    rewrite (Hstep row2 "tea" 1.5%float t2 _ name2 eq_refl Hprice15).
    reflexivity.
  - rewrite getUserMonthlySummary_reliable. simpl. rewrite Hl3.
    unfold monthly_summary_of. simpl.
    rewrite (Hstep row1 "coffee" 2%float t1 _ name1 eq_refl Hprice2).
    reflexivity.
Qed.

End Scenario.

(** ** Concrete runs *)

Section Runs.
Existing Instance UTC.host.


Lemma coffee_then_tea_then_undo_witness :
  ∃ s1 s2 s3 coffee_row tea_row,
    logChoice (frozen_env never) "U1" "coffee" init_state = (Returned tt, s1)
    ∧ logChoice (frozen_env never) "U1" "tea" s1 = (Returned tt, s2)
    ∧ ledger s2 = [header; coffee_row; tea_row]
    ∧ cell coffee_row 3 = JStr "coffee" ∧ cell tea_row 3 = JStr "tea"
    ∧ fst (getUserMonthlySummary (frozen_env never) "U1"
             (clock (frozen_env never) (tick s2)) s2)
      = Returned (mkSummary 1 1 3.5)
    ∧ revokeLastChoice (frozen_env never) "U1" s2 = (Returned tt, s3)
    ∧ ledger s3 = [header; coffee_row]
    ∧ fst (getUserMonthlySummary (frozen_env never) "U1"
             (clock (frozen_env never) (tick s3)) s3)
      = Returned (mkSummary 1 0 2).
Proof.
  apply (@coffee_then_tea_then_undo UTC.host (frozen_env never)
           (λ n, eq_refl) (ex_intro _ ("Sheet1", 0) eq_refl) "U1" init_state).
  - reflexivity.
  - reflexivity.
  - vm_compute. reflexivity.
  - vm_compute. reflexivity.
  - intros n. vm_compute. reflexivity.
  - intros n m. split; reflexivity.
  - reflexivity.
Defined.

(** Two invocations for [U1] in a run without rejections, from the start:
    the first posts a message and records it, the second updates that
    message. *)
Lemma reconciler_posts_or_updates_witness :
  let env := example_env never in
  let r1 := sendOrUpdateControlMessage env "U1" init_state in
  let r2 := sendOrUpdateControlMessage env "U1" (snd r1) in
  refs_timed (userMessageRefs init_state)
  ∧ refs_timed (userMessageRefs (snd r1))
  ∧ fst r1 = Returned tt ∧ fst r2 = Returned tt
  ∧ (∃ text blocks new_ts,
       journal (snd r1) = [Posted "DU1" text blocks new_ts]
       ∧ userMessageRefs (snd r1) = <["U1" := mkRef "DU1" new_ts "2024-05"]> ∅)
  ∧ (∃ rec text blocks,
       userMessageRefs (snd r1) !! "U1" = Some rec
       ∧ journal (snd r2)
         = (journal (snd r1) ++ [Updated "DU1" (ref_ts rec) text blocks])%list
       ∧ userMessageRefs (snd r2) = userMessageRefs (snd r1)).
Proof.
  intros env r1 r2.
  assert (Hts : ∀ n, fresh_ts env n ≠ "").
  { intros n. change (fresh_ts env n) with (String "1" ("7153424." +:+ pretty n)).
    discriminate. }
  assert (Hrel : no_faults env) by (intros n; reflexivity).
  assert (Hstart : refs_timed (userMessageRefs init_state)).
  { intros u rec Hrec. simpl in Hrec. by rewrite lookup_empty in Hrec. }
  destruct (@reconciler_posts_or_updates UTC.host env Hts "U1" init_state Hstart)
    as (Htimed1 & _ & Hdone1 & Hreturn1).
  destruct (@reconciler_posts_or_updates UTC.host env Hts "U1" (snd r1) Htimed1)
    as (_ & _ & Hdone2 & Hreturn2).
  split; [exact Hstart|]. split; [exact Htimed1|].
  split; [exact (Hreturn1 Hrel)|]. split; [exact (Hreturn2 Hrel)|].
  split; [exact (proj1 (Hdone1 (Hreturn1 Hrel)) (or_introl eq_refl))|].
  assert (Hrec : userMessageRefs (snd r1) !! "U1"
                 = Some (mkRef "DU1" (fresh_ts env 2) "2024-05"))
    by (vm_compute; reflexivity).
  exists (mkRef "DU1" (fresh_ts env 2) "2024-05").
  destruct (proj2 (Hdone2 (Hreturn2 Hrel)) _ Hrec) as [(text & blocks & Hj) Hrefs];
    [vm_compute; reflexivity|].
  exists text, blocks. split; [exact Hrec|]. split; [exact Hj|exact Hrefs].
Defined.

(** C3. The aggregation of [/monthly_tally] and the monthly summary differ
    on a ledger with a row outside the reference month: for the reference
    date 10 May 2024 the monthly summary of [U1] is 0 coffee, 1 tea, 1.5,
    while the tally holds 1 coffee, 1 tea, 3.5 for [U1]: the row of April
    is counted. *)
Theorem monthly_tally_counts_other_months :
  monthly_summary_of two_months "U1" noon_10_may_2024 = mkSummary 0 1 1.5
  ∧ monthly_tally_summary two_months ≫= (.!! "U1") = Some (mkSummary 1 1 3.5).
Proof. split; vm_compute; reflexivity. Qed.

End Runs.

(** C8. The monthly broadcast always returns.  Its targets are members of
    the directory that are neither bots nor deleted.  If the directory
    cannot be listed, that one failure is logged; otherwise the broadcast
    leaves exactly one event per target, in order: a message on the
    target's channel, or the logged failure to reach that target, so that
    messages and logged failures together are as many as the targets
    whichever invocations fail.  In the run with three eligible members
    and the post to the second one rejected, the two others get their
    message and exactly one failure is logged. *)
Theorem broadcast_tolerates_failures :
  (∀ (host : JsHost) (env : Env) (s : State),
     let r := broadcastForCurrentMonth env s in
     let targets := List.filter eligible (members env) in
     fst r = Returned tt
     ∧ Forall (λ u, u_is_bot u = false ∧ u_deleted u = false ∧ In u (members env)) targets
     ∧ if faults env (tick s)
       then journal (snd r)
            = (journal s ++ [ConsoleError "Monthly broadcast failed:" (ApiError users_list)])%list
       else ∃ evs, journal (snd r) = (journal s ++ evs)%list
                   ∧ Forall2 (delivered_or_logged env s) targets evs
                   ∧ (length (List.filter is_message evs)
                      + length (List.filter is_failure evs) = length targets)%nat)
  ∧ one_of_three_fails.
Proof.
  split.
  - intros host env s. apply broadcast_outcome.
  - unfold one_of_three_fails. repeat split; try (vm_compute; reflexivity).
    eexists _, _, _, _, _, _. vm_compute. reflexivity.
Qed.

(** * Further properties of the functions of [app.js] *)

(** ** The sheet identifier *)

Section SheetId.
Context (env : Env).

Lemma resolveSheetId_run s :
  resolveSheetId env s
  = if faults env (tick s) then (Thrown (ApiError sheets_get), next_tick s)
    else match List.find (λ p, String.eqb (fst p) (sheetTitle env)) (sheets env) with
         | Some sheet =>
             (Returned (snd sheet), set_sheetIdCache (Some (snd sheet)) (next_tick s))
         | None => (Thrown (SheetNotFound (sheetTitle env)), next_tick s)
         end.
Proof.
  unfold resolveSheetId, sheets_spreadsheets_get, request.
  repeat (rewrite bind_run; simpl).
  destruct (faults env (tick s)); simpl; [done|].
  by destruct (find _ _).
Qed.

Lemma getSheetId_run s :
  getSheetId env s
  = match sheetIdCache s with
    | Some sid => if sid =? 0 then resolveSheetId env s else (Returned sid, s)
    | None => resolveSheetId env s
    end.
Proof.
  unfold getSheetId. rewrite bind_run. simpl.
  destruct (sheetIdCache s) as [sid|]; [|done]. by destruct (sid =? 0).
Qed.

(** X1. Once [getSheetId] has returned an identifier, that identifier is
    cached.  If it is not 0, every later call in a state with this cache
    returns it at once, with no request and no change of state.  If it is
    0 (the identifier of the first sheet of a spreadsheet), the cache is
    never used: the next call asks the spreadsheet service again. *)
Theorem getSheetId_cache s sid s' :
  getSheetId env s = (Returned sid, s') →
  sheetIdCache s' = Some sid
  ∧ (sid ≠ 0 →
     ∀ s'', sheetIdCache s'' = Some sid → getSheetId env s'' = (Returned sid, s''))
  ∧ (sid = 0 →
     ∀ s'', sheetIdCache s'' = Some sid → tick (snd (getSheetId env s'')) = S (tick s'')).
Proof.
  intros Hrun.
  assert (Hcache : sheetIdCache s' = Some sid).
  { revert Hrun. rewrite getSheetId_run.
    destruct (sheetIdCache s) as [c|] eqn:Hc; [destruct (c =? 0) eqn:Hz; simpl|];
      rewrite ?resolveSheetId_run;
      try (destruct (faults env (tick s)); [done|]; destruct (find _ _); [|done]);
      intros [= <- <-]; done. }
  split; [done|]. split.
  - intros Hne s'' Hc. rewrite getSheetId_run, Hc.
    apply Z.eqb_neq in Hne. by rewrite Hne.
  - intros -> s'' Hc. rewrite getSheetId_run, Hc. simpl.
    rewrite resolveSheetId_run.
    destruct (faults env (tick s'')); [done|]. by destruct (find _ _).
Qed.

(** X2. What a call of [getSheetId] can come to.  An identifier it returns
    is the cached one or that of a sheet with the configured title.  When
    it throws, the cache is what it was, and the error is the rejected
    request or the missing sheet, the latter only if no sheet of the
    spreadsheet has the title.  And without a usable cache, with the
    request going through and no sheet of that title, it does throw the
    missing sheet. *)
Theorem getSheetId_outcome s :
  let r := getSheetId env s in
  let untitled := ∀ p, In p (sheets env) → fst p ≠ sheetTitle env in
  (∀ sid, fst r = Returned sid →
     sheetIdCache s = Some sid ∨ In (sheetTitle env, sid) (sheets env))
  ∧ (∀ e, fst r = Thrown e →
       sheetIdCache (snd r) = sheetIdCache s
       ∧ (e = ApiError sheets_get ∨ e = SheetNotFound (sheetTitle env) ∧ untitled))
  ∧ (untitled → sheetIdCache s = None ∨ sheetIdCache s = Some 0 →
     faults env (tick s) = false →
     r = (Thrown (SheetNotFound (sheetTitle env)), next_tick s)).
Proof.
  intros r untitled. subst r.
  assert (Hfind : match List.find (λ p, String.eqb (fst p) (sheetTitle env)) (sheets env) with
                  | Some sheet => In (sheetTitle env, snd sheet) (sheets env)
                  | None => untitled
                  end).
  { destruct (find _ _) as [sheet|] eqn:Hf.
    - apply List.find_some in Hf as [Hin Heq]. apply String.eqb_eq in Heq.
      rewrite <- Heq. by destruct sheet.
    - intros p Hin Heq. apply (List.find_none _ _ Hf) in Hin.
      apply String.eqb_neq in Hin. done. }
  assert (Hres : (∀ sid, fst (resolveSheetId env s) = Returned sid →
                    In (sheetTitle env, sid) (sheets env))
                 ∧ (∀ e, fst (resolveSheetId env s) = Thrown e →
                      sheetIdCache (snd (resolveSheetId env s)) = sheetIdCache s
                      ∧ (e = ApiError sheets_get
                         ∨ e = SheetNotFound (sheetTitle env) ∧ untitled))
                 ∧ (untitled → faults env (tick s) = false →
                    resolveSheetId env s
                    = (Thrown (SheetNotFound (sheetTitle env)), next_tick s))).
  { rewrite resolveSheetId_run. destruct (faults env (tick s)); simpl.
    - split; [done|]. split; [|done]. intros e [= <-]. split; [done|by left].
    - destruct (find _ _) as [sheet|] eqn:Hf; simpl.
      + split; [by intros sid [= <-]|]. split; [done|].
        intros Hun _. by destruct (Hun _ Hfind).
      + split; [done|]. split; [|done]. intros e [= <-]. split; [done|by right]. }
  rewrite getSheetId_run.
  destruct (sheetIdCache s) as [c|] eqn:Hc; [destruct (c =? 0) eqn:Hz|].
  - destruct Hres as (H1 & H2 & H3). split; [|split].
    + intros sid Hsid. right. by apply H1.
    + done.
    + intros Hun _ Hf. by apply H3.
  - simpl. split; [|split]; [|done|].
    + intros sid [= <-]. by left.
    + intros _ [|[= ->]]; done.
  - destruct Hres as (H1 & H2 & H3). split; [|split].
    + intros sid Hsid. right. by apply H1.
    + done.
    + intros Hun _ Hf. by apply H3.
Qed.

End SheetId.

(** The sheet with identifier 7 is resolved once and then served from the
    cache. *)
Lemma getSheetId_cache_witness :
  let s' := set_sheetIdCache (Some 7) (next_tick init_state) in
  getSheetId second_sheet_env init_state = (Returned 7, s')
  ∧ sheetIdCache s' = Some 7
  ∧ getSheetId second_sheet_env s' = (Returned 7, s').
Proof.
  intros s'.
  assert (Hrun : getSheetId second_sheet_env init_state = (Returned 7, s'))
    by reflexivity.
  destruct (getSheetId_cache second_sheet_env init_state 7 s' Hrun)
    as (Hcache & Hagain & _).
  split; [exact Hrun|]. split; [exact Hcache|].
  apply Hagain; [discriminate|exact Hcache].
Defined.

(** ** The display name and the header row *)

Section NameAndHeader.
Context `{JsHost} (env : Env).

(** X3. The lookup of the display name never throws, makes one request and
    changes nothing else.  When the request goes through and the directory
    knows the user, the name is the first non-empty one of the display
    name, the real name and the handle, and the user identifier if all
    three are empty; when the request is rejected or the user is unknown,
    it is the user identifier.  So the name is empty only for an empty
    user identifier. *)
Theorem getUserDisplayName_never_throws userId s :
  ∃ userName,
    getUserDisplayName env userId s = (Returned userName, next_tick s)
    ∧ (userId ≠ "" → userName ≠ "")
    ∧ match (if faults env (tick s) then None
             else List.find (λ u, String.eqb (u_id u) userId) (members env)) with
      | None => userName = userId
      | Some u =>
          (u_display_name u ≠ "" → userName = u_display_name u)
          ∧ (u_display_name u = "" → u_real_name u ≠ "" → userName = u_real_name u)
          ∧ (u_display_name u = "" → u_real_name u = "" → u_name u ≠ "" →
             userName = u_name u)
          ∧ (u_display_name u = "" → u_real_name u = "" → u_name u = "" →
             userName = userId)
      end.
Proof.
  unfold getUserDisplayName, try_catch, client_users_info, request.
  repeat (rewrite bind_run; simpl).
  destruct (faults env (tick s)); simpl; [by eexists|].
  destruct (find _ _) as [u|]; simpl; [|by eexists].
  eexists. split; [done|]. unfold or_else.
  destruct (String.eqb (u_display_name u) "") eqn:Hd;
    [destruct (String.eqb (u_real_name u) "") eqn:Hr;
     [destruct (String.eqb (u_name u) "") eqn:Hn|]|];
    rewrite ?String.eqb_eq, ?String.eqb_neq in *; repeat split; congruence.
Qed.

Lemma ensureHeaderRow_run s :
  ensureHeaderRow env s
  = if faults env (tick s) then (Thrown (ApiError values_get), next_tick s)
    else if header_missing (ledger s) then
      if faults env (S (tick s))
      then (Thrown (ApiError values_update), next_tick (next_tick s))
      else (Returned tt, set_ledger put_header (next_tick (next_tick s)))
    else (Returned tt, next_tick s).
Proof.
  unfold ensureHeaderRow, sheets_values_get_first, sheets_values_update_first, request.
  repeat (rewrite bind_run; simpl).
  destruct (faults env (tick s)); simpl; [done|].
  unfold header_missing. simpl.
  destruct (_ || _); simpl; [|done].
  repeat (rewrite bind_run; simpl).
  by destruct (faults env (S (tick s))).
Qed.

Lemma header_missing_put l : header_missing (put_header l) = false.
Proof. by destruct l. Qed.

(** X4. [ensureHeaderRow] never touches a data row (a row past the first),
    and it leaves a first row with a non-blank cell as it is, whatever is
    rejected.  When it returns, the first row is not blank: it is the
    header if the first row was missing or blank.  A call that follows a
    returned one leaves the ledger alone. *)
Theorem ensureHeaderRow_writes_once s :
  let r := ensureHeaderRow env s in
  drop 1 (ledger (snd r)) = drop 1 (ledger s)
  ∧ (header_missing (ledger s) = false → ledger (snd r) = ledger s)
  ∧ (fst r = Returned tt →
     header_missing (ledger (snd r)) = false
     ∧ (header_missing (ledger s) = true → ledger (snd r) !! 0%nat = Some header)
     ∧ ledger (snd (ensureHeaderRow env (snd r))) = ledger (snd r)).
Proof.
  intros r. subst r. rewrite ensureHeaderRow_run.
  destruct (faults env (tick s)); simpl; [done|].
  destruct (header_missing (ledger s)) eqn:Hm.
  - destruct (faults env (S (tick s))); simpl; [done|].
    split; [by destruct (ledger s)|]. split; [done|]. intros _.
    split; [apply header_missing_put|]. split; [by destruct (ledger s)|].
    rewrite ensureHeaderRow_run. simpl. rewrite header_missing_put.
    by destruct (faults env _).
  - simpl. split; [done|]. split; [done|]. intros _.
    split; [done|]. split; [done|].
    rewrite ensureHeaderRow_run. simpl. rewrite Hm. by destruct (faults env _).
Qed.

End NameAndHeader.

(** ** Recording and undoing, one user and several *)

(** *** A choice and its undo *)

Section RoundTrip.
Context `{JsHost} (env : Env).

Lemma obj_set_back key n obj :
  obj !! key = Some (Count n) → 0 ≤ n →
  let obj1 := obj_set key (postincr (obj !! key)) obj in
  obj_set key (decr_floor (obj1 !! key)) obj1 = obj.
Proof.
  intros Hn Hpos obj1. subst obj1. unfold obj_set.
  destruct (String.eqb key "__proto__"); [done|].
  rewrite lookup_insert_eq, insert_insert_eq, Hn. simpl.
  replace (Z.max 0 (n + 1 - 1)) with n by lia. by apply insert_id.
Qed.

Lemma appended_is_last userId l (row : list jsval) :
  l ≠ [] → row_of userId row = true →
  last_row_of userId (l ++ [row]) (length l) row.
Proof.
  intros Hl Hrow. split; [destruct l; [done|simpl; lia]|].
  split; [by rewrite lookup_app_r, Nat.sub_diag by lia|]. split; [done|].
  intros j' row' Hj' Hrow'. apply lookup_lt_Some in Hrow'.
  rewrite length_app in Hrow'. simpl in Hrow'. lia.
Qed.

Lemma without_appended (l : list (list jsval)) row : without_row (length l) (l ++ [row]) = l.
Proof.
  unfold without_row. rewrite take_app_length, drop_ge by (rewrite length_app; simpl; lia).
  by rewrite app_nil_r.
Qed.

(** X5. Recording a choice and undoing it at once leads back.  Let no
    request be rejected, the sheet exist, and the counter of the choice
    (that of fresh counters if the user has none yet) be a non-negative
    integer.  Then both calls return, the first has added one row and the
    second has removed it: the ledger is the one before the two calls, with
    the header put in place if it was missing, the counters of the user are
    the ones before (fresh ones if the user had none), and messages,
    references and settlement flags are untouched. *)
Theorem logChoice_then_revokeLastChoice userId choice s n :
  no_faults env → sheet_exists env →
  default fresh_counters (userChoices s !! userId) !! choice = Some (Count n) → 0 ≤ n →
  ∃ s1 s2,
    logChoice env userId choice s = (Returned tt, s1)
    ∧ revokeLastChoice env userId s1 = (Returned tt, s2)
    ∧ length (ledger s1) = S (length (ledger s2))
    ∧ ledger s2 = (if header_missing (ledger s) then put_header (ledger s) else ledger s)
    ∧ userChoices s2
      = <[userId := default fresh_counters (userChoices s !! userId)]> (userChoices s)
    ∧ (is_Some (userChoices s !! userId) → userChoices s2 = userChoices s)
    ∧ journal s2 = journal s ∧ userMessageRefs s2 = userMessageRefs s
    ∧ monthlySettled s2 = monthlySettled s.
Proof.
  intros Hrel Hsheet Hn Hpos.
  destruct (logChoice_reliable env Hrel userId choice s)
    as (userName & t & s1 & Hlog & Hl1 & Hu1 & Hr1 & Hm1 & _ & Hj1).
  set (obj := default fresh_counters (userChoices s !! userId)) in *.
  set (l := if header_missing (ledger s) then put_header (ledger s) else ledger s) in *.
  set (row := [JStr userId; JStr userName; JStr (toISOString (clock env t));
               JStr choice; JNum (price_of env choice)]) in *.
  assert (Hl : l ≠ []).
  { unfold l. destruct (header_missing (ledger s)) eqn:Hm; by destruct (ledger s). }
  assert (Hlast : last_row_of userId (ledger s1) (length l) row).
  { rewrite Hl1. apply appended_is_last; [done|].
    unfold row_of, row. simpl. apply String.eqb_refl. }
  destruct (revokeLastChoice_reliable env Hrel userId s1 _ _ row Hsheet Hlast
              ltac:(rewrite Hu1; apply lookup_insert_eq))
    as (s2 & Hrev & Hl2 & Hu2 & Hr2 & Hm2 & Hj2).
  exists s1, s2. split; [done|]. split; [done|].
  rewrite Hl1, without_appended in Hl2.
  assert (Hu : userChoices s2 = <[userId := obj]> (userChoices s)).
  { rewrite Hu2, Hu1, insert_insert_eq. f_equal.
    change (to_string (cell row 3)) with choice. by apply (obj_set_back choice n). }
  split; [rewrite Hl1, Hl2, length_app; simpl; lia|].
  split; [done|]. split; [done|]. split.
  - intros [o Ho]. rewrite Hu. apply insert_id. unfold obj. by rewrite Ho.
  - split; [congruence|]. split; congruence.
Qed.

End RoundTrip.

(** [U1], who has counters, records a coffee on the shared ledger and undoes
    it: ledger and counters are back. *)
Lemma logChoice_then_revokeLastChoice_witness :
  let s := with_counters "U1" shared_ledger in
  ∃ s1 s2,
    @logChoice UTC.host (example_env never) "U1" "coffee" s = (Returned tt, s1)
    ∧ @revokeLastChoice UTC.host (example_env never) "U1" s1 = (Returned tt, s2)
    ∧ length (ledger s1) = 4%nat
    ∧ ledger s2 = shared_ledger
    ∧ userChoices s2 = userChoices s.
Proof.
  intros s.
  destruct (@logChoice_then_revokeLastChoice UTC.host (example_env never) "U1" "coffee" s 0
              (λ n, eq_refl) (ex_intro _ ("Sheet1", 0) eq_refl) eq_refl (Z.le_refl 0))
    as (s1 & s2 & Hlog & Hundo & Hlen & Hl & _ & Hu & _).
  exists s1, s2. split; [exact Hlog|]. split; [exact Hundo|].
  split; [rewrite Hlen, Hl; reflexivity|]. split; [exact Hl|].
  apply Hu. exists fresh_counters. reflexivity.
Defined.

(** *** Calls of one user and the rows of the others *)

Section Isolation.
Context `{JsHost} (env : Env).

(** What a [logChoice] can do to the data rows, whatever is rejected. *)
Lemma logChoice_appends userId choice s :
  let s' := snd (logChoice env userId choice s) in
  drop 1 (ledger s') = drop 1 (ledger s)
  ∨ ∃ row, user_row userId row ∧ drop 1 (ledger s') = (drop 1 (ledger s) ++ [row])%list.
Proof.
  intros s'. subst s'. unfold logChoice.
  rewrite bind_run. simpl. rewrite bind_run.
  assert (Hs1 : ∃ s1, match userChoices s !! userId with
              | None => modify (set_userChoices <[userId := fresh_counters]>)
              | Some _ => ret tt end s = (Returned tt, s1)
              ∧ is_Some (userChoices s1 !! userId) ∧ ledger s1 = ledger s).
  { destruct (userChoices s !! userId) as [o|] eqn:Ho; simpl.
    - exists s. by rewrite Ho.
    - eexists. split; [done|]. simpl. by rewrite lookup_insert_eq. }
  destruct Hs1 as (s1 & -> & [obj Hobj] & Hl1).
  unfold update_choice. repeat (rewrite bind_run; simpl). rewrite Hobj. simpl.
  rewrite bind_run.
  match goal with |- context [getUserDisplayName env userId ?s2] =>
    destruct (getUserDisplayName_returns env userId s2) as [userName ->] end.
  rewrite bind_run, ensureHeaderRow_run. simpl. rewrite Hl1.
  destruct (faults env (S (tick s1))); simpl; [left; by rewrite Hl1|].
  destruct (header_missing (ledger s)) eqn:Hm.
  - destruct (faults env (S (S (tick s1)))); simpl; [left; by rewrite Hl1|].
    unfold sheets_values_append, Date_now, request. repeat (rewrite bind_run; simpl).
    destruct (faults env (S (S (S (tick s1))))); simpl.
    + left. rewrite Hl1. by destruct (ledger s).
    + right. eexists. split; [unfold user_row; eauto|].
      rewrite Hl1. by destruct (ledger s).
  - unfold sheets_values_append, Date_now, request. repeat (rewrite bind_run; simpl).
    destruct (faults env (S (S (tick s1)))); simpl; [left; by rewrite Hl1|].
    right. eexists. split; [unfold user_row; eauto|].
    rewrite Hl1. destruct (ledger s); [done|]. done.
Qed.

Lemma row_of_other userId other row :
  other ≠ userId → row_of userId row = true → row_of other row = false.
Proof.
  unfold row_of, strict_eq_str. intros Hne. destruct (cell row 0); try done.
  intros Heq. apply String.eqb_eq in Heq as ->. by apply String.eqb_neq.
Qed.

Lemma filter_drop_without (P : list jsval → bool) l j row :
  (1 ≤ j)%nat → l !! j = Some row → P row = false →
  List.filter P (drop 1 (without_row j l)) = List.filter P (drop 1 l).
Proof.
  intros Hj Hrow HP. unfold without_row.
  rewrite <- (take_drop_middle l j row Hrow) at 3.
  destruct j as [|j]; [lia|]. destruct l as [|hd l]; [done|]. simpl.
  rewrite !drop_0, !List.filter_app. simpl. by rewrite HP.
Qed.

(** The row the undo scan stops at, when it stops at one. *)
Lemma find_last_row userId l :
  let i := find_last_from l userId (length l - 1) in
  0 < i → ∃ row, last_row_of userId l (Z.to_nat i) row.
Proof.
  intros i Hpos. subst i.
  destruct (find_last_from_spec l userId (length l - 1))
    as [[Hr _]|(j & Hr & Hj & Hrow & Hlater)]; [lia|].
  rewrite Hr, Nat2Z.id.
  destruct (lookup_lt_is_Some_2 l j) as [row Hl]; [lia|].
  exists row. rewrite (list_lookup_total_correct _ _ _ Hl) in Hrow.
  split; [lia|]. split; [done|]. split; [done|].
  intros j' row' Hj' Hl'. pose proof (lookup_lt_Some _ _ _ Hl') as Hlen.
  rewrite <- (list_lookup_total_correct _ _ _ Hl'). apply Hlater. lia.
Qed.

(** The leaves of a walk down [logChoice] or [revokeLastChoice]. *)
Local Ltac keeps_leaf :=
  lazymatch goal with
  | |- steps _ (getUserDisplayName _ _) => by apply getUserDisplayName_keeps
  | |- steps _ (ensureHeaderRow _) => by apply ensureHeaderRow_keeps
  | |- steps _ (getSheetId _) => by apply getSheetId_keeps
  | |- _ => auto
  end.

(** The rows of another user stay, in their order. *)
Lemma rows_of_others_kept userId other c s :
  other ≠ userId →
  List.filter (row_of other) (drop 1 (ledger (run_call env userId s c)))
  = List.filter (row_of other) (drop 1 (ledger s)).
Proof.
  intros Hne. unfold run_call. destruct c as [choice|]; simpl.
  - destruct (logChoice_appends userId choice s) as [->|(row & Hrow & ->)]; [done|].
    rewrite List.filter_app. destruct Hrow as (n & iso & k & p & ->).
    unfold row_of at 2. simpl.
    assert (String.eqb userId other = false) as -> by (apply String.eqb_neq; congruence).
    apply app_nil_r.
  - pose proof (revokeLastChoice_ledger env userId s) as Hcases. cbv zeta in Hcases.
    destruct Hcases as [->|[Hpos ->]]; [done|].
    destruct (find_last_row userId (ledger s) Hpos) as (row & Hj & Hrow & Hmine & _).
    apply (filter_drop_without _ _ _ row); [done|done|].
    by apply (row_of_other userId).
Qed.

(** X6. A call of one user, recording or undoing, returning or throwing,
    leaves the data rows of every other user in the ledger as they were,
    in their order, and does not touch the counters of any other user. *)
Theorem calls_keep_other_users userId other c s :
  other ≠ userId →
  let s' := run_call env userId s c in
  List.filter (row_of other) (drop 1 (ledger s'))
  = List.filter (row_of other) (drop 1 (ledger s))
  ∧ userChoices s' !! other = userChoices s !! other.
Proof.
  intros Hne s'. subst s'. split; [by apply rows_of_others_kept|]. unfold run_call.
  assert (Hins : ∀ (v : gmap string counter) s0,
            kept (λ s, userChoices s !! other) s0 (set_userChoices <[userId := v]> s0)).
  { intros v s0. unfold kept. simpl. by apply lookup_insert_ne. }
  assert (Hupd : ∀ key g, steps (kept (λ s, userChoices s !! other))
                            (update_choice userId key g)).
  { intros key g. unfold update_choice. steps_tac. apply Hins. }
  destruct c as [choice|]; simpl.
  - assert (Hsteps : steps (kept (λ s, userChoices s !! other))
                       (logChoice env userId choice)).
    { unfold logChoice, sheets_values_append, Date_now. steps_tac; keeps_leaf. }
    apply Hsteps.
  - assert (Hsteps : steps (kept (λ s, userChoices s !! other))
                       (revokeLastChoice env userId)).
    { unfold revokeLastChoice, sheets_values_get, sheets_deleteRows. steps_tac; keeps_leaf. }
    apply Hsteps.
Qed.

Lemma filter_both {A} (P Q : A → bool) (l : list A) :
  List.filter (λ x, P x && Q x) l = List.filter Q (List.filter P l).
Proof.
  induction l as [|x l IH]; [done|]. simpl.
  destruct (P x); simpl; [destruct (Q x); by rewrite IH|done].
Qed.

(** X7. The summary of a user is a matter of the rows of that user.  Two
    ledgers with the same rows of the user past the first row, in the same
    order, give the same monthly summary.  So no call of another user,
    recording or undoing, returning or throwing, changes the monthly
    summary of the user. *)
Theorem summary_unaffected_by_others userId other c s date :
  other ≠ userId →
  (∀ rows1 rows2,
     List.filter (row_of userId) (drop 1 rows1) = List.filter (row_of userId) (drop 1 rows2) →
     monthly_summary_of rows1 userId date = monthly_summary_of rows2 userId date)
  ∧ monthly_summary_of (ledger (run_call env other s c)) userId date
    = monthly_summary_of (ledger s) userId date.
Proof.
  intros Hne.
  assert (Hrows : ∀ rows1 rows2,
            List.filter (row_of userId) (drop 1 rows1)
            = List.filter (row_of userId) (drop 1 rows2) →
            monthly_summary_of rows1 userId date = monthly_summary_of rows2 userId date).
  { intros rows1 rows2 Hsame. rewrite !monthly_summary_of_spec.
    unfold monthly_summary_spec, counted_rows, counted.
    change (λ row, strict_eq_str (cell row 0) userId && in_month date row)
      with (λ row, row_of userId row && in_month date row).
    by rewrite !filter_both, Hsame. }
  split; [exact Hrows|]. apply Hrows. apply rows_of_others_kept. congruence.
Qed.


(** X8. Data rows are appended or deleted, never rewritten.  Whatever is
    rejected, a call of a user leaves the rows past the first as they
    were, or with one row of the user added at the end (a recorded
    choice), or with one row taken out, which is the most recent row of
    the user (an undo). *)
Theorem ledger_rows_appended_or_deleted userId c s :
  let old := drop 1 (ledger s) in
  let new := drop 1 (ledger (run_call env userId s c)) in
  new = old
  ∨ (∃ row, user_row userId row ∧ new = (old ++ [row])%list)
  ∨ (∃ j row, old !! j = Some row ∧ row_of userId row = true
              ∧ (∀ j' row', (j < j')%nat → old !! j' = Some row' →
                            row_of userId row' = false)
              ∧ new = (take j old ++ drop (S j) old)%list).
Proof.
  intros old new. subst old new. unfold run_call. destruct c as [choice|]; simpl.
  - destruct (logChoice_appends userId choice s) as [->|(row & Hrow & ->)];
      [by left|right; left; by exists row].
  - pose proof (revokeLastChoice_ledger env userId s) as Hcases. cbv zeta in Hcases.
    destruct Hcases as [->|[Hpos ->]]; [by left|]. right. right.
    destruct (find_last_row userId (ledger s) Hpos) as (row & Hj & Hrow & Hmine & Hlater).
    destruct (Z.to_nat _) as [|j]; [lia|].
    destruct (ledger s) as [|hd l]; [done|]. simpl in Hrow.
    exists j, row. simpl. rewrite drop_0. split; [done|]. split; [done|]. split.
    + intros j' row' Hj' Hrow'. apply (Hlater (S j') row'); [lia|done].
    + unfold without_row. simpl. by rewrite drop_0.
Qed.

End Isolation.

(** [U1] undoes a coffee on the shared ledger: the tea of [U2] stays, and
    so does the absence of counters of [U2]. *)
Lemma calls_keep_other_users_witness :
  let s := with_counters "U1" shared_ledger in
  let s' := @run_call UTC.host (example_env never) "U1" s undoLastChoice in
  length (ledger s') = 2%nat
  ∧ List.filter (row_of "U2") (drop 1 (ledger s'))
    = List.filter (row_of "U2") (drop 1 (ledger s))
  ∧ userChoices s' !! "U2" = userChoices s !! "U2".
Proof.
  intros s s'. split; [vm_compute; reflexivity|].
  apply (@calls_keep_other_users UTC.host (example_env never) "U1" "U2" undoLastChoice s).
  discriminate.
Defined.

(** A coffee of [U2] on the shared ledger leaves the summary of [U1] at one
    coffee for 2. *)
Lemma summary_unaffected_by_others_witness :
  let s := restarted shared_ledger in
  let s' := @run_call UTC.host (frozen_env never) "U2" s (recordChoice "coffee") in
  length (ledger s') = 4%nat
  ∧ @monthly_summary_of UTC.host (ledger s') "U1" noon_10_may_2024
    = @monthly_summary_of UTC.host (ledger s) "U1" noon_10_may_2024
  ∧ @monthly_summary_of UTC.host (ledger s) "U1" noon_10_may_2024 = mkSummary 1 0 2.
Proof.
  intros s s'. split; [vm_compute; reflexivity|]. split; [|vm_compute; reflexivity].
  apply (@summary_unaffected_by_others UTC.host (frozen_env never) "U1" "U2"
           (recordChoice "coffee") s noon_10_may_2024).
  discriminate.
Defined.

(** *** The counters of all users *)

Section AllUsers.
Context `{JsHost} (env : Env).

Lemma rows_of_kind_app userId kind l1 l2 :
  rows_of_kind userId kind (l1 ++ l2)
  = rows_of_kind userId kind l1 + rows_of_kind userId kind l2.
Proof. unfold rows_of_kind. rewrite List.filter_app, length_app. lia. Qed.

Lemma rows_of_kind_none userId kind data :
  Forall (λ row, row_of userId row = false) data → rows_of_kind userId kind data = 0.
Proof.
  intros Hall. unfold rows_of_kind. induction Hall as [|row data Hrow _ IH]; [done|].
  simpl. by rewrite Hrow.
Qed.

Lemma written_row_of u v name iso k price :
  row_of v [JStr u; JStr name; JStr iso; JStr k; JNum price] = String.eqb u v.
Proof. reflexivity. Qed.

Lemma ledger_inv_agrees userId kind s :
  kind = "coffee" ∨ kind = "tea" → ledger_inv s → counter_agrees userId kind s.
Proof.
  intros Hkind [[Hempty Hnone]|(data & Hdata & _ & Hcount)]; unfold counter_agrees.
  - by rewrite Hnone, Hempty, lookup_empty.
  - specialize (Hcount userId). rewrite Hdata, header_not_counted by done.
    destruct (userChoices s !! userId); [by apply Hcount|].
    by apply rows_of_kind_none.
Qed.

Lemma ledger_inv_logChoice userId choice s s' :
  ledger_inv s → logChoice env userId choice s = (Returned tt, s') → ledger_inv s'.
Proof.
  intros Hinv Hrun.
  destruct (logChoice_returned env userId choice s s' Hrun) as (userName & t & Hl & Hu).
  set (row := [JStr userId; JStr userName; JStr (toISOString (clock env t));
               JStr choice; JNum (price_of env choice)]) in *.
  assert (Hrow : written row) by (exists userId; unfold user_row; eauto).
  assert (Hdata : ∃ data, ledger s = (if header_missing (ledger s) then []
                                      else header :: data)
                          ∧ (if header_missing (ledger s) then data = [] else True)
                          ∧ Forall written data
                          ∧ ∀ u, match userChoices s !! u with
                                 | Some obj => ∀ kind, kind = "coffee" ∨ kind = "tea" →
                                     obj !! kind = Some (Count (rows_of_kind u kind data))
                                 | None => Forall (λ row, row_of u row = false) data
                                 end).
  { destruct Hinv as [[Hempty Hnone]|(data & Hdata & Hrows & Hcount)].
    - exists []. rewrite Hempty. simpl. repeat split; try done.
      intros u. by rewrite Hnone, lookup_empty.
    - exists data. rewrite Hdata, header_present. done. }
  destruct Hdata as (data & Hdata & Hd0 & Hrows & Hcount).
  right. exists (data ++ [row])%list. split.
  { rewrite Hl. destruct (header_missing (ledger s)).
    - rewrite Hdata, Hd0. done.
    - by rewrite Hdata. }
  split; [apply Forall_app; split; [done|by constructor]|].
  intros u. rewrite Hu. specialize (Hcount u).
  destruct (decide (u = userId)) as [->|Hne].
  - rewrite lookup_insert_eq. intros kind Hkind.
    rewrite obj_set_lookup_kind, rows_of_kind_snoc by done.
    unfold row at 1 2. rewrite user_row_kind.
    assert (Hold : default fresh_counters (userChoices s !! userId) !! kind
                   = Some (Count (rows_of_kind userId kind data))).
    { destruct (userChoices s !! userId) as [obj|]; simpl; [by apply Hcount|].
      rewrite rows_of_kind_none by done. by destruct Hkind as [->| ->]. }
    destruct (String.eqb choice kind) eqn:Hk.
    + apply String.eqb_eq in Hk as ->. by rewrite Hold.
    + rewrite Hold. do 2 f_equal. lia.
  - rewrite lookup_insert_ne by done.
    assert (Hother : row_of u row = false).
    { unfold row. rewrite written_row_of. by apply String.eqb_neq. }
    destruct (userChoices s !! u) as [obj|].
    + intros kind Hkind. rewrite rows_of_kind_snoc, Hother. simpl.
      rewrite (Hcount kind Hkind). do 2 f_equal. lia.
    + apply Forall_app. split; [done|by constructor].
Qed.

Lemma ledger_inv_revokeLastChoice userId s s' :
  ledger_inv s → revokeLastChoice env userId s = (Returned tt, s') → ledger_inv s'.
Proof.
  intros Hinv Hrun.
  destruct (revokeLastChoice_returned env userId s s' Hrun)
    as [[_ ->]|(Hpos & obj & Hobj & Hl & Hu)]; [done|].
  destruct (find_last_row userId (ledger s) Hpos) as (row & Hj & Hrow & Hmine & _).
  set (j := Z.to_nat (find_last_from (ledger s) userId (length (ledger s) - 1))) in *.
  rewrite (list_lookup_total_correct _ _ _ Hrow) in Hu.
  destruct Hinv as [[Hempty _]|(data & Hdata & Hrows & Hcount)].
  { by rewrite Hempty in Hrow. }
  rewrite Hdata in Hrow, Hl. destruct j as [|j]; [lia|]. simpl in Hrow.
  unfold without_row in Hl. simpl in Hl.
  pose proof (take_drop_middle data j row Hrow) as Hsplit.
  assert (Hw : written row).
  { rewrite Forall_forall in Hrows. apply Hrows. by apply list_elem_of_lookup_2 in Hrow. }
  destruct Hw as (u' & name & iso & k & price & ->).
  rewrite written_row_of in Hmine. apply String.eqb_eq in Hmine as ->.
  simpl in Hu.
  right. exists (take j data ++ drop (S j) data)%list. split; [done|].
  split.
  { rewrite <- Hsplit in Hrows. apply Forall_app in Hrows as [H1 H2].
    apply Forall_cons in H2 as [_ H2]. apply Forall_app. done. }
  intros u. rewrite Hu. specialize (Hcount u).
  assert (Hcounts : ∀ kind, rows_of_kind u kind data
            = rows_of_kind u kind (take j data ++ drop (S j) data)
              + (if String.eqb userId u && String.eqb k kind then 1 else 0)).
  { intros kind. rewrite <- Hsplit at 1.
    rewrite !rows_of_kind_app.
    change (_ :: drop (S j) data) with ([[JStr userId; JStr name; JStr iso; JStr k; JNum price]]
                                         ++ drop (S j) data)%list.
    rewrite rows_of_kind_app. unfold rows_of_kind at 2. simpl.
    rewrite written_row_of. unfold of_kind. simpl.
    destruct (String.eqb userId u && String.eqb k kind); simpl; lia. }
  destruct (decide (u = userId)) as [->|Hne].
  - rewrite lookup_insert_eq. rewrite Hobj in Hcount. intros kind Hkind.
    rewrite obj_set_lookup_kind by done.
    specialize (Hcount kind Hkind). rewrite Hcounts, String.eqb_refl in Hcount. simpl in Hcount.
    pose proof (rows_of_kind_nonneg userId kind (take j data ++ drop (S j) data)).
    destruct (String.eqb k kind) eqn:Hk.
    + apply String.eqb_eq in Hk as ->. rewrite Hcount. simpl. do 2 f_equal. lia.
    + rewrite Hcount. do 2 f_equal. lia.
  - rewrite lookup_insert_ne by done.
    destruct (userChoices s !! u) as [obj'|].
    + intros kind Hkind. rewrite (Hcount kind Hkind), Hcounts.
      assert (String.eqb userId u = false) as -> by (apply String.eqb_neq; congruence).
      simpl. do 2 f_equal. lia.
    + rewrite <- Hsplit in Hcount. apply Forall_app in Hcount as [H1 H2].
      apply Forall_cons in H2 as [_ H2]. apply Forall_app. done.
Qed.

Lemma ledger_inv_returned u c s s' :
  ledger_inv s → call_outcome env u s c = (Returned tt, s') → ledger_inv s'.
Proof.
  intros Hinv Hrun. destruct c as [choice|]; simpl in Hrun.
  - by apply (ledger_inv_logChoice u choice s).
  - by apply (ledger_inv_revokeLastChoice u s).
Qed.

Lemma ledger_inv_call_returns u c s :
  no_faults env → sheet_exists env → ledger_inv s →
  ∃ s', call_outcome env u s c = (Returned tt, s').
Proof.
  intros Hrel Hsheet Hinv. destruct c as [choice|]; simpl.
  - destruct (logChoice_reliable env Hrel u choice s) as (? & ? & s' & -> & _). eauto.
  - destruct (Z_lt_dec 0 (find_last_from (ledger s) u (length (ledger s) - 1)))
      as [Hpos|Hle].
    + destruct (find_last_row u (ledger s) Hpos) as (row & Hlast).
      assert (Hobj : is_Some (userChoices s !! u)).
      { destruct Hlast as (Hj & Hrow & Hmine & _).
        set (j := Z.to_nat _) in *. clearbody j.
        destruct Hinv as [[Hempty _]|(data & Hdata & _ & Hcount)].
        { by rewrite Hempty in Hrow. }
        specialize (Hcount u). destruct (userChoices s !! u); [done|].
        rewrite Hdata in Hrow.
        destruct j as [|j]; [lia|]. simpl in Hrow.
        rewrite Forall_forall in Hcount. apply list_elem_of_lookup_2 in Hrow.
        rewrite (Hcount _ Hrow) in Hmine. done. }
      destruct Hobj as [obj Hobj].
      destruct (revokeLastChoice_reliable env Hrel u s obj _ row Hsheet Hlast Hobj)
        as (s' & -> & _). eauto.
    + unfold revokeLastChoice, sheets_values_get.
      repeat (rewrite bind_run; simpl). rewrite (request_reliable env Hrel). simpl.
      replace (0 <? _) with false by lia. simpl. eauto.
Qed.

(** X9. The counters agree with the ledger for several users at once.
    Start from an empty ledger and no counters and let any users record
    and undo choices, one call after the other.  If every call returns,
    then after every call the coffee counter and the tea counter of every
    user is the number of rows of that kind the ledger holds for that
    user.  And every call returns when no request is rejected and the
    sheet exists. *)
Theorem counters_agree_for_all_users calls s0 :
  ledger s0 = [] → userChoices s0 = ∅ →
  (all_users_return env calls s0 →
   ∀ k userId kind, kind = "coffee" ∨ kind = "tea" →
     counter_agrees userId kind (run_user_calls env (take k calls) s0))
  ∧ (no_faults env → sheet_exists env → all_users_return env calls s0).
Proof.
  intros Hledger Hchoices.
  assert (Hinv : ledger_inv s0) by (by left).
  clear Hledger Hchoices. split.
  - intros Hall k userId kind Hkind. apply ledger_inv_agrees; [done|].
    revert s0 Hinv Hall k. induction calls as [|[u c] calls IH]; intros s Hinv Hall k.
    + by rewrite take_nil.
    + destruct k as [|k]; [done|]. simpl.
      destruct Hall as (s' & Hrun & Hall).
      replace (run_call env u s c) with s' by (unfold run_call; by rewrite Hrun).
      apply IH; [|done]. by apply (ledger_inv_returned u c s).
  - intros Hrel Hsheet. revert s0 Hinv.
    induction calls as [|[u c] calls IH]; intros s Hinv; [done|]. simpl.
    destruct (ledger_inv_call_returns u c s Hrel Hsheet Hinv) as [s' Hrun].
    exists s'. split; [done|]. apply IH. by apply (ledger_inv_returned u c s).
Qed.

End AllUsers.

(** Two users take turns: a coffee of [U1], a tea of [U2], an undo of [U1],
    a coffee of [U2].  All four calls return, and after the third the tea
    counter of [U2] is 1 and so is the number of tea rows of [U2]. *)
Lemma counters_agree_for_all_users_witness :
  let calls := [("U1", recordChoice "coffee"); ("U2", recordChoice "tea");
                ("U1", undoLastChoice); ("U2", recordChoice "coffee")] in
  @all_users_return UTC.host (example_env never) calls init_state
  ∧ counter_agrees "U2" "tea"
      (@run_user_calls UTC.host (example_env never) (take 3 calls) init_state).
Proof.
  intros calls.
  destruct (@counters_agree_for_all_users UTC.host (example_env never) calls
              init_state eq_refl eq_refl) as [Hagree Hreturn].
  assert (Hall : @all_users_return UTC.host (example_env never) calls init_state).
  { apply Hreturn; [intros n; reflexivity|]. by exists ("Sheet1", 0). }
  split; [exact Hall|]. apply Hagree; [exact Hall|by right].
Defined.

(** ** What the control message shows *)

Section Messages.
Context `{JsHost} (env : Env).

Lemma sendOrUpdateControlMessage_returned userId s s' :
  sendOrUpdateControlMessage env userId s = (Returned tt, s') →
  sent env userId s s'
  ∧ ledger s' = ledger s ∧ userChoices s' = userChoices s
  ∧ monthlySettled s' = monthlySettled s ∧ sheetIdCache s' = sheetIdCache s.
Proof.
  unfold sent, rendering, channel_of.
  rewrite <- monthly_summary_of_spec.
  unfold sendOrUpdateControlMessage, buildControlBlocks,
    getUserMonthlySummary, sheets_values_get, openDmChannel, client_conversations_open,
    client_chat_update, client_chat_postMessage, Date_now, request.
  destruct (reusable (userMessageRefs s !! userId) (getCurrentMonthKey (clock env (tick s))))
    as [r|] eqn:Hreuse;
  destruct (userMessageRefs s !! userId) as [rec|] eqn:Hrec; simpl in Hreuse; try done;
  try (unfold or_else; destruct (String.eqb (ref_channelId rec) "") eqn:Hch);
  repeat first
    [ rewrite bind_run
    | rewrite Hrec
    | rewrite Hreuse
    | rewrite Hch
    | progress simpl
    | match goal with
      | |- context [faults env ?t] => destruct (faults env t)
      end ];
  try done; intros [= <-]; simpl; eauto 10.
Qed.

(** X10. The message a returning invocation of the reconciler sends shows
    the state it found.  The invocation leaves exactly one event, a
    message; its text names the month of the clock; its blocks carry the
    monthly summary of the ledger for the user at the date of the clock,
    the settlement flag of the user and the payment link.  Ledger,
    counters, settlement flags and the cached sheet identifier are what
    they were. *)
Theorem control_message_renders_state userId s s' :
  sendOrUpdateControlMessage env userId s = (Returned tt, s') →
  (∃ ev, journal s' = (journal s ++ [ev])%list
         ∧ blocks_of ev = Some (rendering env userId s)
         ∧ text_of ev
           = Some ("Your tally in " +:+ getCurrentMonthLabel (clock env (tick s))))
  ∧ ledger s' = ledger s ∧ userChoices s' = userChoices s
  ∧ monthlySettled s' = monthlySettled s ∧ sheetIdCache s' = sheetIdCache s.
Proof.
  intros Hrun.
  destruct (sendOrUpdateControlMessage_returned userId s s' Hrun) as (Hsent & Hrest).
  split; [|done]. unfold sent in Hsent.
  destruct (reusable _ _).
  - destruct Hsent as [-> _]. by eexists.
  - destruct Hsent as (t & -> & _). by eexists.
Qed.

(** X11. One live message per user and month.  Let two invocations of the
    reconciler for a user return, the second starting where the first
    ended, with the month key of the clock unchanged and the platform
    giving non-empty timestamps.  Then the first has posted or updated a
    message, and the second has updated that same message, on the same
    channel and with the same timestamp, and has posted nothing. *)
Theorem second_invocation_updates userId s s1 s2 :
  sendOrUpdateControlMessage env userId s = (Returned tt, s1) →
  sendOrUpdateControlMessage env userId s1 = (Returned tt, s2) →
  (∀ n, fresh_ts env n ≠ "") →
  getCurrentMonthKey (clock env (tick s1)) = getCurrentMonthKey (clock env (tick s)) →
  ∃ channel ts ev1 text2 blocks2,
    journal s1 = (journal s ++ [ev1])%list ∧ addresses channel ts ev1
    ∧ journal s2 = (journal s1 ++ [Updated channel ts text2 blocks2])%list
    ∧ userMessageRefs s2 = userMessageRefs s1.
Proof.
  intros Hrun1 Hrun2 Hts Hmonth.
  pose proof (sendOrUpdateControlMessage_reconciled env userId s) as Hrec.
  pose proof (channel_of_reconciled env userId s _ userId Hrec) as Hch.
  rewrite Hrun1 in Hch. simpl in Hch. clear Hrec.
  destruct (sendOrUpdateControlMessage_returned userId s s1 Hrun1) as (Hsent1 & _).
  destruct (sendOrUpdateControlMessage_returned userId s1 s2 Hrun2) as (Hsent2 & _).
  unfold sent in Hsent1, Hsent2. rewrite Hmonth, Hch in Hsent2.
  set (monthKey := getCurrentMonthKey (clock env (tick s))) in *.
  set (channel := channel_of env s userId) in *.
  destruct (reusable (userMessageRefs s !! userId) monthKey) as [rec|] eqn:Hreuse.
  - destruct Hsent1 as [Hj1 Hr1]. rewrite Hr1, Hreuse in Hsent2.
    destruct Hsent2 as [Hj2 Hr2].
    eexists channel, (ref_ts rec), _, _, _.
    split; [exact Hj1|]. split; [done|]. split; [exact Hj2|congruence].
  - destruct Hsent1 as (t & Hj1 & Hr1).
    rewrite Hr1, lookup_insert_eq in Hsent2.
    rewrite reusable_some in Hsent2 by (simpl; auto).
    destruct Hsent2 as [Hj2 Hr2]. simpl in Hj2.
    eexists channel, (fresh_ts env t), _, _, _.
    split; [exact Hj1|]. split; [done|]. split; [exact Hj2|congruence].
Qed.

(** X12. The settlement checkbox is stored and shown.  After the handler
    of the checkbox returned, the flag stored for the user under the month
    key of the clock is whether [settled] was among the selected options
    (an absent list counts as none), and, the month key being the same one
    request later, the one message the handler sent shows that flag. *)
Theorem settled_toggle_shows_flag userId opts s s' :
  settled_toggle env userId opts s = (Returned tt, s') →
  getCurrentMonthKey (clock env (S (tick s))) = getCurrentMonthKey (clock env (tick s)) →
  let selected := match opts with
                  | Some vs => existsb (λ v, String.eqb v "settled") vs
                  | None => false
                  end in
  isSettled (monthlySettled s') (getCurrentMonthKey (clock env (tick s))) userId = selected
  ∧ ∃ ev blocks, journal s' = (journal s ++ [ev])%list
      ∧ blocks_of ev = Some blocks ∧ blk_settled blocks = selected.
Proof.
  intros Hrun Hmonth selected.
  pose proof (settled_toggle_state env userId opts s) as Hstate.
  rewrite Hrun in Hstate. simpl in Hstate. fold selected in Hstate.
  split.
  - rewrite Hstate. unfold isSettled. by rewrite !lookup_insert_eq.
  - revert Hrun. unfold settled_toggle, Date_now. repeat (rewrite bind_run; simpl).
    match goal with |- context [sendOrUpdateControlMessage env userId ?s2] =>
      set (s0 := s2) end.
    intros Hrun.
    destruct (sendOrUpdateControlMessage_returned userId s0 s' Hrun)
      as (Hsent & _ & _ & Hm & _).
    assert (Hflag : blk_settled (rendering env userId s0) = selected).
    { unfold rendering. cbn [blk_settled]. change (tick s0) with (tick s).
      rewrite Hmonth, <- Hm, Hstate.
      unfold isSettled. by rewrite !lookup_insert_eq. }
    unfold sent in Hsent. destruct (reusable _ _).
    + destruct Hsent as [Hj _]. by eexists _, _.
    + destruct Hsent as (t & Hj & _). by eexists _, _.
Qed.

End Messages.

(** The first message of [U1] in front of the shared ledger shows one
    coffee, no tea, and 2 due. *)
Lemma control_message_renders_state_witness :
  let env := example_env never in
  let s := restarted shared_ledger in
  ∃ s' ev,
    @sendOrUpdateControlMessage UTC.host env "U1" s = (Returned tt, s')
    ∧ journal s' = [ev]
    ∧ blocks_of ev = Some (@rendering UTC.host env "U1" s)
    ∧ @rendering UTC.host env "U1" s
      = mkBlocks "May 2024" 1 0 2 false "https://paypal.me/youraccount".
Proof.
  intros env s.
  pose proof (@sendOrUpdateControlMessage_returns UTC.host env "U1" s (λ n, eq_refl))
    as Hret.
  destruct (@sendOrUpdateControlMessage UTC.host env "U1" s) as [o s'] eqn:Hrun.
  simpl in Hret. subst o.
  destruct (@control_message_renders_state UTC.host env "U1" s s' Hrun)
    as ((ev & Hj & Hb & _) & _).
  exists s', ev. split; [reflexivity|]. split; [exact Hj|]. split; [exact Hb|].
  vm_compute. reflexivity.
Defined.

(** Two invocations for [U1] in a row: the second updates what the first
    posted. *)
Lemma second_invocation_updates_witness :
  let env := frozen_env never in
  let s1 := snd (@sendOrUpdateControlMessage UTC.host env "U1" init_state) in
  let s2 := snd (@sendOrUpdateControlMessage UTC.host env "U1" s1) in
  ∃ channel ts ev1 text2 blocks2,
    journal s1 = [ev1] ∧ addresses channel ts ev1
    ∧ journal s2 = [ev1; Updated channel ts text2 blocks2]
    ∧ userMessageRefs s2 = userMessageRefs s1.
Proof.
  intros env s1 s2.
  assert (Hrun1 : @sendOrUpdateControlMessage UTC.host env "U1" init_state
                  = (Returned tt, s1)) by (vm_compute; reflexivity).
  assert (Hrun2 : @sendOrUpdateControlMessage UTC.host env "U1" s1 = (Returned tt, s2))
    by (vm_compute; reflexivity).
  assert (Hts : ∀ n, fresh_ts env n ≠ "").
  { intros n. change (fresh_ts env n) with (String "1" ("7153424." +:+ pretty n)).
    discriminate. }
  destruct (@second_invocation_updates UTC.host env "U1" init_state s1 s2 Hrun1 Hrun2
              Hts eq_refl) as (channel & ts & ev1 & text2 & blocks2 & Hj1 & Hev1 & Hj2 & Hr).
  exists channel, ts, ev1, text2, blocks2.
  split; [exact Hj1|]. split; [exact Hev1|]. split; [|exact Hr].
  rewrite Hj2, Hj1. reflexivity.
Defined.

(** [U1] ticks the box in May 2024. *)
Lemma settled_toggle_shows_flag_witness :
  let env := frozen_env never in
  ∃ s' ev blocks,
    @settled_toggle UTC.host env "U1" (Some ["settled"]) init_state = (Returned tt, s')
    ∧ isSettled (monthlySettled s') "2024-05" "U1" = true
    ∧ journal s' = [ev] ∧ blocks_of ev = Some blocks ∧ blk_settled blocks = true.
Proof.
  intros env.
  assert (Hrun : @settled_toggle UTC.host env "U1" (Some ["settled"]) init_state
                 = (Returned tt,
                    snd (@settled_toggle UTC.host env "U1" (Some ["settled"]) init_state)))
    by (vm_compute; reflexivity).
  destruct (@settled_toggle_shows_flag UTC.host env "U1" (Some ["settled"]) init_state _
              Hrun eq_refl) as (Hflag & ev & blocks & Hj & Hb & Hshown).
  eexists _, ev, blocks. split; [exact Hrun|].
  split; [exact Hflag|]. split; [exact Hj|]. split; [exact Hb|exact Hshown].
Defined.

(** ** The handlers of the buttons and of the slash command *)

Section HandlerFacts.
Context `{JsHost} (env : Env).

Lemma monthly_summary_spec_month rows userId d1 d2 :
  getFullYear d1 = getFullYear d2 → getMonth d1 = getMonth d2 →
  monthly_summary_spec rows userId d1 = monthly_summary_spec rows userId d2.
Proof.
  intros Hy Hm. unfold monthly_summary_spec, counted_rows.
  assert (Hext : ∀ row, counted userId d1 row = counted userId d2 row).
  { intros row. unfold counted, in_month. by rewrite Hy, Hm. }
  by rewrite (List.filter_ext _ _ Hext).
Qed.

Lemma monthly_summary_spec_put_header l userId date :
  monthly_summary_spec (put_header l) userId date = monthly_summary_spec l userId date.
Proof. unfold monthly_summary_spec, counted_rows. by destruct l. Qed.

Lemma monthly_summary_spec_snoc l row userId date :
  l ≠ [] →
  monthly_summary_spec (l ++ [row]) userId date
  = let before := monthly_summary_spec l userId date in
    if counted userId date row
    then mkSummary (coffee before + (if of_kind "coffee" row then 1 else 0))
           (tea before + (if of_kind "tea" row then 1 else 0))
           (amount before + parse_price (cell row 4))%float
    else before.
Proof.
  intros Hl. unfold monthly_summary_spec, counted_rows.
  destruct l as [|hd l]; [done|]. simpl. rewrite !drop_0, List.filter_app. simpl.
  destruct (counted userId date row); simpl; [|by rewrite app_nil_r].
  unfold count_kind, sum_prices. rewrite !List.filter_app, !length_app, foldl_app. simpl.
  destruct (of_kind "coffee" row), (of_kind "tea" row); simpl; f_equal; lia.
Qed.

Lemma header_missing_nonempty l : header_missing l = false → l ≠ [].
Proof. by destruct l. Qed.

Lemma put_header_nonempty l : put_header l ≠ [].
Proof. by destruct l. Qed.

(** X13. A click on coffee or tea is recorded and shown.  When no request
    is rejected, the handler of either button returns, has appended one row
    of the user with the kind and its price to the ledger (after the
    header, put in place if it was missing), and has sent exactly one
    message, which renders the ledger with the new row.  If moreover the
    host parses the dates it prints and the clock stays within one month,
    the counts shown are those of the monthly summary before the click
    with the count of the clicked kind raised by one, and the amount is
    raised by the price. *)
Theorem choice_handler_shows_new_row handler userId value s :
  handler = coffee_choice env ∨ handler = tea_choice env →
  no_faults env →
  ∃ s1 s' row ev,
    logChoice env userId value s = (Returned tt, s1)
    ∧ handler userId value s = (Returned tt, s')
    ∧ ledger s' = ((if header_missing (ledger s) then put_header (ledger s) else ledger s)
                   ++ [row])%list
    ∧ user_row userId row ∧ cell row 3 = JStr value
    ∧ cell row 4 = JNum (price_of env value)
    ∧ journal s' = (journal s ++ [ev])%list
    ∧ ledger s1 = ledger s'
    ∧ blocks_of ev = Some (rendering env userId s1)
    ∧ ((∀ n, Date_new (JStr (toISOString (clock env n))) = Some (clock env n)) →
       (∀ n m, getFullYear (clock env n) = getFullYear (clock env m)
               ∧ getMonth (clock env n) = getMonth (clock env m)) →
       let before := monthly_summary_spec (ledger s) userId (clock env (tick s)) in
       let shown := rendering env userId s1 in
       blk_coffee shown = coffee before + (if String.eqb value "coffee" then 1 else 0)
       ∧ blk_tea shown = tea before + (if String.eqb value "tea" then 1 else 0)
       ∧ blk_amount shown
         = (amount before + parse_price (JNum (price_of env value)))%float).
Proof.
  intros Hhandler Hrel.
  assert (Hrun : handler userId value
                 = (logChoice env userId value;; sendOrUpdateControlMessage env userId)).
  { by destruct Hhandler as [-> | ->]. }
  destruct (logChoice_reliable env Hrel userId value s)
    as (userName & t & s1 & Hlog & Hl1 & _ & _ & _ & _ & Hj1).
  set (row := [JStr userId; JStr userName; JStr (toISOString (clock env t));
               JStr value; JNum (price_of env value)]) in *.
  pose proof (sendOrUpdateControlMessage_returns env userId s1 Hrel) as Hret.
  destruct (sendOrUpdateControlMessage env userId s1) as [o s'] eqn:Hsend.
  simpl in Hret. subst o.
  destruct (sendOrUpdateControlMessage_returned env userId s1 s' Hsend)
    as (Hsent & Hl' & _).
  assert (Hev : ∃ ev, journal s' = (journal s ++ [ev])%list
                      ∧ blocks_of ev = Some (rendering env userId s1)).
  { unfold sent in Hsent. rewrite Hj1 in Hsent. destruct (reusable _ _).
    - destruct Hsent as [-> _]. by eexists.
    - destruct Hsent as (t' & -> & _). by eexists. }
  destruct Hev as (ev & Hj & Hb).
  exists s1, s', row, ev.
  split; [done|]. split; [by rewrite Hrun, bind_run, Hlog|].
  split; [by rewrite Hl'|]. split; [unfold user_row; eauto|].
  split; [done|]. split; [done|]. split; [done|]. split; [done|]. split; [done|].
  intros Hdate Hmonth before shown. subst shown. unfold rendering.
  cbn [blk_coffee blk_tea blk_amount]. rewrite Hl1.
  rewrite monthly_summary_spec_snoc
    by (destruct (header_missing (ledger s)) eqn:Hm;
        [apply put_header_nonempty|by apply header_missing_nonempty]).
  assert (Hbefore : monthly_summary_spec
                      (if header_missing (ledger s) then put_header (ledger s) else ledger s)
                      userId (clock env (tick s1)) = before).
  { destruct (header_missing (ledger s)); rewrite ?monthly_summary_spec_put_header;
      apply monthly_summary_spec_month; apply Hmonth. }
  rewrite Hbefore.
  assert (Hcounted : counted userId (clock env (tick s1)) row = true).
  { unfold counted, in_month, row. cbn [cell lookup list_lookup default from_option].
    simpl. rewrite String.eqb_refl, Hdate.
    destruct (Hmonth t (tick s1)) as [-> ->]. by rewrite !Z.eqb_refl. }
  rewrite Hcounted. done.
Qed.

(** X14. The undo button.  Let no request be rejected, the sheet exist and
    the ledger hold a most recent row of the user.  If the user has
    counters in memory, the handler returns, has removed exactly that row
    and has sent one message, which renders the ledger without it.  If the
    user has none (the process was restarted since the row was written),
    the handler throws a [TypeError] right after reading the ledger:
    nothing is removed and no message is sent. *)
Theorem revoke_choice_shows_remaining_rows userId s j row :
  no_faults env → sheet_exists env →
  last_row_of userId (ledger s) j row →
  (is_Some (userChoices s !! userId) →
   ∃ s1 s' ev,
     revokeLastChoice env userId s = (Returned tt, s1)
     ∧ revoke_choice env userId s = (Returned tt, s')
     ∧ ledger s' = without_row j (ledger s)
     ∧ journal s' = (journal s ++ [ev])%list
     ∧ ledger s1 = ledger s'
     ∧ blocks_of ev = Some (rendering env userId s1))
  ∧ (userChoices s !! userId = None →
     revoke_choice env userId s = (Thrown TypeError, next_tick s)).
Proof.
  intros Hrel Hsheet Hlast. split.
  - intros [obj Hobj].
    destruct (revokeLastChoice_reliable env Hrel userId s obj j row Hsheet Hlast Hobj)
      as (s1 & Hrevoke & Hl1 & _ & _ & _ & Hj1).
    pose proof (sendOrUpdateControlMessage_returns env userId s1 Hrel) as Hret.
    destruct (sendOrUpdateControlMessage env userId s1) as [o s'] eqn:Hsend.
    simpl in Hret. subst o.
    destruct (sendOrUpdateControlMessage_returned env userId s1 s' Hsend)
      as (Hsent & Hl' & _).
    assert (Hev : ∃ ev, journal s' = (journal s ++ [ev])%list
                        ∧ blocks_of ev = Some (rendering env userId s1)).
    { unfold sent in Hsent. rewrite Hj1 in Hsent. destruct (reusable _ _).
      - destruct Hsent as [-> _]. by eexists.
      - destruct Hsent as (t' & -> & _). by eexists. }
    destruct Hev as (ev & Hj & Hb).
    exists s1, s', ev. split; [done|].
    split; [by unfold revoke_choice; rewrite bind_run, Hrevoke|].
    split; [by rewrite Hl'|]. done.
  - intros Hnone. pose proof (find_last_some userId _ _ _ Hlast) as Hfind.
    destruct Hlast as (Hj & _).
    unfold revoke_choice, revokeLastChoice, sheets_values_get.
    repeat (rewrite bind_run; simpl). rewrite (request_reliable env Hrel). simpl.
    rewrite Hfind. replace (0 <? Z.of_nat j) with true by lia.
    unfold update_choice. repeat (rewrite bind_run; simpl). by rewrite Hnone.
Qed.

(** X15. The slash command never throws, whatever is rejected and
    whatever [respond] does.  It first gives the user fresh counters, if
    the user has none (counters of other users and existing ones are
    kept).  If the direct message goes through, the command ends there and
    [respond] is not called.  If it fails, the error is logged and the
    fallback is tried once: the blocks are built again and handed to
    [respond]; a failure of either is logged as well. *)
Theorem coffee_tea_command_never_throws respond userId s :
  let s0 := with_counters_of userId s in
  let r := coffee_tea_command env respond userId s in
  fst r = Returned tt
  ∧ userChoices s0 !! userId = Some (default fresh_counters (userChoices s !! userId))
  ∧ (∀ u, u ≠ userId → userChoices s0 !! u = userChoices s !! u)
  ∧ match sendOrUpdateControlMessage env userId s0 with
    | (Returned _, s1) => snd r = s1
    | (Thrown error, s1) =>
        let s2 := emit (ConsoleError "Failed to send or update DM control message:" error) s1 in
        match buildControlBlocks env userId s2 with
        | (Returned blocks, s3) =>
            match respond "Could not DM you, showing controls here instead." blocks s3 with
            | (Returned _, s4) => snd r = s4
            | (Thrown e2, s4) =>
                snd r = emit (ConsoleError "Also failed to send ephemeral fallback:" e2) s4
            end
        | (Thrown e2, s3) =>
            snd r = emit (ConsoleError "Also failed to send ephemeral fallback:" e2) s3
        end
    end.
Proof.
  intros s0 r. subst s0 r. unfold coffee_tea_command, with_counters_of.
  rewrite bind_run. simpl. rewrite bind_run.
  destruct (userChoices s !! userId) as [obj|] eqn:Hobj; simpl.
  - unfold try_catch, console_error.
    destruct (sendOrUpdateControlMessage env userId s) as [[[]|error] s1]; simpl.
    { rewrite Hobj. done. }
    rewrite bind_run. simpl. rewrite bind_run.
    destruct (buildControlBlocks env userId _) as [[blocks|e2] s3]; simpl.
    + destruct (respond _ blocks s3) as [[[]|e2] s4]; simpl; by rewrite Hobj.
    + by rewrite Hobj.
  - unfold try_catch, console_error.
    destruct (sendOrUpdateControlMessage env userId _) as [[[]|error] s1]; simpl.
    { rewrite lookup_insert_eq. repeat split; try done.
      intros u Hu. by rewrite lookup_insert_ne. }
    rewrite bind_run. simpl. rewrite bind_run.
    destruct (buildControlBlocks env userId _) as [[blocks|e2] s3]; simpl.
    + destruct (respond _ blocks s3) as [[[]|e2] s4]; simpl;
        (rewrite lookup_insert_eq; repeat split; try done;
         intros u Hu; by rewrite lookup_insert_ne).
    + rewrite lookup_insert_eq. repeat split; try done.
      intros u Hu. by rewrite lookup_insert_ne.
Qed.

End HandlerFacts.

(** [U1] clicks coffee in front of an empty sheet: the message shows one
    coffee for 2. *)
Lemma choice_handler_shows_new_row_witness :
  let env := frozen_env never in
  ∃ s1 s' ev,
    @logChoice UTC.host env "U1" "coffee" init_state = (Returned tt, s1)
    ∧ @coffee_choice UTC.host env "U1" "coffee" init_state = (Returned tt, s')
    ∧ length (ledger s') = 2%nat
    ∧ journal s' = [ev]
    ∧ blocks_of ev = Some (@rendering UTC.host env "U1" s1)
    ∧ blk_coffee (@rendering UTC.host env "U1" s1) = 1
    ∧ blk_tea (@rendering UTC.host env "U1" s1) = 0
    ∧ blk_amount (@rendering UTC.host env "U1" s1) = 2%float.
Proof.
  intros env.
  destruct (@choice_handler_shows_new_row UTC.host env (@coffee_choice UTC.host env)
              "U1" "coffee" init_state (or_introl eq_refl) (λ n, eq_refl))
    as (s1 & s' & row & ev & Hlog & Hrun & Hl & _ & _ & _ & Hj & _ & Hb & Hshown).
  destruct Hshown as (Hc & Ht & Ha).
  { intros n. vm_compute. reflexivity. }
  { intros n m. split; reflexivity. }
  exists s1, s', ev. split; [exact Hlog|]. split; [exact Hrun|].
  split; [rewrite Hl; reflexivity|]. split; [exact Hj|]. split; [exact Hb|].
  split; [rewrite Hc; vm_compute; reflexivity|].
  split; [rewrite Ht; vm_compute; reflexivity|].
  rewrite Ha. vm_compute. reflexivity.
Defined.

(** [U1] undoes the coffee of the shared ledger, with counters in memory
    and after a restart. *)
Lemma revoke_choice_shows_remaining_rows_witness :
  let env := example_env never in
  last_row_of "U1" shared_ledger 1 (row_on "U1" "2024-05-02T09:00:00.000Z" "coffee" 2)
  ∧ (∃ s' ev,
       @revoke_choice UTC.host env "U1" (with_counters "U1" shared_ledger)
       = (Returned tt, s')
       ∧ length (ledger s') = 2%nat ∧ journal s' = [ev])
  ∧ @revoke_choice UTC.host env "U1" (restarted shared_ledger)
    = (Thrown TypeError, next_tick (restarted shared_ledger)).
Proof.
  intros env.
  assert (Hlast : last_row_of "U1" shared_ledger 1
                    (row_on "U1" "2024-05-02T09:00:00.000Z" "coffee" 2)).
  { split; [lia|]. split; [reflexivity|]. split; [reflexivity|].
    intros j' row' Hj' Hrow'. destruct j' as [|[|[|j']]]; [lia|lia| |discriminate Hrow'].
    injection Hrow' as <-. reflexivity. }
  split; [exact Hlast|]. split.
  - destruct (@revoke_choice_shows_remaining_rows UTC.host env "U1"
                (with_counters "U1" shared_ledger) 1%nat _
                (λ n, eq_refl) (ex_intro _ ("Sheet1", 0) eq_refl) Hlast) as [Hdone _].
    destruct Hdone as (s1 & s' & ev & _ & Hrun & Hl & Hj & _).
    { exists fresh_counters. reflexivity. }
    exists s', ev. split; [exact Hrun|]. split; [rewrite Hl; reflexivity|exact Hj].
  - destruct (@revoke_choice_shows_remaining_rows UTC.host env "U1"
                (restarted shared_ledger) 1%nat _
                (λ n, eq_refl) (ex_intro _ ("Sheet1", 0) eq_refl) Hlast) as [_ Hthrown].
    apply Hthrown. reflexivity.
Defined.

(** When both the direct message and [respond] are rejected (the first
    request of the command, the read of the ledger, is), the command still
    returns and both failures are logged; the fallback had its own read of
    the ledger go through. *)
Example coffee_tea_command_logs_failures :
  let r := @coffee_tea_command UTC.host (example_env (only_at 0)) respond_rejected "U1"
             init_state in
  fst r = Returned tt
  ∧ journal (snd r)
    = [ConsoleError "Failed to send or update DM control message:" (ApiError values_get);
       ConsoleError "Also failed to send ephemeral fallback:" (ApiError chat_postMessage)]
  ∧ userChoices (snd r) !! "U1" = Some fresh_counters.
Proof. repeat split; vm_compute; reflexivity. Qed.

(** ** The broadcast, once more *)

Section Broadcast.
Context `{JsHost} (env : Env).

Lemma broadcast_each_keeps {A} (f : State → A) us :
  (∀ s, f (next_tick s) = f s) →
  (∀ e s, f (emit e s) = f s) →
  (∀ g s, f (set_userMessageRefs g s) = f s) →
  steps (kept f) (broadcast_each env us).
Proof.
  intros Ht He Hr. induction us as [|u us IH]; simpl.
  - steps_tac.
  - unfold console_error. steps_tac. by apply sendOrUpdateControlMessage_keeps.
Qed.

(** X16. Sending never writes what it reads.  Whatever is rejected, an
    invocation of the reconciler and a run of the broadcast leave the
    ledger, the counters, the settlement flags and the cached sheet
    identifier as they were, and the handler of the settlement checkbox
    leaves the ledger, the counters and the cached sheet identifier as
    they were. *)
Theorem messaging_reads_only :
  (∀ userId s,
     let s' := snd (sendOrUpdateControlMessage env userId s) in
     ledger s' = ledger s ∧ userChoices s' = userChoices s
     ∧ monthlySettled s' = monthlySettled s ∧ sheetIdCache s' = sheetIdCache s)
  ∧ (∀ s,
       let s' := snd (broadcastForCurrentMonth env s) in
       ledger s' = ledger s ∧ userChoices s' = userChoices s
       ∧ monthlySettled s' = monthlySettled s ∧ sheetIdCache s' = sheetIdCache s)
  ∧ (∀ userId opts s,
       let s' := snd (settled_toggle env userId opts s) in
       ledger s' = ledger s ∧ userChoices s' = userChoices s
       ∧ sheetIdCache s' = sheetIdCache s).
Proof.
  split; [|split].
  - intros userId s s'. subst s'. repeat split.
    + by apply (sendOrUpdateControlMessage_keeps env ledger).
    + by apply (sendOrUpdateControlMessage_keeps env userChoices).
    + by apply (sendOrUpdateControlMessage_keeps env monthlySettled).
    + by apply (sendOrUpdateControlMessage_keeps env sheetIdCache).
  - assert (Hkeeps : ∀ {A} (f : State → A),
              (∀ s, f (next_tick s) = f s) → (∀ e s, f (emit e s) = f s) →
              (∀ g s, f (set_userMessageRefs g s) = f s) →
              steps (kept f) (broadcastForCurrentMonth env)).
    { intros A f Ht He Hr. unfold broadcastForCurrentMonth, client_users_list, console_error.
      steps_tac. by apply broadcast_each_keeps. }
    intros s s'. subst s'. repeat split.
    + by apply (Hkeeps _ ledger).
    + by apply (Hkeeps _ userChoices).
    + by apply (Hkeeps _ monthlySettled).
    + by apply (Hkeeps _ sheetIdCache).
  - assert (Hkeeps : ∀ {A} (f : State → A) userId opts,
              (∀ s, f (next_tick s) = f s) → (∀ e s, f (emit e s) = f s) →
              (∀ g s, f (set_userMessageRefs g s) = f s) →
              (∀ g s, f (set_monthlySettled g s) = f s) →
              steps (kept f) (settled_toggle env userId opts)).
    { intros A f userId opts Ht He Hr Hm. unfold settled_toggle, Date_now.
      steps_tac. by apply sendOrUpdateControlMessage_keeps. }
    intros userId opts s s'. subst s'. repeat split.
    + by apply (Hkeeps _ ledger).
    + by apply (Hkeeps _ userChoices).
    + by apply (Hkeeps _ sheetIdCache).
Qed.

Section SameMonth.
Variable monthKey : string.
Hypothesis Hrel : no_faults env.
Hypothesis Hts : ∀ n, fresh_ts env n ≠ "".
Hypothesis Hmonth : ∀ n, getCurrentMonthKey (clock env n) = monthKey.

Lemma reusable_live refs userId :
  has_live_message monthKey refs userId →
  ∃ rec, refs !! userId = Some rec ∧ reusable (refs !! userId) monthKey = Some rec.
Proof.
  intros (rec & Hrec & Hne & Hkey). exists rec. split; [done|].
  rewrite Hrec. by apply reusable_some.
Qed.

Lemma sendOrUpdateControlMessage_live userId s :
  ∃ s', sendOrUpdateControlMessage env userId s = (Returned tt, s')
    ∧ has_live_message monthKey (userMessageRefs s') userId
    ∧ (∀ v, has_live_message monthKey (userMessageRefs s) v →
            has_live_message monthKey (userMessageRefs s') v)
    ∧ (has_live_message monthKey (userMessageRefs s) userId →
       userMessageRefs s' = userMessageRefs s
       ∧ ∃ ev, journal s' = (journal s ++ [ev])%list ∧ is_update ev = true).
Proof.
  pose proof (sendOrUpdateControlMessage_returns env userId s Hrel) as Hret.
  destruct (sendOrUpdateControlMessage env userId s) as [o s'] eqn:Hrun.
  simpl in Hret. subst o. exists s'. split; [done|].
  destruct (sendOrUpdateControlMessage_returned env userId s s' Hrun) as (Hsent & _).
  unfold sent in Hsent. rewrite Hmonth in Hsent.
  destruct (reusable (userMessageRefs s !! userId) monthKey) as [rec|] eqn:Hreuse.
  - destruct Hsent as [Hj Hr]. rewrite Hr.
    assert (Hlive : has_live_message monthKey (userMessageRefs s) userId).
    { unfold reusable in Hreuse.
      destruct (userMessageRefs s !! userId) as [rec'|] eqn:Hrec; [|done].
      destruct (negb (String.eqb (ref_ts rec') "")) eqn:Hne; [|done].
      destruct (String.eqb (ref_monthKey rec') monthKey) eqn:Hkey; [|done].
      exists rec'. split; [done|].
      apply negb_true_iff, String.eqb_neq in Hne. by apply String.eqb_eq in Hkey. }
    split; [done|]. split; [done|]. intros _. split; [done|]. by eexists.
  - destruct Hsent as (t & Hj & Hr). rewrite Hr. split; [|split].
    + eexists. rewrite lookup_insert_eq. split; [done|]. simpl. auto.
    + intros v (rec & Hrec & Hne & Hkey). destruct (decide (userId = v)) as [->|Hv].
      * eexists. rewrite lookup_insert_eq. split; [done|]. simpl. auto.
      * exists rec. by rewrite lookup_insert_ne.
    + intros Hlive. destruct (reusable_live _ _ Hlive) as (rec & _ & Hsome). congruence.
Qed.

Lemma broadcast_each_live us s :
  ∃ s', broadcast_each env us s = (Returned tt, s')
    ∧ Forall (λ u, has_live_message monthKey (userMessageRefs s') (u_id u)) us
    ∧ ∀ v, has_live_message monthKey (userMessageRefs s) v →
           has_live_message monthKey (userMessageRefs s') v.
Proof.
  revert s. induction us as [|u us IH]; intros s; simpl.
  - exists s. by repeat split.
  - rewrite bind_run. unfold try_catch.
    destruct (sendOrUpdateControlMessage_live (u_id u) s) as (s1 & -> & Hu & Hkeep & _).
    destruct (IH s1) as (s' & -> & Hall & Hkeep').
    exists s'. split; [done|]. split; [constructor; auto|]. auto.
Qed.

Lemma broadcast_each_updates us s :
  Forall (λ u, has_live_message monthKey (userMessageRefs s) (u_id u)) us →
  ∃ s' evs, broadcast_each env us s = (Returned tt, s')
    ∧ journal s' = (journal s ++ evs)%list
    ∧ length evs = length us ∧ forallb is_update evs = true
    ∧ userMessageRefs s' = userMessageRefs s.
Proof.
  revert s. induction us as [|u us IH]; intros s Hall; simpl.
  - exists s, []. rewrite app_nil_r. by repeat split.
  - apply Forall_cons in Hall as [Hu Hall].
    rewrite bind_run. unfold try_catch.
    destruct (sendOrUpdateControlMessage_live (u_id u) s) as (s1 & -> & _ & _ & Hupd).
    destruct (Hupd Hu) as (Hr & ev & Hj & Hev).
    rewrite <- Hr in Hall.
    destruct (IH s1 Hall) as (s' & evs & -> & Hj' & Hlen & Hevs & Hr').
    exists s', (ev :: evs). split; [done|].
    split; [by rewrite Hj', Hj, <- app_assoc|]. split; [simpl; lia|].
    split; [simpl; by rewrite Hev|]. congruence.
Qed.

Lemma broadcast_reliable s :
  broadcastForCurrentMonth env s
  = broadcast_each env (List.filter eligible (members env)) (next_tick s).
Proof.
  unfold broadcastForCurrentMonth, try_catch, client_users_list.
  repeat (rewrite bind_run; simpl). rewrite (request_reliable env Hrel). simpl.
  by destruct (broadcast_each_live (List.filter eligible (members env)) (next_tick s))
    as (s1 & -> & _).
Qed.

(** Two broadcasts in a row. *)
Lemma broadcast_twice s :
  let s1 := snd (broadcastForCurrentMonth env s) in
  let r := broadcastForCurrentMonth env s1 in
  fst r = Returned tt
  ∧ ∃ evs, journal (snd r) = (journal s1 ++ evs)%list
      ∧ length evs = length (List.filter eligible (members env))
      ∧ forallb is_update evs = true
      ∧ userMessageRefs (snd r) = userMessageRefs s1.
Proof.
  intros s1 r. subst r. rewrite broadcast_reliable.
  assert (Hall : Forall (λ u, has_live_message monthKey (userMessageRefs s1) (u_id u))
                   (List.filter eligible (members env))).
  { subst s1. rewrite broadcast_reliable.
    by destruct (broadcast_each_live (List.filter eligible (members env)) (next_tick s))
      as (s1 & -> & Hall & _). }
  destruct (broadcast_each_updates (List.filter eligible (members env)) (next_tick s1) Hall)
    as (s2 & evs & -> & Hj & Hlen & Hevs & Hr). simpl.
  split; [done|]. by exists evs.
Qed.

End SameMonth.

(** X17. A second broadcast in the same month posts nothing new.  Let no
    request be rejected, the platform give non-empty timestamps and the
    month key of the clock stay the same.  Then a broadcast that follows
    a broadcast returns and leaves one event per eligible member, each of
    them the update of a message, and it leaves the references as the
    first broadcast set them. *)
Theorem second_broadcast_updates s :
  no_faults env → (∀ n, fresh_ts env n ≠ "") →
  (∀ n m, getCurrentMonthKey (clock env n) = getCurrentMonthKey (clock env m)) →
  let s1 := snd (broadcastForCurrentMonth env s) in
  let r := broadcastForCurrentMonth env s1 in
  fst r = Returned tt
  ∧ ∃ evs, journal (snd r) = (journal s1 ++ evs)%list
      ∧ length evs = length (List.filter eligible (members env))
      ∧ forallb is_update evs = true
      ∧ userMessageRefs (snd r) = userMessageRefs s1.
Proof.
  intros Hrel Hts Hmonth.
  apply (broadcast_twice (getCurrentMonthKey (clock env 0)) Hrel Hts).
  intros n. apply Hmonth.
Qed.

End Broadcast.

(** Two broadcasts to the directory of the examples: the second one updates
    the three messages the first one posted. *)
Lemma second_broadcast_updates_witness :
  let env := frozen_env never in
  let s1 := snd (@broadcastForCurrentMonth UTC.host env init_state) in
  let r := @broadcastForCurrentMonth UTC.host env s1 in
  List.map is_update (journal s1) = [false; false; false]
  ∧ fst r = Returned tt
  ∧ ∃ evs, journal (snd r) = (journal s1 ++ evs)%list
      ∧ length evs = 3%nat
      ∧ forallb is_update evs = true
      ∧ userMessageRefs (snd r) = userMessageRefs s1.
Proof.
  intros env s1 r. split; [vm_compute; reflexivity|].
  assert (Hts : ∀ n, fresh_ts env n ≠ "").
  { intros n. change (fresh_ts env n) with (String "1" ("7153424." +:+ pretty n)).
    discriminate. }
  exact (@second_broadcast_updates UTC.host env init_state (λ n, eq_refl) Hts
           (λ n m, eq_refl)).
Defined.

(** ** The month key *)

(** Appending strings. *)
Lemma append_cons a s t : String a s +:+ t = String a (s +:+ t).
Proof. reflexivity. Qed.

Lemma append_nil t : "" +:+ t = t.
Proof. reflexivity. Qed.

Lemma length_append s t : String.length (s +:+ t) = (String.length s + String.length t)%nat.
Proof. induction s as [|a s IH]; [done|]. rewrite append_cons. simpl. by rewrite IH. Qed.

Lemma append_inj_length s1 s2 t1 t2 :
  String.length t1 = String.length t2 → s1 +:+ t1 = s2 +:+ t2 → s1 = s2 ∧ t1 = t2.
Proof.
  intros Hlen. revert s2. induction s1 as [|a s1 IH]; intros [|b s2] Heq.
  - done.
  - rewrite append_nil in Heq. rewrite Heq, append_cons in Hlen. simpl in Hlen.
    rewrite length_append in Hlen. lia.
  - rewrite append_nil in Heq. rewrite <- Heq, append_cons in Hlen. simpl in Hlen.
    rewrite length_append in Hlen. lia.
  - rewrite !append_cons in Heq. injection Heq as -> Heq.
    destruct (IH s2 Heq) as [-> ->]. done.
Qed.

Section MonthKeyFacts.
Context `{JsHost}.

Lemma month_digits m :
  0 ≤ m < 12 → String.length (padStart 2 "0" (pretty (m + 1))) = 2%nat.
Proof.
  intros Hm.
  assert (Hcases : m = 0 ∨ m = 1 ∨ m = 2 ∨ m = 3 ∨ m = 4 ∨ m = 5 ∨ m = 6 ∨ m = 7
                   ∨ m = 8 ∨ m = 9 ∨ m = 10 ∨ m = 11) by lia.
  repeat destruct Hcases as [->|Hcases]; try subst m; vm_compute; reflexivity.
Qed.

Lemma month_digits_inj m1 m2 :
  0 ≤ m1 < 12 → 0 ≤ m2 < 12 →
  padStart 2 "0" (pretty (m1 + 1)) = padStart 2 "0" (pretty (m2 + 1)) → m1 = m2.
Proof.
  intros H1 H2.
  assert (Hc1 : m1 = 0 ∨ m1 = 1 ∨ m1 = 2 ∨ m1 = 3 ∨ m1 = 4 ∨ m1 = 5 ∨ m1 = 6 ∨ m1 = 7
                ∨ m1 = 8 ∨ m1 = 9 ∨ m1 = 10 ∨ m1 = 11) by lia.
  assert (Hc2 : m2 = 0 ∨ m2 = 1 ∨ m2 = 2 ∨ m2 = 3 ∨ m2 = 4 ∨ m2 = 5 ∨ m2 = 6 ∨ m2 = 7
                ∨ m2 = 8 ∨ m2 = 9 ∨ m2 = 10 ∨ m2 = 11) by lia.
  clear H1 H2.
  repeat destruct Hc1 as [->|Hc1]; try subst m1;
    repeat destruct Hc2 as [->|Hc2]; try subst m2;
    vm_compute; intros Heq; first [reflexivity | discriminate Heq].
Qed.

(** X18. The month key identifies the calendar month.  For two dates whose
    month index the host reports in the range 0 to 11, the month keys are
    equal exactly when the years are equal and the months are equal: the
    reuse of a message and the scope of a settlement flag, both decided by
    the key, follow the same months as the monthly summary, decided by
    year and month. *)
Theorem getCurrentMonthKey_same_month d1 d2 :
  0 ≤ getMonth d1 < 12 → 0 ≤ getMonth d2 < 12 →
  getCurrentMonthKey d1 = getCurrentMonthKey d2
  ↔ getFullYear d1 = getFullYear d2 ∧ getMonth d1 = getMonth d2.
Proof.
  intros H1 H2. unfold getCurrentMonthKey. split.
  - intros Heq.
    apply append_inj_length in Heq as [Hy Hm].
    + split; [by apply (inj pretty)|].
      apply month_digits_inj; [done|done|]. by injection Hm.
    + rewrite !append_cons, !append_nil. simpl. by rewrite !month_digits.
  - by intros [-> ->].
Qed.

End MonthKeyFacts.

(** Two instants of May 2024 share their key, and one of June does not. *)
Lemma getCurrentMonthKey_same_month_witness :
  (@getCurrentMonthKey UTC.host noon_10_may_2024
   = @getCurrentMonthKey UTC.host (noon_10_may_2024 + 86400000)
   ↔ UTC.year_of noon_10_may_2024 = UTC.year_of (noon_10_may_2024 + 86400000)
     ∧ UTC.month_of noon_10_may_2024 = UTC.month_of (noon_10_may_2024 + 86400000))
  ∧ @getCurrentMonthKey UTC.host noon_10_may_2024
    ≠ @getCurrentMonthKey UTC.host (noon_10_may_2024 + 30 * 86400000).
Proof.
  assert (Hmay : UTC.month_of noon_10_may_2024 = 4) by (vm_compute; reflexivity).
  assert (Hmay' : UTC.month_of (noon_10_may_2024 + 86400000) = 4)
    by (vm_compute; reflexivity).
  assert (Hjune : UTC.month_of (noon_10_may_2024 + 30 * 86400000) = 5)
    by (vm_compute; reflexivity).
  split.
  - apply (@getCurrentMonthKey_same_month UTC.host); simpl; lia.
  - intros Hkey.
    apply (@getCurrentMonthKey_same_month UTC.host) in Hkey as [_ Hmonth];
      simpl in *; lia.
Defined.

(** ** The aggregation of [/monthly_tally] *)

Section TallyFacts.
Context `{JsHost}.

Lemma inherited_ne key key' : inherited key = true → inherited key' = false → key ≠ key'.
Proof. intros Hk Hk' ->. congruence. Qed.

Lemma tally_step_plain idx row summary :
  idx ≠ 0%nat → inherited (tally_key row) = false →
  ∃ summary', tally_step idx row summary = Some summary'
    ∧ ∀ key, summary' !! key
             = if String.eqb (tally_key row) key
               then Some (tally_add (default (mkSummary 0 0 0%float) (summary !! key)) row)
               else summary !! key.
Proof.
  intros Hidx Hplain. unfold tally_step. apply Nat.eqb_neq in Hidx. rewrite Hidx.
  fold (tally_key row). fold (tally_kind row). rewrite Hplain.
  destruct (summary !! tally_key row) as [e|] eqn:He; simpl.
  - eexists. split; [done|]. intros key.
    destruct (String.eqb (tally_key row) key) eqn:Hk.
    + apply String.eqb_eq in Hk as <-. by rewrite lookup_alter_eq, He.
    + apply String.eqb_neq in Hk. by rewrite lookup_alter_ne.
  - eexists. split; [done|]. intros key.
    destruct (String.eqb (tally_key row) key) eqn:Hk.
    + apply String.eqb_eq in Hk as <-. by rewrite lookup_alter_eq, lookup_insert_eq, He.
    + apply String.eqb_neq in Hk. by rewrite lookup_alter_ne, lookup_insert_ne.
Qed.

Lemma tally_step_inherited idx row summary :
  idx ≠ 0%nat → inherited (tally_key row) = true → summary !! tally_key row = None →
  tally_step idx row summary = None.
Proof.
  intros Hidx Hin Hnone. unfold tally_step. apply Nat.eqb_neq in Hidx. rewrite Hidx.
  fold (tally_key row). by rewrite Hnone, Hin.
Qed.

Lemma tally_forEach_plain idx rows summary :
  idx ≠ 0%nat → forallb (λ row, negb (inherited (tally_key row))) rows = true →
  ∃ summary', tally_forEach idx rows summary = Some summary'
    ∧ ∀ key, summary' !! key
             = match List.filter (λ row, String.eqb (tally_key row) key) rows with
               | [] => summary !! key
               | rs => Some (foldl tally_add
                               (default (mkSummary 0 0 0%float) (summary !! key)) rs)
               end.
Proof.
  intros Hidx. revert idx summary Hidx.
  induction rows as [|row rows IH]; intros idx summary Hidx Hplain; simpl.
  - by exists summary.
  - simpl in Hplain. apply andb_prop in Hplain as [Hrow Hrows].
    apply negb_true_iff in Hrow.
    destruct (tally_step_plain idx row summary Hidx Hrow) as (s1 & -> & Hs1). simpl.
    destruct (IH (S idx) s1 ltac:(done) Hrows) as (s2 & -> & Hs2).
    exists s2. split; [done|]. intros key. rewrite Hs2, Hs1.
    destruct (String.eqb (tally_key row) key); simpl; [|done].
    by destruct (List.filter _ rows).
Qed.

Lemma tally_forEach_inherited idx rows summary :
  idx ≠ 0%nat → (∀ key, inherited key = true → summary !! key = None) →
  forallb (λ row, negb (inherited (tally_key row))) rows = false →
  tally_forEach idx rows summary = None.
Proof.
  intros Hidx. revert idx summary Hidx.
  induction rows as [|row rows IH]; intros idx summary Hidx Hown Hsome; [done|].
  simpl in *. destruct (inherited (tally_key row)) eqn:Hrow; simpl in Hsome.
  - by rewrite (tally_step_inherited idx row summary Hidx Hrow (Hown _ Hrow)).
  - destruct (tally_step_plain idx row summary Hidx Hrow) as (s1 & -> & Hs1). simpl.
    apply IH; [done| |done]. intros key Hkey. rewrite Hs1.
    pose proof (inherited_ne key (tally_key row) Hkey Hrow) as Hne.
    assert (String.eqb (tally_key row) key = false) as -> by (apply String.eqb_neq; congruence).
    by apply Hown.
Qed.

Lemma monthly_tally_summary_plain rows :
  plain_keys rows = true →
  ∃ summary, monthly_tally_summary rows = Some summary
    ∧ ∀ key, summary !! key
             = match tally_rows key rows with
               | [] => None
               | rs => Some (foldl tally_add (mkSummary 0 0 0%float) rs)
               end.
Proof.
  unfold monthly_tally_summary, tally_rows, plain_keys.
  destruct rows as [|hd rows]; simpl; [by exists ∅|].
  rewrite drop_0. intros Hplain.
  destruct (tally_forEach_plain 1 rows ∅ ltac:(done) Hplain) as (summary & -> & Hs).
  exists summary. split; [done|]. intros key. by rewrite Hs, lookup_empty.
Qed.

Lemma monthly_tally_summary_inherited rows :
  plain_keys rows = false → monthly_tally_summary rows = None.
Proof.
  unfold monthly_tally_summary, plain_keys.
  destruct rows as [|hd rows]; simpl; [done|]. rewrite drop_0.
  by apply tally_forEach_inherited.
Qed.

Lemma tally_add_counts e row :
  coffee (tally_add e row)
  = coffee e + (if String.eqb (tally_kind row) "coffee" then 1 else 0)
  ∧ tea (tally_add e row) = tea e + (if String.eqb (tally_kind row) "tea" then 1 else 0)
  ∧ (tally_kind row ≠ "amount" →
     amount (tally_add e row) = (amount e + parse_price (cell row 4))%float).
Proof.
  unfold tally_add, tally_bump.
  destruct (String.eqb (tally_kind row) "coffee") eqn:Hk1.
  { apply String.eqb_eq in Hk1. rewrite Hk1. simpl. repeat split; lia. }
  destruct (String.eqb (tally_kind row) "tea") eqn:Hk2.
  { simpl. repeat split; lia. }
  destruct (String.eqb (tally_kind row) "amount") eqn:Hk3.
  { apply String.eqb_eq in Hk3. simpl. repeat split; try lia. done. }
  simpl. repeat split; lia.
Qed.

Lemma foldl_tally_add_counts rs e :
  coffee (foldl tally_add e rs) = coffee e + rows_with_kind "coffee" rs
  ∧ tea (foldl tally_add e rs) = tea e + rows_with_kind "tea" rs
  ∧ (Forall (λ row, tally_kind row ≠ "amount") rs →
     amount (foldl tally_add e rs) = sum_prices (amount e) rs).
Proof.
  revert e. induction rs as [|row rs IH]; intros e; simpl.
  - unfold rows_with_kind. simpl. repeat split; lia.
  - destruct (IH (tally_add e row)) as (Hc & Ht & Ha).
    destruct (tally_add_counts e row) as (Hc1 & Ht1 & Ha1).
    rewrite Hc, Ht, Hc1, Ht1. unfold rows_with_kind. simpl.
    split; [destruct (String.eqb (tally_kind row) "coffee"); simpl; lia|].
    split; [destruct (String.eqb (tally_kind row) "tea"); simpl; lia|].
    intros Hall. apply Forall_cons in Hall as [Hne Hall].
    rewrite (Ha Hall), (Ha1 Hne). done.
Qed.

(** X19. The entries of the tally.  The callback of [/monthly_tally]
    keeps to the object it builds exactly when no row past the first has a
    user cell that is found in [Object.prototype] ([constructor],
    [__proto__], ...).  The object then has an entry under a key exactly
    when some row past the first has a user cell that stands for this key,
    and the entry counts the rows filed under the key, of all months: its
    coffee count is the number of those rows whose kind stands for
    [coffee], its tea count likewise, and, if none of them has the kind
    [amount], its amount is the sum of their prices in the order of the
    rows. *)
Theorem monthly_tally_entries rows :
  (monthly_tally_summary rows = None ↔ plain_keys rows = false)
  ∧ ∀ summary key,
      monthly_tally_summary rows = Some summary →
      let rs := tally_rows key rows in
      (summary !! key = None ↔ rs = [])
      ∧ ∀ e, summary !! key = Some e →
          coffee e = rows_with_kind "coffee" rs
          ∧ tea e = rows_with_kind "tea" rs
          ∧ (Forall (λ row, tally_kind row ≠ "amount") rs →
             amount e = sum_prices 0%float rs).
Proof.
  destruct (plain_keys rows) eqn:Hplain.
  - destruct (monthly_tally_summary_plain rows Hplain) as (summary & Hs & Hlook).
    rewrite Hs. split; [done|]. intros ? key [= <-] rs. rewrite Hlook. fold rs.
    destruct rs as [|row rs'] eqn:Hrs; [done|]. split; [done|].
    intros e [= <-].
    destruct (foldl_tally_add_counts (row :: rs') (mkSummary 0 0 0%float))
      as (Hc & Ht & Ha).
    done.
  - rewrite (monthly_tally_summary_inherited rows Hplain). done.
Qed.

Lemma written_keys row :
  written row →
  ∃ u k, tally_key row = u ∧ tally_kind row = k
         ∧ cell row 0 = JStr u ∧ cell row 3 = JStr k.
Proof. intros (u & name & iso & k & price & ->). by exists u, k. Qed.

(** X20. Where the tally and the monthly summary agree.  On a ledger whose
    data rows were written by [logChoice], none for a user whose
    identifier is found in [Object.prototype], if every row of a user
    falls in the month of the reference date and none has the kind
    [amount], the entry of the user in the tally is the monthly summary of
    the user; a user without a row has no entry. *)
Theorem tally_agrees_within_month hd data userId date :
  Forall written data →
  plain_keys (hd :: data) = true →
  Forall (λ row, row_of userId row = true →
                 in_month date row = true ∧ cell row 3 ≠ JStr "amount") data →
  ∃ summary,
    monthly_tally_summary (hd :: data) = Some summary
    ∧ summary !! userId
      = if forallb (λ row, negb (row_of userId row)) data then None
        else Some (monthly_summary_of (hd :: data) userId date).
Proof.
  intros Hw Hplain Hin.
  destruct (monthly_tally_summary_plain (hd :: data) Hplain) as (summary & Hs & Hlook).
  exists summary. split; [done|].
  rewrite Hlook, monthly_summary_of_spec.
  unfold monthly_summary_spec, counted_rows, tally_rows. simpl. rewrite !drop_0.
  assert (Hsame : List.filter (λ row, String.eqb (tally_key row) userId) data
                  = List.filter (counted userId date) data).
  { apply List.filter_ext_in. intros row Hrow.
    rewrite List.Forall_forall in Hw, Hin.
    destruct (written_keys row (Hw row Hrow)) as (u & k & Hu & _ & Hc & _).
    unfold counted, row_of in *. rewrite Hu. specialize (Hin row Hrow).
    rewrite Hc in *. simpl in *.
    destruct (String.eqb u userId); [|done]. by destruct Hin as [-> _]. }
  assert (Hnone : forallb (λ row, negb (row_of userId row)) data
                  = match List.filter (λ row, String.eqb (tally_key row) userId) data with
                    | [] => true | _ => false end).
  { clear Hsame Hin Hplain Hs Hlook.
    induction Hw as [|row data Hrow _ IH]; [done|]. simpl.
    destruct (written_keys row Hrow) as (u & k & Hu & _ & Hc & _).
    unfold row_of at 1. rewrite Hu, Hc. simpl.
    destruct (String.eqb u userId); simpl; [done|exact IH]. }
  rewrite Hnone. rewrite Hsame.
  set (cs := List.filter (counted userId date) data) in *.
  assert (Hcs : Forall (λ row, ∃ k, cell row 3 = JStr k ∧ k ≠ "amount") cs).
  { apply List.Forall_forall. intros row Hrow. apply List.filter_In in Hrow as [Hrow Hc].
    rewrite List.Forall_forall in Hw, Hin.
    destruct (written_keys row (Hw row Hrow)) as (u & k & _ & _ & _ & Hk).
    exists k. split; [done|]. apply andb_prop in Hc as [Hmine _].
    destruct (Hin row Hrow Hmine) as [_ Hne]. congruence. }
  destruct cs as [|row cs'] eqn:Hcs'; [done|]. f_equal.
  destruct (foldl_tally_add_counts (row :: cs') (mkSummary 0 0 0%float)) as (Hc & Ht & Ha).
  assert (Hkinds : ∀ kind, rows_with_kind kind (row :: cs') = count_kind kind (row :: cs')).
  { intros kind. unfold rows_with_kind, count_kind. do 2 f_equal.
    apply List.filter_ext_in. intros r Hr. rewrite List.Forall_forall in Hcs.
    destruct (Hcs r Hr) as (k & Hk & _). unfold tally_kind, of_kind. by rewrite Hk. }
  rewrite !Hkinds in *.
  destruct (foldl tally_add _ _) as [c t a]. simpl in *. f_equal; [lia|lia|].
  apply Ha. eapply Forall_impl; [exact Hcs|]. intros r (k & Hk & Hne).
  unfold tally_kind. rewrite Hk. done.
Qed.

End TallyFacts.

(** On the shared ledger, all of May 2024, the entry of [U1] in the tally
    is the monthly summary of [U1]: one coffee for 2. *)
Lemma tally_agrees_within_month_witness :
  (∃ summary,
     @monthly_tally_summary UTC.host shared_ledger = Some summary
     ∧ summary !! "U1"
       = Some (@monthly_summary_of UTC.host shared_ledger "U1" noon_10_may_2024))
  ∧ @monthly_summary_of UTC.host shared_ledger "U1" noon_10_may_2024 = mkSummary 1 0 2.
Proof.
  split; [|vm_compute; reflexivity].
  apply (@tally_agrees_within_month UTC.host header (drop 1 shared_ledger) "U1"
           noon_10_may_2024).
  - constructor; [|constructor; [|constructor]].
    + exists "U1", "Alice", "2024-05-02T09:00:00.000Z", "coffee", 2%float. reflexivity.
    + exists "U2", "Bob B", "2024-05-03T09:00:00.000Z", "tea", 1.5%float. reflexivity.
  - reflexivity.
  - constructor; [|constructor; [|constructor]].
    + intros _. split; [vm_compute; reflexivity|discriminate].
    + intros Hmine. discriminate Hmine.
Defined.

(** A row whose user cell reads [constructor] or [__proto__] creates no
    entry: [summary[userId]] is [Object], or [Object.prototype], and the
    callback increments a property of that. *)
Example monthly_tally_reaches_builtin :
  @monthly_tally_summary UTC.host
     [header; row_on "U1" "2024-05-02T09:00:00.000Z" "coffee" 2;
      row_on "constructor" "2024-05-03T09:00:00.000Z" "tea" 1.5] = None
  ∧ @plain_keys UTC.host
      [header; row_on "__proto__" "2024-05-03T09:00:00.000Z" "tea" 1.5] = false
  ∧ @plain_keys UTC.host [[JStr "toString"]; row_on "U1" "2024-05-02T09:00:00.000Z" "coffee" 2]
    = true.
Proof. repeat split; vm_compute; reflexivity. Qed.

(** ** The commands of the module [Commands] *)

Section CommandFacts.
Import Commands.
Context `{JsHost} (w : World).

Lemma io_bind_run {A B} (m : Io A) (k : A → Io B) (r : Run) :
  (m ≫= k) r
  = match m r with
    | (Done a, r') => k a r'
    | (Failed e, r') => (Failed e, r')
    end.
Proof. reflexivity. Qed.

Lemma array_index_pretty key n : array_index key = Some n → pretty n = key.
Proof.
  unfold array_index. destruct (UTC.digits key) as [m|]; simpl; [|done].
  destruct (String.eqb (pretty m) key) eqn:Hk; simpl; [|done].
  destruct (m <? 2 ^ 32 - 1); [|done]. intros [= <-]. by apply String.eqb_eq.
Qed.

Lemma omap_array_index keys :
  pretty <$> omap array_index keys
  = List.filter is_array_index keys.
Proof.
  induction keys as [|key keys IH]; [done|]. simpl. unfold is_array_index at 1.
  destruct (array_index key) as [n|] eqn:Hn; simpl; [|done].
  rewrite (array_index_pretty key n Hn). f_equal. exact IH.
Qed.

Lemma filter_partition {A} (P : A → bool) (l : list A) :
  List.filter P l ++ List.filter (λ x, negb (P x)) l ≡ₚ l.
Proof.
  induction l as [|x l IH]; [done|]. simpl. destruct (P x); simpl.
  - by rewrite IH.
  - by rewrite <- Permutation_middle, IH.
Qed.

Lemma for_in_order_created created :
  for_in_order created ≡ₚ reverse (remove_dups (reverse created)).
Proof.
  unfold for_in_order. rewrite merge_sort_Permutation, omap_array_index.
  apply filter_partition.
Qed.

Lemma for_in_order_keys created :
  NoDup (for_in_order created) ∧ ∀ key, key ∈ for_in_order created ↔ key ∈ created.
Proof.
  split.
  - rewrite for_in_order_created, reverse_Permutation. apply NoDup_remove_dups.
  - intros key. rewrite for_in_order_created, elem_of_reverse, elem_of_remove_dups.
    apply elem_of_reverse.
Qed.

Lemma tally_keys_entries rows summary key :
  monthly_tally_summary rows = Some summary →
  key ∈ tally_key <$> drop 1 rows ↔ is_Some (summary !! key).
Proof.
  intros Hs.
  assert (Hplain : plain_keys rows = true).
  { destruct (plain_keys rows) eqn:Hp; [done|].
    by rewrite (monthly_tally_summary_inherited rows Hp) in Hs. }
  destruct (monthly_tally_summary_plain rows Hplain) as (summary' & Hs' & Hlook).
  rewrite Hs in Hs'. injection Hs' as <-. rewrite Hlook. unfold tally_rows.
  rewrite list_elem_of_fmap. split.
  - intros (row & -> & Hrow).
    assert (Hin : row ∈ List.filter (λ row', String.eqb (tally_key row') (tally_key row))
                          (drop 1 rows)).
    { apply list_elem_of_In, List.filter_In. split; [by apply list_elem_of_In|].
      apply String.eqb_refl. }
    destruct (List.filter _ _); [by apply elem_of_nil in Hin|by eexists].
  - destruct (List.filter _ _) as [|row rs] eqn:Hf; [by intros [? ?]|]. intros _.
    assert (Hin : In row (List.filter (λ row', String.eqb (tally_key row') key)
                            (drop 1 rows))) by (rewrite Hf; by left).
    apply List.filter_In in Hin as [Hin Hk]. apply String.eqb_eq in Hk.
    exists row. split; [done|]. by apply list_elem_of_In.
Qed.

Lemma bill_each_run summary keys r :
  Forall (λ key, is_Some (summary !! key)) keys →
  let out := bill_each w summary keys r in
  ∃ k, (k ≤ length keys)%nat
    ∧ effects (snd out) = (effects r ++ omap (bill_of w summary) (take k keys))%list
    ∧ (∀ i, (i < k)%nat → failure_at w (now r + i) = None)
    ∧ ((k = length keys ∧ fst out = Done tt)
       ∨ ((k < length keys)%nat
          ∧ ∃ e, failure_at w (now r + k) = Some e ∧ fst out = Failed e)).
Proof.
  revert r. induction keys as [|key keys IH]; intros r Hall out; subst out.
  - exists 0%nat. simpl. rewrite app_nil_r. split; [done|]. split; [done|].
    split; [intros i Hi; lia|]. by left.
  - apply Forall_cons in Hall as [[e He] Hall]. simpl. rewrite io_bind_run, He.
    unfold chat_postMessage, call.
    destruct (failure_at w (now r)) as [f|] eqn:Hf; simpl.
    + exists 0%nat. simpl. rewrite app_nil_r, Nat.add_0_r. split; [lia|].
      split; [done|]. split; [intros i Hi; lia|]. right. split; [lia|]. by exists f.
    + set (r1 := mkRun _ _). destruct (IH r1 Hall) as (k & Hk & Heff & Hbefore & Hend).
      exists (S k). split; [simpl; lia|]. split.
      { rewrite Heff. simpl. unfold bill_of at 2. rewrite He. simpl.
        by rewrite <- app_assoc. }
      split.
      { intros [|i] Hi; [by rewrite Nat.add_0_r|].
        replace (now r + S i)%nat with (now r1 + i)%nat by (simpl; lia).
        apply Hbefore. lia. }
      destruct Hend as [[-> Hdone]|(Hlt & f & Hf' & Hfailed)].
      * by left.
      * right. split; [simpl; lia|]. exists f.
        replace (now r + S k)%nat with (now r1 + k)%nat by (simpl; lia). done.
Qed.

(** X21. The bills of [/monthly_tally].  Let no row past the first have a
    user cell that is found in [Object.prototype].  The keys the command
    walks through are the keys of the tally, each once.  If the read of
    the ledger is rejected the command throws and posts nothing.
    Otherwise it posts the bills in the order of the keys, each to the
    channel named by its key and with the counts and the amount of its
    entry, up to the first rejected post: there the command throws, and
    the users after it get no bill.  It returns when every post went
    through. *)
Theorem monthly_tally_command_bills r :
  plain_keys (sheet_rows w) = true →
  ∃ summary,
    monthly_tally_summary (sheet_rows w) = Some summary
    ∧ let keys := for_in_order (tally_key <$> drop 1 (sheet_rows w)) in
      let out := monthly_tally_command w r in
      (NoDup keys ∧ ∀ key, key ∈ keys ↔ is_Some (summary !! key))
      ∧ match failure_at w (now r) with
        | Some e => fst out = Failed e ∧ effects (snd out) = effects r
        | None =>
            ∃ k, (k ≤ length keys)%nat
              ∧ effects (snd out)
                = (effects r ++ omap (bill_of w summary) (take k keys))%list
              ∧ length (omap (bill_of w summary) (take k keys)) = k
              ∧ (∀ i, (i < k)%nat → failure_at w (S (now r) + i) = None)
              ∧ ((k = length keys ∧ fst out = Done (Some tt))
                 ∨ ((k < length keys)%nat
                    ∧ ∃ e, failure_at w (S (now r) + k) = Some e ∧ fst out = Failed e))
        end.
Proof.
  intros Hplain.
  destruct (monthly_tally_summary_plain (sheet_rows w) Hplain) as (summary & Hs & _).
  exists summary. split; [done|]. intros keys out.
  destruct (for_in_order_keys (tally_key <$> drop 1 (sheet_rows w))) as [Hnodup Hkeys].
  assert (Hentries : ∀ key, key ∈ keys ↔ is_Some (summary !! key)).
  { intros key. unfold keys. rewrite Hkeys. by apply tally_keys_entries. }
  split; [done|]. subst out. unfold monthly_tally_command, values_get, call.
  rewrite io_bind_run.
  destruct (failure_at w (now r)) as [f|] eqn:Hf; simpl; [done|].
  rewrite Hs, io_bind_run. fold keys. rewrite app_nil_r. set (r1 := mkRun _ _).
  assert (Hall : Forall (λ key, is_Some (summary !! key)) keys).
  { apply Forall_forall. intros key Hkey. by apply Hentries. }
  pose proof (bill_each_run summary keys r1 Hall) as Hrun. cbv zeta in Hrun.
  destruct Hrun as (k & Hk & Heff & Hbefore & Hend).
  assert (Hlen : length (omap (bill_of w summary) (take k keys)) = k).
  { clear -Hall Hk. revert k Hk. induction Hall as [|key keys' [e He] _ IH]; intros k Hk.
    - simpl in Hk. by replace k with 0%nat by lia.
    - destruct k as [|k]; [done|]. simpl in *. unfold bill_of at 1. rewrite He. simpl.
      rewrite IH; [done|lia]. }
  exists k. destruct (bill_each w summary keys r1) as [[[]|e] r2]; simpl in *.
  - split; [exact Hk|]. split; [exact Heff|]. split; [exact Hlen|].
    split; [exact Hbefore|].
    destruct Hend as [[Hkeq _]|(Hlt & e & He & Hfailed)]; [|discriminate Hfailed].
    left. by split.
  - split; [exact Hk|]. split; [exact Heff|]. split; [exact Hlen|].
    split; [exact Hbefore|].
    destruct Hend as [[_ Hdone]|(Hlt & e' & He & Hfailed)]; [discriminate Hdone|].
    right. split; [exact Hlt|]. exists e'. split; [exact He|]. by injection Hfailed as ->.
Qed.

(** *** Clearing the direct messages *)

Lemma delete_own_run botUserId channel msgs total r :
  let out := delete_own w botUserId channel msgs total r in
  ∃ ds, effects (snd out) = (effects r ++ ds)%list
    ∧ fst out = Done (total + length ds)%nat
    ∧ Forall (λ d, ∃ msg, msg ∈ msgs ∧ is_own botUserId msg = true
                          ∧ d = Deleted channel (msg_ts msg)) ds
    ∧ (all_accepted w → ds = deletions_of botUserId channel msgs)
    ∧ (now r ≤ now (snd out))%nat.
Proof.
  revert total r. induction msgs as [|msg msgs IH]; intros total r out; subst out; simpl.
  - exists []. rewrite app_nil_r, Nat.add_0_r. by repeat split.
  - unfold deletions_of. simpl. destruct (is_own botUserId msg) eqn:Hown; simpl.
    + rewrite io_bind_run. unfold attempt, chat_delete, call. rewrite io_bind_run.
      destruct (failure_at w (now r)) as [f|] eqn:Hf; simpl.
      * set (r1 := mkRun _ _).
        destruct (IH total r1) as (ds & Heff & Hdone & Hown' & Hall & Hnow).
        exists ds. split; [done|]. split; [done|]. split.
        { eapply Forall_impl; [exact Hown'|]. intros d (m & Hm & Ho & ->).
          exists m. split; [by right|done]. }
        split; [intros Hacc; by rewrite Hacc in Hf|]. simpl in Hnow. lia.
      * set (r1 := mkRun _ _).
        destruct (IH (S total) r1) as (ds & Heff & Hdone & Hown' & Hall & Hnow).
        exists (Deleted channel (msg_ts msg) :: ds). split.
        { rewrite Heff. simpl. by rewrite <- app_assoc. }
        split; [rewrite Hdone; f_equal; simpl; lia|]. split.
        { constructor; [exists msg; split; [by left|done]|].
          eapply Forall_impl; [exact Hown'|]. intros d (m & Hm & Ho & ->).
          exists m. split; [by right|done]. }
        split; [intros Hacc; by rewrite (Hall Hacc)|]. simpl in Hnow. lia.
    + destruct (IH total r) as (ds & Heff & Hdone & Hown' & Hall & Hnow).
      exists ds. split; [done|]. split; [done|]. split; [|done].
      eapply Forall_impl; [exact Hown'|]. intros d (m & Hm & Ho & ->).
      exists m. split; [by right|done].
Qed.

Lemma clear_pages_run fuel botUserId channel cursor total r :
  let out := clear_pages w fuel botUserId channel cursor total r in
  ∃ ds, effects (snd out) = (effects r ++ ds)%list
    ∧ Forall (own_deletion w botUserId channel) ds
    ∧ (∀ n, fst out = Done (Some n) → n = (total + length ds)%nat)
    ∧ (all_accepted w → ∃ o, fst out = Done o).
Proof.
  revert cursor total r. induction fuel as [|fuel IH]; intros cursor total r out; subst out.
  - exists []. simpl. rewrite app_nil_r. split; [done|]. split; [done|].
    split; [done|]. by eexists.
  - simpl. rewrite io_bind_run. unfold conversations_history, call.
    destruct (failure_at w (now r)) as [f|] eqn:Hf; simpl.
    { exists []. rewrite app_nil_r. split; [done|]. split; [done|].
      split; [done|]. intros Hacc. by rewrite Hacc in Hf. }
    rewrite app_nil_r, io_bind_run. set (r1 := mkRun _ _).
    destruct (delete_own_run botUserId channel (page_messages (history_at w (now r)))
                total r1) as (ds1 & Heff1 & Hdone1 & Hown1 & _).
    destruct (delete_own _ _ _ _ _ r1) as [o r2]. simpl in *. subst o.
    assert (Hown : Forall (own_deletion w botUserId channel) ds1).
    { eapply Forall_impl; [exact Hown1|]. intros d (m & Hm & Ho & ->).
      by exists (now r), m. }
    destruct (String.eqb (page_cursor (history_at w (now r))) ""); simpl.
    + exists ds1. split; [done|]. split; [done|].
      split; [by intros n [= <-]|]. by eexists.
    + destruct (IH (Some (page_cursor (history_at w (now r)))) (total + length ds1)%nat r2)
        as (ds2 & Heff2 & Hown2 & Hcount & Hacc2).
      exists (ds1 ++ ds2)%list. split; [by rewrite Heff2, Heff1, <- app_assoc|].
      split; [by apply Forall_app|]. split; [|done].
      intros n Hn. rewrite (Hcount n Hn), length_app. lia.
Qed.

Lemma clear_pages_ends fuel botUserId channel cursor total r bound :
  (∀ t, (bound ≤ t)%nat → page_cursor (history_at w t) = "") →
  (bound - now r < fuel)%nat →
  fst (clear_pages w fuel botUserId channel cursor total r) ≠ Done None.
Proof.
  intros Hbound. revert cursor total r.
  induction fuel as [|fuel IH]; intros cursor total r Hfuel.
  - lia.
  - simpl. rewrite io_bind_run. unfold conversations_history, call.
    destruct (failure_at w (now r)) as [f|] eqn:Hf; simpl; [done|].
    rewrite io_bind_run. set (r1 := mkRun _ _).
    destruct (delete_own_run botUserId channel (page_messages (history_at w (now r)))
                total r1) as (ds1 & _ & Hdone1 & _ & _ & Hnow).
    destruct (delete_own _ _ _ _ _ r1) as [o r2]. simpl in *. subst o.
    destruct (String.eqb (page_cursor (history_at w (now r))) "") eqn:Hc; simpl; [done|].
    apply IH. apply String.eqb_neq in Hc.
    destruct (decide (bound ≤ now r)%nat) as [Hle|Hgt]; [by apply Hbound in Hle|]. lia.
Qed.

Lemma respond_run text r :
  respond w text r
  = match failure_at w (now r) with
    | Some e => (Failed e, mkRun (S (now r)) (effects r))
    | None => (Done tt, mkRun (S (now r)) (effects r ++ [Responded text])%list)
    end.
Proof. reflexivity. Qed.

(** The catch clause of the command. *)
Lemma report_failure_run e r :
  let out := (respond w (failed_text e);; mret (Some tt)) r in
  (fst out = Done (Some tt)
   ∧ effects (snd out) = (effects r ++ [Responded (failed_text e)])%list
   ∨ (∃ e', fst out = Failed e') ∧ effects (snd out) = effects r)
  ∧ (all_accepted w → fst out = Done (Some tt)).
Proof.
  intros out. subst out. rewrite io_bind_run, respond_run.
  destruct (failure_at w (now r)) as [f|] eqn:Hf; simpl.
  - split; [right; split; [by eexists|done]|]. intros Hacc. by rewrite Hacc in Hf.
  - split; [by left|done].
Qed.

(** X22. [/coffee_clear_dm] deletes nothing but messages of the bot.
    Whatever is rejected and whatever the pages hold, every deletion of
    the command is that of a message some page showed and whose user is
    the user identifier of the bot, in the direct channel of the user; if
    that identifier is not known (it is [null] when [auth.test] failed at
    startup) nothing is deleted.  After the deletions the command hands at
    most one text to [respond]: when it returns, the text reports the
    number of deletions that went through, or the error that ended the
    loop or rejected the first response.  With no request rejected the
    report is the count.  And the loop ends within as many iterations as
    there are requests before the platform serves pages without a
    cursor. *)
Theorem coffee_clear_dm_deletes_own fuel botUserId userId r :
  let channel := dm_of w userId in
  let out := coffee_clear_dm_command w fuel botUserId userId r in
  ∃ ds rs,
    effects (snd out) = (effects r ++ ds ++ rs)%list
    ∧ Forall (own_deletion w botUserId channel) ds
    ∧ (botUserId = None ∨ botUserId = Some "" → ds = [])
    ∧ match fst out with
      | Done (Some _) =>
          rs = [Responded (deleted_text (length ds))]
          ∨ ∃ e, rs = [Responded (failed_text e)]
      | _ => rs = []
      end
    ∧ (all_accepted w →
       fst out = Done None
       ∨ fst out = Done (Some tt) ∧ rs = [Responded (deleted_text (length ds))])
    ∧ (∀ bound, (∀ t, (bound ≤ t)%nat → page_cursor (history_at w t) = "") →
         (bound - S (now r) < fuel)%nat → fst out ≠ Done None).
Proof.
  intros channel out.
  assert (Hnone : ∀ ds, Forall (own_deletion w botUserId channel) ds →
                        botUserId = None ∨ botUserId = Some "" → ds = []).
  { intros [|d ds] Hown Hbot; [done|]. apply Forall_cons in Hown as [(t & m & _ & Ho & _) _].
    destruct Hbot as [-> | ->]; [done|]. unfold is_own in Ho. simpl in Ho.
    by rewrite andb_false_r in Ho. }
  subst out. unfold coffee_clear_dm_command, attempt.
  rewrite io_bind_run. unfold conversations_open, call.
  destruct (failure_at w (now r)) as [f|] eqn:Hopen; simpl.
  { set (r1 := mkRun _ _).
    destruct (report_failure_run f r1) as [[[Hdone Heff]|[[e' Hfailed] Heff]] Hacc].
    - exists [], [Responded (failed_text f)]. rewrite Heff, Hdone. simpl.
      split; [done|]. split; [done|]. split; [done|]. split; [right; by eexists|].
      split; [intros Ha; by rewrite Ha in Hopen|]. done.
    - exists [], []. rewrite Heff, Hfailed. simpl. rewrite app_nil_r.
      split; [done|]. split; [done|]. split; [done|]. split; [done|].
      split; [intros Ha; by rewrite Ha in Hopen|]. done. }
  rewrite app_nil_r, io_bind_run. set (r1 := mkRun _ _). fold channel.
  destruct (clear_pages_run fuel botUserId channel None 0%nat r1)
    as (ds & Heff & Hown & Hcount & Hacc).
  pose proof (λ bound Hb, clear_pages_ends fuel botUserId channel None 0%nat r1 bound Hb)
    as Hends.
  change (effects r1) with (effects r) in Heff.
  destruct (clear_pages w fuel botUserId channel None 0 r1) as [[[n|]|f] r2] eqn:Hrun;
    simpl in *.
  - rewrite (Hcount n eq_refl). rewrite io_bind_run, respond_run.
    destruct (failure_at w (now r2)) as [f|] eqn:Hf; simpl.
    + set (r3 := mkRun _ _).
      destruct (report_failure_run f r3) as [[[Hdone Heff3]|[[e' Hfailed] Heff3]] Hacc3].
      * exists ds, [Responded (failed_text f)]. rewrite Heff3, Hdone. simpl.
        rewrite Heff, <- app_assoc.
        split; [done|]. split; [done|]. split; [by apply Hnone|].
        split; [right; by eexists|]. split; [intros Ha; by rewrite Ha in Hf|]. done.
      * exists ds, []. rewrite Heff3, Hfailed. simpl. rewrite Heff, app_nil_r.
        split; [done|]. split; [done|]. split; [by apply Hnone|]. split; [done|].
        split; [intros Ha; by rewrite Ha in Hf|]. done.
    + exists ds, [Responded (deleted_text (length ds))]. rewrite Heff, <- app_assoc.
      split; [done|]. split; [done|]. split; [by apply Hnone|].
      split; [by left|]. split; [by right|]. done.
  - exists ds, []. rewrite Heff, app_nil_r. split; [done|]. split; [done|].
    split; [by apply Hnone|]. split; [done|]. split; [by left|].
    intros bound Hb Hfuel. exfalso. by apply (Hends bound Hb Hfuel).
  - destruct (report_failure_run f r2) as [[[Hdone Heff3]|[[e' Hfailed] Heff3]] Hacc3].
    + exists ds, [Responded (failed_text f)]. rewrite Heff3, Hdone. simpl.
      rewrite Heff, <- app_assoc.
      split; [done|]. split; [done|]. split; [by apply Hnone|].
      split; [right; by eexists|].
      split; [intros Ha; by destruct (Hacc Ha)|]. done.
    + exists ds, []. rewrite Heff3, Hfailed. simpl. rewrite Heff, app_nil_r.
      split; [done|]. split; [done|]. split; [by apply Hnone|]. split; [done|].
      split; [intros Ha; by destruct (Hacc Ha)|]. done.
Qed.

(** X23. With no request rejected and a history of one page, the command
    deletes exactly the messages of the bot on that page, in their order,
    and then reports their number. *)
Theorem coffee_clear_dm_one_page fuel botUserId userId r :
  all_accepted w → (0 < fuel)%nat →
  let page := history_at w (S (now r)) in
  page_cursor page = "" →
  let ds := deletions_of botUserId (dm_of w userId) (page_messages page) in
  let out := coffee_clear_dm_command w fuel botUserId userId r in
  fst out = Done (Some tt)
  ∧ effects (snd out)
    = (effects r ++ ds ++ [Responded (deleted_text (length ds))])%list.
Proof.
  intros Hacc Hfuel page Hcursor ds out. subst out.
  destruct fuel as [|fuel]; [lia|].
  unfold coffee_clear_dm_command, attempt.
  rewrite io_bind_run. unfold conversations_open, call. rewrite Hacc. simpl.
  rewrite app_nil_r, io_bind_run. set (r1 := mkRun _ _).
  rewrite io_bind_run. unfold conversations_history, call. rewrite Hacc. simpl.
  rewrite app_nil_r, io_bind_run. set (r2 := mkRun _ _). fold page.
  destruct (delete_own_run botUserId (dm_of w userId) (page_messages page) 0%nat r2)
    as (ds' & Heff & Hdone & _ & Hall & _).
  rewrite (Hall Hacc) in Heff, Hdone. fold ds in Heff, Hdone.
  destruct (delete_own _ _ _ _ _ r2) as [o r3]. simpl in *. subst o.
  rewrite Hcursor. simpl. rewrite io_bind_run, respond_run, Hacc. simpl.
  split; [done|]. by rewrite Heff, app_assoc.
Qed.

End CommandFacts.

(** Array indices come first and in ascending order, whenever they were
    created; a numeral with a leading zero is an ordinary key. *)
Example for_in_order_example :
  Commands.for_in_order ["U2"; "10"; "U1"; "2"; "U2"; "007"]
  = ["2"; "10"; "U2"; "U1"; "007"].
Proof. vm_compute. reflexivity. Qed.

(** The user cells of the shared ledger are [U1] and [U2].  The bill of
    [U1] goes out first; with the post to [U2] rejected (the request at
    tick 2) the command throws and [U2] gets no bill. *)
Lemma monthly_tally_command_bills_witness :
  let w := example_world (only_at 2) in
  @plain_keys UTC.host (Commands.sheet_rows w) = true
  ∧ ∃ summary,
      @monthly_tally_summary UTC.host (Commands.sheet_rows w) = Some summary
      ∧ (∀ key, key ∈ ["U1"; "U2"] ↔ is_Some (summary !! key))
      ∧ (let out := @Commands.monthly_tally_command UTC.host w fresh_run in
         fst out = Commands.Failed (Commands.mkFailure "ratelimited" "An API error occurred")
         ∧ Commands.effects (snd out)
           = [Commands.Billed "U1" 1 0 2 "https://paypal.me/youraccount"]).
Proof.
  intros w. split; [reflexivity|].
  destruct (@monthly_tally_command_bills UTC.host w fresh_run eq_refl)
    as (summary & Hs & [_ Hkeys] & _).
  exists summary. split; [exact Hs|]. split; [exact Hkeys|].
  split; vm_compute; reflexivity.
Defined.

(** The two messages of the bot [B1] on the page of the examples are
    deleted, the one of [U1] between them is not. *)
Lemma coffee_clear_dm_one_page_witness :
  let out := Commands.coffee_clear_dm_command (example_world never) 5 (Some "B1") "U1"
               fresh_run in
  fst out = Commands.Done (Some tt)
  ∧ Commands.effects (snd out)
    = [Commands.Deleted "DU1" "1.1"; Commands.Deleted "DU1" "1.3";
       Commands.Responded "Deleted 2 prior bot message(s) in our DM."].
Proof.
  apply (coffee_clear_dm_one_page (example_world never) 5 (Some "B1") "U1" fresh_run).
  - intros n. reflexivity.
  - lia.
  - reflexivity.
Defined.

(** Without the identifier of the bot nothing is deleted; and when the
    history cannot be read (the request at tick 1) the error is reported
    with the detail the platform gave. *)
Example coffee_clear_dm_edge_cases :
  Commands.effects
    (snd (Commands.coffee_clear_dm_command (example_world never) 5 None "U1" fresh_run))
  = [Commands.Responded "Deleted 0 prior bot message(s) in our DM."]
  ∧ Commands.effects
      (snd (Commands.coffee_clear_dm_command (example_world (only_at 1)) 5 (Some "B1")
              "U1" fresh_run))
    = [Commands.Responded
         (Commands.failed_text (Commands.mkFailure "ratelimited" "An API error occurred"))]
  ∧ Commands.detail_of (Commands.mkFailure "ratelimited" "An API error occurred")
    = "ratelimited"
  ∧ Commands.detail_of (Commands.mkFailure "" "") = "unknown_error".
Proof. repeat split; vm_compute; reflexivity. Qed.
